(** * Photo-sharing web service: the request handlers of [p2-ws/server]

    A shallow embedding of the request handlers [post_image], [get_image],
    [get_images_with_label], [get_image_labels], [get_images] and
    [delete_images] ([api_*.js]), together with the properties their
    specification states about them and further properties that the code
    itself shows.

    The handlers are asynchronous JavaScript functions that talk to three
    external systems: a MySQL session ([dbConn]), an S3 bucket and the
    Rekognition label detector.  Every [await] is a sequencing point, so a
    handler is embedded as a function from a [World] (the tables, the bucket,
    the session and the scripted behaviour of the environment) to a result
    and a new [World]; a JavaScript exception is the [Throw] result. *)

From Stdlib Require Import ZArith QArith Qround List String Ascii Bool Lia.
From Stdlib Require Import Sorted Permutation.
Import ListNotations.

Local Open Scope string_scope.
Local Open Scope Z_scope.
Local Open Scope list_scope.

Set Implicit Arguments.

(** ** Values that cross the service boundary *)

(** The bodies passed to [response.json]. *)
#[local] Unset Elimination Schemes.
Inductive Json : Type :=
| JNum (n : Z)
| JStr (s : string)
| JArr (items : list Json)
| JObj (fields : list (string * Json)).
#[local] Set Elimination Schemes.

(** A response is the status code ([response.status], 200 when the handler
    does not set it) and the JSON body. *)
Definition Response : Type := Z * Json.

(** Modelled from the spec: [ValueError] is declared in [helper.js], which is
    not part of the sources; section 9 describes it as the custom error type
    that separates a caller error from every other failure.  An exception is
    its class and its [message]. *)
Inductive ErrorClass : Type := ValueError | Error.

Record JsError : Type := mkError { err_class : ErrorClass; message : string }.

Definition new_Error (msg : string) : JsError := mkError Error msg.
Definition new_ValueError (msg : string) : JsError := mkError ValueError msg.

(** [err instanceof ValueError] *)
Definition instanceof_ValueError (e : JsError) : bool :=
  match err_class e with ValueError => true | Error => false end.

Inductive Result (A : Type) : Type :=
| Ok (a : A)
| Throw (e : JsError).
Arguments Ok {A} a.
Arguments Throw {A} e.

(** ** Rows of the three tables *)

Record UserRow : Type := mkUser { u_userid : Z; username : string }.

Record AssetRow : Type := mkAsset
  { assetid : Z; userid : Z; localname : string; bucketkey : string }.

Record LabelRow : Type := mkLabel
  { l_assetid : Z; label : string; confidence : Z }.

(** One label of a Rekognition answer; [Confidence] is a floating-point
    percentage, kept here as the rational it denotes. *)
Record RkgLabel : Type := mkRkg { Name : string; Confidence : Q }.

(** ** Texts and bytes *)

(** A JavaScript text is kept as the bytes of its UTF-8 encoding (a lone
    surrogate as the three bytes of its code unit).  [code_units] gives the
    UTF-16 code units that the program sees; where the bytes are not the
    encoding of a text, the unit is the replacement character. *)
Definition byte_of (c : ascii) : Z := Z.of_N (N_of_ascii c).

Fixpoint code_units (s : string) : list Z :=
  match s with
  | EmptyString => []
  | String c0 rest =>
      let b0 := byte_of c0 in
      if b0 <? 128 then b0 :: code_units rest
      else if b0 <? 192 then 65533 :: code_units rest
      else if b0 <? 224 then
        match rest with
        | String c1 rest1 =>
            ((b0 - 192) * 64 + (byte_of c1 - 128)) :: code_units rest1
        | EmptyString => [65533]
        end
      else if b0 <? 240 then
        match rest with
        | String c1 (String c2 rest2) =>
            ((b0 - 224) * 4096 + (byte_of c1 - 128) * 64 + (byte_of c2 - 128))
              :: code_units rest2
        | _ => [65533]
        end
      else
        match rest with
        | String c1 (String c2 (String c3 rest3)) =>
            let cp := (b0 - 240) * 262144 + (byte_of c1 - 128) * 4096
                      + (byte_of c2 - 128) * 64 + (byte_of c3 - 128) in
            (55296 + (cp - 65536) / 1024) :: (56320 + (cp - 65536) mod 1024)
              :: code_units rest3
        | _ => [65533]
        end
  end.

(** The value of a character in base64; the characters [-] and [_] of the
    alphabet for URLs stand for [+] and [/]. *)
Definition unbase64 (c : Z) : option Z :=
  if (65 <=? c) && (c <=? 90) then Some (c - 65)
  else if (97 <=? c) && (c <=? 122) then Some (c - 71)
  else if (48 <=? c) && (c <=? 57) then Some (c + 4)
  else if (c =? 43) || (c =? 45) then Some 62
  else if (c =? 47) || (c =? 95) then Some 63
  else None.

(** The decoder of Node reads the low byte of every code unit, skips what
    is not in the alphabet, and stops at the first [=]. *)
Fixpoint sextets (units : list Z) : list Z :=
  match units with
  | [] => []
  | u :: rest =>
      let c := u mod 256 in
      if c =? 61 then []
      else match unbase64 c with
           | Some v => v :: sextets rest
           | None => sextets rest
           end
  end.

(** Four characters give three bytes; of a last group, two characters give
    one byte, three give two, and one gives none. *)
Fixpoint octets (vs : list Z) : list Z :=
  match vs with
  | a :: b :: c :: d :: rest =>
      (a * 4 + b / 16) :: ((b mod 16) * 16 + c / 4) :: ((c mod 4) * 64 + d)
        :: octets rest
  | [a; b; c] => [a * 4 + b / 16; (b mod 16) * 16 + c / 4]
  | [a; b] => [a * 4 + b / 16]
  | _ => []
  end.

Record Buffer : Type := mkBuffer { bytes : list Z }.

(** [Buffer.from( img_str, 'base64' )] *)
Definition Buffer_from (img_str : string) : Buffer :=
  mkBuffer (octets (sextets (code_units img_str))).

Definition base64_char (v : Z) : ascii :=
  ascii_of_N (Z.to_N (if v <? 26 then v + 65
                      else if v <? 52 then v + 71
                      else if v <? 62 then v - 4
                      else if v =? 62 then 43
                      else 47)).

(** The base64 text of bytes, padded with [=] to a multiple of four
    characters. *)
Fixpoint base64 (bs : list Z) : string :=
  match bs with
  | x :: y :: z :: rest =>
      String (base64_char (x / 4))
        (String (base64_char ((x mod 4) * 16 + y / 16))
           (String (base64_char ((y mod 16) * 4 + z / 64))
              (String (base64_char (z mod 64)) (base64 rest))))
  | [x; y] =>
      String (base64_char (x / 4))
        (String (base64_char ((x mod 4) * 16 + y / 16))
           (String (base64_char ((y mod 16) * 4)) "="))
  | [x] =>
      String (base64_char (x / 4)) (String (base64_char ((x mod 4) * 16)) "==")
  | [] => ""
  end.

(** [img_bytes.transformToString( 'base64' )] *)
Definition transformToString (b : Buffer) : string := base64 (bytes b).

Definition is_byte (b : Z) : Prop := 0 <= b < 256.

(** ** The environment *)

(** The statements the handlers send to MySQL, one constructor per SQL text
    of the sources, with the parameters bound to its placeholders. *)
Inductive Sql : Type :=
| SelectUsername (uid : Z)
| InsertAsset (uid : Z) (local_filename bkt_key : string)
| InsertLabel (aid : Z) (name : string) (conf_int : Z)
| SelectAssetId (aid : option Z)
| SelectLabels (aid : option Z)
| SelectAssetRow (aid : Z)
| SelectAssets (filtered : bool) (params : list Z)
| SelectBucketKeys
| SetForeignKeyChecks (on : bool)
| TruncateLabels
| TruncateAssets
| AlterAutoIncrement (start : Z)
| SelectLabelsLike (pattern : string).

(** Every call that leaves the process. [CCommit] carries the ids of the
    asset rows the commit made durable. *)
Inductive Call : Type :=
| CConnect
| CEnd
| CBegin
| CExecute (q : Sql)
| CCommit (durable : list Z)
| CRollback
| CPutObject (key : string)
| CGetObject (key : string)
| CDeleteObjects (keys : list string)
| CDetectLabels (max_labels : nat) (min_confidence : Q).

(** A logged call and, when it failed, the message of its error. *)
Record Event : Type := mkEvent { call : Call; failure : option string }.

(** The JavaScript variable [dbConn] of the running request.

    [post_image] starts two units of work together and answers as soon as
    one of them is rejected; its [finally] block then ends [dbConn] while the
    other unit may still be running.  A live handle may therefore carry a
    lease: the number of further commands the connection serves before the
    handler ends it.  [Expired] is a handle that was ended this way. *)
Inductive Handle : Type :=
| Undefined
| Live (lease : option nat)
| Ended
| Expired.

(** What the detector answers to one [DetectLabelsCommand]: the labels it
    sees in the image, or a failure with its message and the number of
    database commands that complete before the rejection is delivered. *)
Inductive Detection : Type :=
| Detected (candidates : list RkgLabel)
| DetectFailed (msg : string) (delivered_after : nat).

(** The rows written inside the open transaction and not yet committed. *)
Definition Pending : Type := (list AssetRow * list LabelRow)%type.

Record World : Type := mkWorld
  { users : list UserRow;
    assets : list AssetRow;
    labels : list LabelRow;
    auto_increment : Z;
    txn : option Pending;
    dbConn : Handle;
    bucket : list (string * Buffer);
    db_faults : list (option string);
    s3_faults : list (option string);
    rkg_script : list Detection;
    uuids : list string;
    log : list Event }.

Definition set_assets (v : list AssetRow) (w : World) : World :=
  mkWorld (users w) v (labels w) (auto_increment w) (txn w) (dbConn w)
    (bucket w) (db_faults w) (s3_faults w) (rkg_script w) (uuids w) (log w).
Definition set_labels (v : list LabelRow) (w : World) : World :=
  mkWorld (users w) (assets w) v (auto_increment w) (txn w) (dbConn w)
    (bucket w) (db_faults w) (s3_faults w) (rkg_script w) (uuids w) (log w).
Definition set_auto_increment (v : Z) (w : World) : World :=
  mkWorld (users w) (assets w) (labels w) v (txn w) (dbConn w)
    (bucket w) (db_faults w) (s3_faults w) (rkg_script w) (uuids w) (log w).
Definition set_txn (v : option Pending) (w : World) : World :=
  mkWorld (users w) (assets w) (labels w) (auto_increment w) v (dbConn w)
    (bucket w) (db_faults w) (s3_faults w) (rkg_script w) (uuids w) (log w).
Definition set_dbConn (v : Handle) (w : World) : World :=
  mkWorld (users w) (assets w) (labels w) (auto_increment w) (txn w) v
    (bucket w) (db_faults w) (s3_faults w) (rkg_script w) (uuids w) (log w).
Definition set_bucket (v : list (string * Buffer)) (w : World) : World :=
  mkWorld (users w) (assets w) (labels w) (auto_increment w) (txn w) (dbConn w)
    v (db_faults w) (s3_faults w) (rkg_script w) (uuids w) (log w).
Definition set_db_faults (v : list (option string)) (w : World) : World :=
  mkWorld (users w) (assets w) (labels w) (auto_increment w) (txn w) (dbConn w)
    (bucket w) v (s3_faults w) (rkg_script w) (uuids w) (log w).
Definition set_s3_faults (v : list (option string)) (w : World) : World :=
  mkWorld (users w) (assets w) (labels w) (auto_increment w) (txn w) (dbConn w)
    (bucket w) (db_faults w) v (rkg_script w) (uuids w) (log w).
Definition set_rkg_script (v : list Detection) (w : World) : World :=
  mkWorld (users w) (assets w) (labels w) (auto_increment w) (txn w) (dbConn w)
    (bucket w) (db_faults w) (s3_faults w) v (uuids w) (log w).
Definition set_uuids (v : list string) (w : World) : World :=
  mkWorld (users w) (assets w) (labels w) (auto_increment w) (txn w) (dbConn w)
    (bucket w) (db_faults w) (s3_faults w) (rkg_script w) v (log w).
Definition set_log (v : list Event) (w : World) : World :=
  mkWorld (users w) (assets w) (labels w) (auto_increment w) (txn w) (dbConn w)
    (bucket w) (db_faults w) (s3_faults w) (rkg_script w) (uuids w) v.

(** Appends one call to the log. *)
Definition record (c : Call) (o : option string) (w : World) : World :=
  set_log (log w ++ [mkEvent c o]) w.

(** ** Asynchronous code as a state and exception monad *)

Definition M (A : Type) : Type := World -> Result A * World.

Definition ret {A : Type} (a : A) : M A := fun w => (Ok a, w).

Definition throw {A : Type} (e : JsError) : M A := fun w => (Throw e, w).

Definition bind {A B : Type} (m : M A) (k : A -> M B) : M B :=
  fun w =>
    match m w with
    | (Ok a, w') => k a w'
    | (Throw e, w') => (Throw e, w')
    end.

Notation "x <- m ;; k" := (bind m (fun x => k))
  (at level 61, m at next level, right associativity).
Notation "m ;;; k" := (bind m (fun _ => k))
  (at level 61, right associativity).

(** [try { m } catch ( err ) { h err }] *)
Definition try_catch {A : Type} (m : M A) (h : JsError -> M A) : M A :=
  fun w =>
    match m w with
    | (Ok a, w') => (Ok a, w')
    | (Throw e, w') => h e w'
    end.

(** [try { m } finally { try { f } catch ( err ) { /*ignore*/ } }]: the
    clean-up runs on both exits and its own failure is swallowed. *)
Definition finally_ignoring {A B : Type} (m : M A) (f : M B) : M A :=
  fun w =>
    match m w with
    | (r, w') => (r, snd (f w'))
    end.

(** [for ( let x of xs ) { await body x }] *)
Fixpoint for_of {A : Type} (xs : list A) (body : A -> M unit) : M unit :=
  match xs with
  | [] => ret tt
  | x :: rest => body x ;;; for_of rest body
  end.

(** Modelled from the spec: [p-retry] is an external package.  Section 4.1
    gives its contract: invoke the unit of work; on failure re-invoke it up
    to [retries] additional times; surface the final failure unchanged when
    every attempt fails; return the first successful result otherwise. *)
Fixpoint pRetry {A : Type} (retries : nat) (op : M A) : M A :=
  fun w =>
    match op w with
    | (Ok a, w') => (Ok a, w')
    | (Throw e, w') =>
        match retries with
        | O => (Throw e, w')
        | S n => pRetry n op w'
        end
    end.

(** ** The MySQL session *)

(** mysql2 refuses a command on a connection that [end] was called on. *)
Definition closed_state : string :=
  "Can't add new command when connection is in closed state".

(** The session is gone: the handle is ended and the server discards the
    rows of the open transaction. *)
Definition hang_up (w : World) : World := set_txn None (set_dbConn Ended w).

(** [dbConn.end()]: resolves also on a connection that is already closed;
    on an undefined variable the method call is a [TypeError]. *)
Definition dbConn_end : M unit :=
  fun w =>
    match dbConn w with
    | Undefined =>
        (Throw (new_Error "Cannot read properties of undefined (reading 'end')"), w)
    | Live _ => (Ok tt, record CEnd None (hang_up w))
    | Ended | Expired => (Ok tt, w)
    end.

(** Charges one command to the lease.  When the lease has run out, the
    handler's [finally] block has ended the connection before the command
    is sent. *)
Definition charge (w : World) : World :=
  match dbConn w with
  | Live (Some (S n)) => set_dbConn (Live (Some n)) w
  | Live (Some O) => record CEnd None (set_txn None (set_dbConn Expired w))
  | _ => w
  end.

(** One command sent over [dbConn].  The command is refused when the
    connection is not live; otherwise the next entry of [db_faults] says
    whether the server fails it (with no effect other than [on_fault]), and
    a command that is not failed takes [effect]. *)
Definition db_call {A : Type} (c : Call) (on_fault : World -> World)
    (effect : World -> Result A * World) : M A :=
  fun w =>
    let w0 := charge w in
    match dbConn w0 with
    | Live _ =>
        let w1 := set_db_faults (tl (db_faults w0)) w0 in
        match hd None (db_faults w0) with
        | Some msg => (Throw (new_Error msg), record c (Some msg) (on_fault w1))
        | None =>
            match effect w1 with
            | (Ok a, w2) => (Ok a, record c None w2)
            | (Throw e, w2) => (Throw e, record c (Some (message e)) w2)
            end
        end
    | _ => (Throw (new_Error closed_state), record c (Some closed_state) w0)
    end.

(** Modelled from the spec: [get_dbConn] is defined in [helper.js], which is
    not part of the sources.  It opens a new session of the relational store
    client (section 2): the request's handle becomes live, with no lease and
    no open transaction; the attempt itself may fail. *)
Definition get_dbConn : M unit :=
  fun w =>
    let w1 := set_db_faults (tl (db_faults w)) w in
    match hd None (db_faults w) with
    | Some msg => (Throw (new_Error msg), record CConnect (Some msg) w1)
    | None =>
        (Ok tt, record CConnect None (set_txn None (set_dbConn (Live None) w1)))
    end.

(** The pending rows become durable. *)
Definition flush (w : World) : World :=
  match txn w with
  | None => w
  | Some (pa, pl) =>
      set_txn None (set_labels (labels w ++ pl) (set_assets (assets w ++ pa) w))
  end.

Definition pending_assetids (w : World) : list Z :=
  match txn w with
  | None => []
  | Some (pa, _) => map assetid pa
  end.

(** [dbConn.beginTransaction()]: START TRANSACTION commits a transaction
    that is still open and opens a new one. *)
Definition beginTransaction : M unit :=
  db_call CBegin (fun w => w) (fun w => (Ok tt, set_txn (Some ([], [])) (flush w))).

(** [dbConn.commit()] *)
Definition commit : M unit :=
  fun w => db_call (CCommit (pending_assetids w)) (fun w => w)
             (fun w => (Ok tt, flush w)) w.

(** [dbConn.rollback()]: the pending rows are dropped.  The server refuses a
    ROLLBACK only when the session is lost, and a lost session drops its
    open transaction as well. *)
Definition rollback : M unit :=
  db_call CRollback hang_up (fun w => (Ok tt, set_txn None w)).

(** A row written by an INSERT: pending inside a transaction, durable at
    once outside of one (autocommit). *)
Definition write_asset (r : AssetRow) (w : World) : World :=
  match txn w with
  | Some (pa, pl) => set_txn (Some (pa ++ [r], pl)) w
  | None => set_assets (assets w ++ [r]) w
  end.

Definition write_label (r : LabelRow) (w : World) : World :=
  match txn w with
  | Some (pa, pl) => set_txn (Some (pa, pl ++ [r])) w
  | None => set_labels (labels w ++ [r]) w
  end.

(** [Insert Into assets( userid, localname, bucketkey ) Values( ?, ?, ? )]:
    the row takes the next AUTO_INCREMENT value, which is consumed even when
    the transaction is rolled back later; the value is [info.insertId]. *)
Definition execute_insert_asset (uid : Z) (local_filename bkt_key : string) : M Z :=
  db_call (CExecute (InsertAsset uid local_filename bkt_key)) (fun w => w)
    (fun w =>
       let id := auto_increment w in
       (Ok id,
        write_asset (mkAsset id uid local_filename bkt_key)
          (set_auto_increment (id + 1) w))).

(** [Insert Into labels( assetid, label, confidence ) Values( ?, ?, ? )] *)
Definition execute_insert_label (aid : Z) (name : string) (conf_int : Z) : M unit :=
  db_call (CExecute (InsertLabel aid name conf_int)) (fun w => w)
    (fun w => (Ok tt, write_label (mkLabel aid name conf_int) w)).

(** [Select username From users Where userid = ?] *)
Definition execute_select_username (uid : Z) : M (list UserRow) :=
  db_call (CExecute (SelectUsername uid)) (fun w => w)
    (fun w => (Ok (filter (fun u => u_userid u =? uid) (users w)), w)).

(** [Select ... From assets Where assetid = ?]; a NaN parameter equals no
    stored id. *)
Definition assets_with_id (aid : option Z) (w : World) : list AssetRow :=
  match aid with
  | Some a => filter (fun r => assetid r =? a) (assets w)
  | None => []
  end.

Definition execute_select_assetid (aid : option Z) : M (list AssetRow) :=
  db_call (CExecute (SelectAssetId aid)) (fun w => w)
    (fun w => (Ok (assets_with_id aid w), w)).

Definition execute_select_asset_row (aid : Z) : M (list AssetRow) :=
  db_call (CExecute (SelectAssetRow aid)) (fun w => w)
    (fun w => (Ok (assets_with_id (Some aid) w), w)).

(** The collation of [labels.label] decides which characters [Like] takes
    for the same letter and how [Order By label] compares two texts.  It
    belongs to the schema of the database, not to the handlers, so the
    statements that read the column are embedded for any collation. *)
Record Collation : Type := mkCollation
  { same_letter : ascii -> ascii -> bool;
    text_leb : string -> string -> bool }.

(** The collation that compares bytes. *)
Definition binary : Collation := mkCollation Ascii.eqb String.leb.

Definition lower_case (c : ascii) : ascii :=
  let n := N_of_ascii c in
  if ((65 <=? n) && (n <=? 90))%N then ascii_of_N (n + 32) else c.

Fixpoint fold_case (s : string) : string :=
  match s with
  | String c rest => String (lower_case c) (fold_case rest)
  | EmptyString => EmptyString
  end.

(** A collation that takes an upper-case and a lower-case ASCII letter for
    the same letter. *)
Definition ascii_ci : Collation :=
  mkCollation (fun c d => Ascii.eqb (lower_case c) (lower_case d))
    (fun s t => String.leb (fold_case s) (fold_case t)).

(** [Order By label Asc], by insertion under the order of the collation.
    Rows whose labels the collation takes for equal keep the order of the
    table; the server promises no order among them. *)
Fixpoint insert_label (coll : Collation) (r : LabelRow) (rows : list LabelRow)
  : list LabelRow :=
  match rows with
  | [] => [r]
  | r' :: rest =>
      if text_leb coll (label r) (label r') then r :: r' :: rest
      else r' :: insert_label coll r rest
  end.

Definition order_by_label (coll : Collation) (rows : list LabelRow)
  : list LabelRow :=
  fold_right (insert_label coll) [] rows.

(** [Select label, confidence From labels Where assetid = ? Order By label Asc] *)
Definition labels_of (coll : Collation) (aid : option Z) (w : World)
  : list LabelRow :=
  match aid with
  | Some a => order_by_label coll (filter (fun r => l_assetid r =? a) (labels w))
  | None => []
  end.

Definition execute_select_labels (coll : Collation) (aid : option Z)
  : M (list LabelRow) :=
  db_call (CExecute (SelectLabels aid)) (fun w => w)
    (fun w => (Ok (labels_of coll aid w), w)).

(** What a [Like] pattern is made of: [%] stands for any run of characters,
    [_] for any one character, every other character for itself. *)
Inductive Wild : Type :=
| AnyRun
| AnyOne
| Exactly (c : ascii).

(** The backslash (character 092) is the escape character of [Like]: the
    character after it stands for itself; a backslash that ends the pattern
    stands for itself. *)
Fixpoint like_pattern (p : string) : list Wild :=
  match p with
  | EmptyString => []
  | String c rest =>
      if Ascii.eqb c "%" then AnyRun :: like_pattern rest
      else if Ascii.eqb c "_" then AnyOne :: like_pattern rest
      else if Ascii.eqb c "092" then
        match rest with
        | String c' rest' => Exactly c' :: like_pattern rest'
        | EmptyString => [Exactly c]
        end
      else Exactly c :: like_pattern rest
  end.

(** Whether the whole of [s] matches the pattern. *)
Fixpoint like_match (coll : Collation) (p : list Wild) (s : string) {struct p} : bool :=
  match p with
  | [] => match s with EmptyString => true | String _ _ => false end
  | AnyRun :: p' =>
      (fix run (s : string) : bool :=
         like_match coll p' s
         || match s with String _ rest => run rest | EmptyString => false end) s
  | AnyOne :: p' =>
      match s with
      | String _ rest => like_match coll p' rest
      | EmptyString => false
      end
  | Exactly c :: p' =>
      match s with
      | String d rest => same_letter coll c d && like_match coll p' rest
      | EmptyString => false
      end
  end.

(** [text Like pattern] *)
Definition like (coll : Collation) (pattern text : string) : bool :=
  like_match coll (like_pattern pattern) text.

(** [Order By assetid Asc, label Asc], by insertion. *)
Definition labelled_leb (coll : Collation) (r1 r2 : LabelRow) : bool :=
  (l_assetid r1 <? l_assetid r2)
  || ((l_assetid r1 =? l_assetid r2) && text_leb coll (label r1) (label r2)).

Fixpoint insert_labelled (coll : Collation) (r : LabelRow) (rows : list LabelRow)
  : list LabelRow :=
  match rows with
  | [] => [r]
  | r' :: rest =>
      if labelled_leb coll r r' then r :: r' :: rest
      else r' :: insert_labelled coll r rest
  end.

Definition order_by_assetid_label (coll : Collation) (rows : list LabelRow)
  : list LabelRow :=
  fold_right (insert_labelled coll) [] rows.

(** [Select assetid, label, confidence From labels Where label Like ?
     Order By assetid Asc, label Asc] *)
Definition labels_like (coll : Collation) (pattern : string) (w : World)
  : list LabelRow :=
  order_by_assetid_label coll
    (filter (fun r => like coll pattern (label r)) (labels w)).

Definition execute_select_like (coll : Collation) (pattern : string)
  : M (list LabelRow) :=
  db_call (CExecute (SelectLabelsLike pattern)) (fun w => w)
    (fun w => (Ok (labels_like coll pattern w), w)).

(** [Order By assetid Asc], by insertion. *)
Fixpoint insert_asset (r : AssetRow) (rows : list AssetRow) : list AssetRow :=
  match rows with
  | [] => [r]
  | r' :: rest =>
      if assetid r <=? assetid r' then r :: r' :: rest
      else r' :: insert_asset r rest
  end.

Definition order_by_assetid (rows : list AssetRow) : list AssetRow :=
  fold_right insert_asset [] rows.

Definition wrong_arguments : string := "Incorrect arguments to mysqld_stmt_execute".

(** [Select assetid, userid, localname, bucketkey From assets
     { Where userid = ? } Order By assetid Asc]: the statement has one
    placeholder exactly when it is filtered.  The server reads as many
    parameters as the prepared statement has placeholders: what is sent
    beyond them is ignored (the unfiltered statement is sent with [[-1]]),
    and a statement that misses its parameter is rejected. *)
Definition execute_select_assets (filtered : bool) (params : list Z) : M (list AssetRow) :=
  db_call (CExecute (SelectAssets filtered params)) (fun w => w)
    (fun w =>
       match filtered, params with
       | true, uid :: _ =>
           (Ok (order_by_assetid (filter (fun r => userid r =? uid) (assets w))), w)
       | true, [] => (Throw (new_Error wrong_arguments), w)
       | false, _ => (Ok (order_by_assetid (assets w)), w)
       end).

(** [Select bucketkey From assets] *)
Definition query_select_bucketkeys : M (list AssetRow) :=
  db_call (CExecute SelectBucketKeys) (fun w => w) (fun w => (Ok (assets w), w)).

(** The statements of [clear_db].  TRUNCATE and ALTER TABLE are data
    definition statements: they commit the open transaction and take effect
    at once, so a later ROLLBACK does not undo them. *)
Definition execute_clause (q : Sql) : M unit :=
  db_call (CExecute q) (fun w => w)
    (fun w =>
       match q with
       | TruncateLabels => (Ok tt, set_labels [] (flush w))
       | TruncateAssets => (Ok tt, set_assets [] (flush w))
       | AlterAutoIncrement n => (Ok tt, set_auto_increment n (flush w))
       | _ => (Ok tt, w)
       end).

(** ** The S3 bucket *)

(** [bkt.send( cmd )]: the next entry of [s3_faults] says whether the
    service fails the command. *)
Definition bkt_send {A : Type} (c : Call) (effect : World -> Result A * World) : M A :=
  fun w =>
    let w1 := set_s3_faults (tl (s3_faults w)) w in
    match hd None (s3_faults w) with
    | Some msg => (Throw (new_Error msg), record c (Some msg) w1)
    | None =>
        match effect w1 with
        | (Ok a, w2) => (Ok a, record c None w2)
        | (Throw e, w2) => (Throw e, record c (Some (message e)) w2)
        end
    end.

Definition without_keys (keys : list string) (b : list (string * Buffer))
  : list (string * Buffer) :=
  filter (fun kv => negb (existsb (String.eqb (fst kv)) keys)) b.

Definition lookup_key (key : string) (b : list (string * Buffer)) : option Buffer :=
  option_map snd (find (fun kv => String.eqb (fst kv) key) b).

(** [PutObjectCommand]: the object replaces what the key held. *)
Definition put_object (key : string) (body : Buffer) : M unit :=
  bkt_send (CPutObject key)
    (fun w => (Ok tt, set_bucket ((key, body) :: without_keys [key] (bucket w)) w)).

(** [GetObjectCommand] *)
Definition get_object (key : string) : M Buffer :=
  bkt_send (CGetObject key)
    (fun w =>
       match lookup_key key (bucket w) with
       | Some body => (Ok body, w)
       | None => (Throw (new_Error "The specified key does not exist."), w)
       end).

(** [DeleteObjectsCommand] *)
Definition delete_objects (keys : list string) : M unit :=
  bkt_send (CDeleteObjects keys)
    (fun w => (Ok tt, set_bucket (without_keys keys (bucket w)) w)).

(** ** The label detector *)

(** Modelled from the spec: Rekognition is an external service.  Given the
    image it returns zero or more (name, confidence) pairs (section 2), at
    most [max_labels] of them and none below [min_confidence] (section 4.2,
    step 3b). *)
Definition rekognition (max_labels : nat) (min_confidence : Q)
    (candidates : list RkgLabel) : list RkgLabel :=
  firstn max_labels
    (filter (fun l => Qle_bool min_confidence (Confidence l)) candidates).

(** [rkg.send( cmd )]: the next entry of [rkg_script] is what the detector
    does with this command. *)
Definition rkg_send (max_labels : nat) (min_confidence : Q) : M (list RkgLabel) :=
  fun w =>
    let w1 := set_rkg_script (tl (rkg_script w)) w in
    let c := CDetectLabels max_labels min_confidence in
    match hd (Detected []) (rkg_script w) with
    | Detected candidates =>
        (Ok (rekognition max_labels min_confidence candidates), record c None w1)
    | DetectFailed msg _ => (Throw (new_Error msg), record c (Some msg) w1)
    end.

(** When the rejection of the command that is sent next is delivered. *)
Definition delivery (w : World) : nat :=
  match hd (Detected []) (rkg_script w) with
  | Detected _ => O
  | DetectFailed _ k => k
  end.

(** [uuidv4()] *)
Definition uuidv4 : M string :=
  fun w => (Ok (hd "" (uuids w)), set_uuids (tl (uuids w)) w).

(** ** [parseInt] *)

(** The white space [parseInt] skips: TAB, LF, VT, FF, CR, SP, the no-break
    space, the byte order mark, the line and paragraph separators and the
    other space separators of Unicode. *)
Definition is_white_space (u : Z) : bool :=
  ((9 <=? u) && (u <=? 13)) || (u =? 32) || (u =? 160) || (u =? 5760)
  || ((8192 <=? u) && (u <=? 8202)) || (u =? 8232) || (u =? 8233)
  || (u =? 8239) || (u =? 8287) || (u =? 12288) || (u =? 65279).

Fixpoint trim_start (units : list Z) : list Z :=
  match units with
  | u :: rest => if is_white_space u then trim_start rest else units
  | [] => []
  end.

(** The value of a character as a digit of the radix, if it is one. *)
Definition digit_of (radix : Z) (u : Z) : option Z :=
  let v :=
    if (48 <=? u) && (u <=? 57) then u - 48
    else if (97 <=? u) && (u <=? 122) then u - 87
    else if (65 <=? u) && (u <=? 90) then u - 55
    else radix in
  if v <? radix then Some v else None.

(** The number written by the longest prefix of digits; [None] when the
    prefix is empty. *)
Fixpoint digits (radix : Z) (units : list Z) (acc : option Z) : option Z :=
  match units with
  | u :: rest =>
      match digit_of radix u with
      | Some d =>
          digits radix rest
            (Some (radix * match acc with Some a => a | None => 0 end + d))
      | None => acc
      end
  | [] => acc
  end.

(** [parseInt( s )] without a radix: leading white space, a sign, a [0x]
    prefix for base 16, then digits; [None] is NaN.  (The value is the
    integer written; the rounding of integers beyond 2^53 is left out.) *)
Definition parseInt (s : string) : option Z :=
  let units1 := trim_start (code_units s) in
  let (negative, units2) :=
    match units1 with
    | u :: rest =>
        if u =? 45 then (true, rest)
        else if u =? 43 then (false, rest)
        else (false, units1)
    | [] => (false, units1)
    end in
  let magnitude :=
    match units2 with
    | u0 :: u1 :: rest =>
        if (u0 =? 48) && ((u1 =? 120) || (u1 =? 88)) then digits 16 rest None
        else digits 10 units2 None
    | _ => digits 10 units2 None
    end in
  option_map (fun m => if negative then - m else m) magnitude.

(** ** The handlers *)

(** A handler maps the world to the response it sends, if it sends one, and
    the world it leaves. *)
Definition Handler : Type := World -> option Response * World.

(** [catch ( err ) { console.log( ... ); throw err; }] *)
Definition rethrow {A : Type} (err : JsError) : M A := throw err.

Definition asset_json (r : AssetRow) : Json :=
  JObj [("assetid", JNum (assetid r)); ("userid", JNum (userid r));
        ("localname", JStr (localname r)); ("bucketkey", JStr (bucketkey r))].

Definition label_json (r : LabelRow) : Json :=
  JObj [("label", JStr (label r)); ("confidence", JNum (confidence r))].

Definition labelled_json (r : LabelRow) : Json :=
  JObj [("assetid", JNum (l_assetid r)); ("label", JStr (label r));
        ("confidence", JNum (confidence r))].

(** *** [api_post_image.js] *)
Module api_post_image.

(** [request.params.userid] (the decimal text of the route, identified
    with the number MySQL reads it as), [request.body.local_filename] and
    [request.body.data]. *)
Record Request : Type := mkRequest
  { params_userid : Z; body_local_filename : string; body_data : string }.

Definition lookup_user (userid : Z) : M string :=
  try_catch
    (rows <- execute_select_username userid ;;
     match rows with
     | [] => throw (new_ValueError "no such userid")
     | [row] => ret (username row)
     | _ :: _ :: _ => throw (new_Error "unexpected duplicate userid")
     end)
    rethrow.

Definition upload_to_bucket (username local_filename : string)
    (img_bytes : Buffer) : M string :=
  try_catch
    (uuid <- uuidv4 ;;
     let bkt_key :=
       (username ++ "/" ++ uuid ++ "-" ++ local_filename)%string in
     put_object bkt_key img_bytes ;;;
     ret bkt_key)
    rethrow.

Definition update_db (userid : Z) (local_filename bkt_key : string) : M Z :=
  beginTransaction ;;;
  try_catch
    (assetid <- execute_insert_asset userid local_filename bkt_key ;;
     commit ;;;
     ret assetid)
    (fun err => rollback ;;; throw err).

Definition MaxLabels : nat := 10.
Definition MinConfidence : Q := 90 # 1.

Definition detect_labels (img_bytes : Buffer) : M (list RkgLabel) :=
  try_catch (rkg_send MaxLabels MinConfidence) rethrow.

Definition update_labels (assetid : Z) (rkg_labels : list RkgLabel) : M unit :=
  beginTransaction ;;;
  try_catch
    (for_of rkg_labels
       (fun label =>
          let conf_int := Qfloor (Confidence label) in
          execute_insert_label assetid (Name label) conf_int) ;;;
     commit)
    (fun err => rollback ;;; throw err).

(** The handler will end a live connection once [k] more commands have
    been served. *)
Definition grant_lease (k : nat) (w : World) : World :=
  match dbConn w with
  | Live _ => set_dbConn (Live (Some k)) w
  | _ => w
  end.

(** When the handler has answered, the lease is over. *)
Definition settle_lease (w : World) : World :=
  match dbConn w with
  | Live _ => set_dbConn (Live None) w
  | Expired => set_dbConn Ended w
  | _ => w
  end.

(** [const [ assetid, rkg_labels ] = await Promise.all(
      [ prom_assetid, prom_rkg_labels ] )].

    [detect_labels] sends its command when it is called; [update_db]
    starts later, behind the dynamic import of [pRetry], and touches
    nothing the detector reads.  When the detection succeeds the join
    waits for [update_db].  When it fails, its rejection is delivered
    after [delivery] further database commands have been served: if
    [update_db] has settled by then, the join is rejected by [update_db]'s
    own failure or else by the detection's; if not, the join is rejected by
    the detection's, the handler answers and ends [dbConn], and [update_db]
    goes on against the ended connection. *)
Definition fan_out (userid : Z) (local_filename bkt_key : string)
    (img_bytes : Buffer) : M (Z * list RkgLabel) :=
  fun w =>
    let prom_assetid := pRetry 2 (update_db userid local_filename bkt_key) in
    match detect_labels img_bytes w with
    | (Ok rkg_labels, w1) =>
        match prom_assetid w1 with
        | (Ok assetid, w2) => (Ok (assetid, rkg_labels), w2)
        | (Throw err, w2) => (Throw err, w2)
        end
    | (Throw err, w1) =>
        match prom_assetid (grant_lease (delivery w) w1) with
        | (settled, w2) =>
            (match dbConn w2, settled with
             | Expired, _ => Throw err
             | _, Throw err' => Throw err'
             | _, Ok _ => Throw err
             end,
             settle_lease w2)
        end
    end.

(** The [try] block of [post_image]. *)
Definition try_block (request : Request) : M Z :=
  let userid := params_userid request in
  let local_filename := body_local_filename request in
  let img_bytes := Buffer_from (body_data request) in
  username <- pRetry 2 (lookup_user userid) ;;
  bkt_key <- upload_to_bucket username local_filename img_bytes ;;
  joined <- fan_out userid local_filename bkt_key img_bytes ;;
  let (assetid, rkg_labels) := joined in
  pRetry 2 (update_labels assetid rkg_labels) ;;;
  ret assetid.

Definition post_image (request : Request) : Handler :=
  fun w =>
    match get_dbConn w with
    | (Throw _, w0) => (None, w0)
    | (Ok _, w0) =>
        match try_block request w0 with
        | (settled, w1) =>
            let response :=
              match settled with
              | Ok assetid =>
                  (200, JObj [("message", JStr "success");
                              ("assetid", JNum assetid)])
              | Throw err =>
                  (if instanceof_ValueError err then 400 else 500,
                   JObj [("message", JStr (message err));
                         ("assetid", JNum (-1))])
              end in
            (Some response, snd (dbConn_end w1))
        end
    end.

End api_post_image.

(** *** [api_get_image.js] *)
Module api_get_image.

Definition validate_assetid (assetid : Z) : M AssetRow :=
  try_catch
    (rows <- execute_select_asset_row assetid ;;
     match rows with
     | [] => throw (new_Error "get_image: no such assetid")
     | [row] => ret row
     | _ :: _ :: _ => throw (new_Error "get_image: unexpected duplicate assetid")
     end)
    rethrow.

Definition download_image_str (bkt_key : string) : M string :=
  try_catch
    (img_bytes <- get_object bkt_key ;;
     ret (transformToString img_bytes))
    rethrow.

(** The [try] block of [get_image]; [params_assetid] is
    [request.params.assetid]. *)
Definition try_block (params_assetid : string) : M Json :=
  match parseInt params_assetid with
  | None => throw (new_Error "get_image: assetid is not numeric")
  | Some assetid =>
      row <- pRetry 2 (validate_assetid assetid) ;;
      img_str <- download_image_str (bucketkey row) ;;
      ret (JObj [("message", JStr "success");
                 ("userid", JNum (userid row));
                 ("local_filename", JStr (localname row));
                 ("data", JStr img_str)])
  end.

Definition get_image (params_assetid : string) : Handler :=
  fun w =>
    match get_dbConn w with
    | (Throw _, w0) => (None, w0)
    | (Ok _, w0) =>
        match try_block params_assetid w0 with
        | (settled, w1) =>
            let response :=
              match settled with
              | Ok body => (200, body)
              | Throw err =>
                  (500, JObj [("message", JStr (message err));
                              ("userid", JNum (-1))])
              end in
            (Some response, snd (dbConn_end w1))
        end
    end.

End api_get_image.

(** *** [api_get_image.js], second part: the label search *)
Module api_get_images_with_label.

(** The [finally] block ends [dbConn] after every attempt. *)
Definition fetch_images (coll : Collation) (label : string) : M (list LabelRow) :=
  let pattern := ("%" ++ label ++ "%")%string in
  finally_ignoring
    (try_catch (execute_select_like coll pattern) rethrow)
    dbConn_end.

(** The [try] block of [get_images_with_label]; [params_label] is
    [request.params.label]. *)
Definition try_block (coll : Collation) (params_label : string)
  : M (list LabelRow) :=
  let label := params_label in
  pRetry 2 (fetch_images coll label).

Definition get_images_with_label (coll : Collation) (params_label : string)
  : Handler :=
  fun w =>
    match get_dbConn w with
    | (Throw _, w0) => (None, w0)
    | (Ok _, w0) =>
        match try_block coll params_label w0 with
        | (Ok rows, w1) =>
            (Some (200, JObj [("message", JStr "success");
                              ("data", JArr (map labelled_json rows))]), w1)
        | (Throw err, w1) =>
            (Some (500, JObj [("message", JStr (message err));
                              ("data", JArr [])]), w1)
        end
    end.

End api_get_images_with_label.

(** *** [api_get_image_labels.js] *)
Module api_get_image_labels.

(** [assetid] is the result of [parseInt], NaN included. *)
Definition validate_assetid (assetid : option Z) : M unit :=
  try_catch
    (rows <- execute_select_assetid assetid ;;
     match rows with
     | [] => throw (new_Error "no such assetid")
     | [_] => ret tt
     | _ :: _ :: _ => throw (new_Error "unexpected duplicate assetid")
     end)
    rethrow.

(** [parseInt( row[ 'confidence' ] )] is the stored integer itself. *)
Definition fetch_labels (coll : Collation) (assetid : option Z) : M (list Json) :=
  try_catch
    (rows <- execute_select_labels coll assetid ;;
     ret (map label_json rows))
    rethrow.

Definition try_block (coll : Collation) (params_assetid : string) : M (list Json) :=
  let assetid := parseInt params_assetid in
  pRetry 2 (validate_assetid assetid) ;;;
  pRetry 2 (fetch_labels coll assetid).

(** There is no [finally] block here: the handler never calls
    [dbConn.end()]. *)
Definition get_image_labels (coll : Collation) (params_assetid : string)
  : Handler :=
  fun w =>
    match get_dbConn w with
    | (Throw _, w0) => (None, w0)
    | (Ok _, w0) =>
        match try_block coll params_assetid w0 with
        | (Ok records, w1) =>
            (Some (200, JObj [("message", JStr "success");
                              ("data", JArr records)]), w1)
        | (Throw err, w1) =>
            (Some (500, JObj [("message", JStr (message err));
                              ("data", JArr [])]), w1)
        end
    end.

End api_get_image_labels.

(** *** [api_get_images.js] *)
Module api_get_images.

(** The WHERE clause is added when [userid >= 0]; the parameter list is
    [userid ? [ userid, ] : []], and zero is falsy. *)
Definition try_get_images (userid : Z) : M (list AssetRow) :=
  finally_ignoring
    (try_catch
       (get_dbConn ;;;
        execute_select_assets (0 <=? userid)
          (if userid =? 0 then [] else [userid]))
       rethrow)
    dbConn_end.

(** [request.query.userid] is absent or a text; the empty text is falsy. *)
Definition try_block (query_userid : option string) : M (list AssetRow) :=
  let userid :=
    match query_userid with
    | None => Some (-1)
    | Some EmptyString => Some (-1)
    | Some s => parseInt s
    end in
  match userid with
  | None => throw (new_Error "get_images(): userid is not numeric")
  | Some userid => pRetry 2 (try_get_images userid)
  end.

(** [let dbConn;]: the handler starts with an undefined variable. *)
Definition get_images (query_userid : option string) : Handler :=
  fun w =>
    match try_block query_userid (set_dbConn Undefined w) with
    | (Ok rows, w1) =>
        (Some (200, JObj [("message", JStr "success");
                          ("data", JArr (map asset_json rows))]), w1)
    | (Throw err, w1) =>
        (Some (500, JObj [("message", JStr (message err));
                          ("data", JArr [])]), w1)
    end.

End api_get_images.

(** *** [api_delete_images.js] *)
Module api_delete_images.

Definition get_keys : M (list string) :=
  try_catch
    (rows <- query_select_bucketkeys ;;
     ret (map bucketkey rows))
    rethrow.

Definition delete_sql : list Sql :=
  [SetForeignKeyChecks false; TruncateLabels; TruncateAssets;
   SetForeignKeyChecks true; AlterAutoIncrement 1001].

Definition clear_db : M unit :=
  beginTransaction ;;;
  try_catch
    (for_of delete_sql execute_clause ;;;
     commit)
    (fun err => rollback ;;; throw err).

Definition clear_bkt (keydict : list string) : M unit :=
  try_catch (delete_objects keydict) rethrow.

Definition try_block : M unit :=
  keys <- pRetry 2 get_keys ;;
  let keydict := keys in
  clear_db ;;;
  match keydict with
  | [] => ret tt
  | _ :: _ => clear_bkt keydict
  end.

Definition delete_images : Handler :=
  fun w =>
    match get_dbConn w with
    | (Throw _, w0) => (None, w0)
    | (Ok _, w0) =>
        match try_block w0 with
        | (settled, w1) =>
            let response :=
              match settled with
              | Ok _ => (200, JObj [("message", JStr "success")])
              | Throw err => (500, JObj [("message", JStr (message err))])
              end in
            (Some response, snd (dbConn_end w1))
        end
    end.

End api_delete_images.

(** ** Reading the log and the tables *)

(** The asset ids that the commits of [d] made durable. *)
Definition durable_ids (d : list Event) : list Z :=
  flat_map (fun e => match e with
                     | mkEvent (CCommit ids) None => ids
                     | _ => []
                     end) d.

(** The successful commits of [d], each with the asset ids it made durable. *)
Definition commits (d : list Event) : list (list Z) :=
  flat_map (fun e => match e with
                     | mkEvent (CCommit ids) None => [ids]
                     | _ => []
                     end) d.

(** The asset ids of the label rows whose INSERT was sent in [d]. *)
Definition label_inserts (d : list Event) : list Z :=
  flat_map (fun e => match call e with
                     | CExecute (InsertLabel a _ _) => [a]
                     | _ => []
                     end) d.

(** How the detector commands of [d] ended. *)
Definition detections (d : list Event) : list (option string) :=
  flat_map (fun e => match call e with
                     | CDetectLabels _ _ => [failure e]
                     | _ => []
                     end) d.

(** How the bucket deletions of [d] ended. *)
Definition deletions (d : list Event) : list (option string) :=
  flat_map (fun e => match call e with
                     | CDeleteObjects _ => [failure e]
                     | _ => []
                     end) d.

(** The statements and bucket commands of [d]: every call but the opening
    and the closing of the connection. *)
Definition commands (d : list Event) : list Event :=
  filter (fun e => match call e with
                   | CConnect | CEnd => false
                   | _ => true
                   end) d.

(** How many connections [d] opened, and how many it ended. *)
Definition connects (d : list Event) : nat :=
  List.length (filter (fun e => match e with
                                | mkEvent CConnect None => true
                                | _ => false
                                end) d).

Definition ends (d : list Event) : nat :=
  List.length (filter (fun e => match call e with
                                | CEnd => true
                                | _ => false
                                end) d).

(** The messages of the calls of [d] that failed. *)
Definition failures (d : list Event) : list string :=
  flat_map (fun e => match failure e with
                     | Some msg => [msg]
                     | None => []
                     end) d.

(** The keys of the objects that [d] stored in the bucket. *)
Definition puts (d : list Event) : list string :=
  flat_map (fun e => match e with
                     | mkEvent (CPutObject key) None => [key]
                     | _ => []
                     end) d.

(** The database serves the next [n] calls. *)
Fixpoint serves (n : nat) (faults : list (option string)) : Prop :=
  match n with
  | O => True
  | S k => hd None faults = None /\ serves k (tl faults)
  end.

(** The row [update_labels] writes for a detected label. *)
Definition to_label_row (aid : Z) (l : RkgLabel) : LabelRow :=
  mkLabel aid (Name l) (Qfloor (Confidence l)).

(** Every id in the tables was handed out by the AUTO_INCREMENT counter. *)
Definition ids_below (w : World) : Prop :=
  (forall r, In r (assets w) -> assetid r < auto_increment w) /\
  (forall l, In l (labels w) -> l_assetid l < auto_increment w).

(** [v] holds the same tables and the same bucket as [w]. *)
Definition same_store (v w : World) : Prop :=
  users v = users w /\ assets v = assets w /\ labels v = labels w /\
  bucket v = bucket w.

(** From [w] to [v] the session logged [d], appended the rows [na] to the
    assets and the rows [nl] to the labels, and left no transaction open. *)
Definition run (w v : World) (d : list Event) (na : list AssetRow)
    (nl : list LabelRow) : Prop :=
  log v = log w ++ d /\ assets v = assets w ++ na /\ labels v = labels w ++ nl /\
  users v = users w /\ bucket v = bucket w /\ txn v = None /\
  auto_increment w <= auto_increment v.

(** Calls that committed no asset, sent no label and asked no detection. *)
Definition silent (d : list Event) : Prop :=
  durable_ids d = [] /\ label_inserts d = [] /\ detections d = [].

(** Whether a handle is an open connection. *)
Definition is_live (h : Handle) : bool :=
  match h with
  | Live _ => true
  | _ => false
  end.

(** An open transaction has a live connection. *)
Definition guarded (w : World) : Prop :=
  txn w = None \/ exists l, dbConn w = Live l.

(** The order of [Order By label Asc]. *)
Definition label_le (coll : Collation) (r1 r2 : LabelRow) : Prop :=
  text_leb coll (label r1) (label r2) = true.

(** Of two texts, the collation puts one before the other or the other
    before the one. *)
Definition text_total (coll : Collation) : Prop :=
  forall s t, text_leb coll s t = true \/ text_leb coll t s = true.

(** ** Words in the text of a label *)






Definition asset_le (r1 r2 : AssetRow) : Prop := assetid r1 <= assetid r2.

(** ** What a unit of work leaves behind *)

(** From [w] to [v] the tables, the bucket and the id counter are the
    same. *)
Definition unchanged (w v : World) : Prop :=
  same_store v w /\ auto_increment v = auto_increment w.

(** No constraint between two worlds. *)
Definition anything (w v : World) : Prop := True.

(** A unit of work takes the world [w] to a world related to it by [R],
    and every call it logs satisfies [P]. *)
Definition footprint {A : Type} (R : World -> World -> Prop) (P : Call -> Prop)
    (m : M A) : Prop :=
  forall w r w', m w = (r, w') ->
    R w w' /\ exists d, log w' = log w ++ d /\ Forall (fun e => P (call e)) d.

(** A unit of work that throws nothing but plain [Error]s. *)
Definition server_errors {A : Type} (m : M A) : Prop :=
  forall w e w', m w = (Throw e, w') -> err_class e = Error.

(** The calls other than the storing of an object. *)
Definition not_put (c : Call) : Prop :=
  match c with CPutObject _ => False | _ => True end.

(** The calls that change neither a table nor the bucket. *)
Definition reading (c : Call) : bool :=
  match c with
  | CConnect | CEnd | CGetObject _ => true
  | CExecute q =>
      match q with
      | SelectUsername _ | SelectAssetId _ | SelectLabels _ | SelectAssetRow _
      | SelectAssets _ _ | SelectBucketKeys | SelectLabelsLike _ => true
      | _ => false
      end
  | _ => false
  end.

(** A handler that, run from [w], leaves the tables, the bucket and the id
    counter as they are and logs only calls that read. *)
Definition reads (h : Handler) (w : World) : Prop :=
  unchanged w (snd (h w)) /\
  exists d, log (snd (h w)) = log w ++ d /\
            Forall (fun e => reading (call e) = true) d.

Definition reading_call (c : Call) : Prop := reading c = true.

(** ** A sample deployment *)

(** One user, empty tables, and a detector that sees a cat. *)
Definition sample_world : World :=
  mkWorld [mkUser 80001 "p_sarkar"] [] [] 1001 None Undefined [] [] []
    [Detected [mkRkg "Cat" (995 # 10); mkRkg "Animal" (91 # 1);
               mkRkg "Dog" (50 # 1)]]
    ["u1"] [].

Definition sample_upload : api_post_image.Request :=
  api_post_image.mkRequest 80001 "cat.jpg" "QUJD".

(** A gallery with one asset, its two labels and its object. *)
Definition sample_gallery : World :=
  mkWorld [mkUser 80001 "p_sarkar"]
    [mkAsset 1001 80001 "cat.jpg" "p_sarkar/u1-cat.jpg"]
    [mkLabel 1001 "Cat" 99; mkLabel 1001 "Animal" 91]
    1002 None Undefined
    [("p_sarkar/u1-cat.jpg", Buffer_from "QUJD")] [] [] [] [] [].

(** The same gallery with one more object in the bucket, to which no asset
    row refers. *)
Definition sample_bucket : World :=
  set_bucket [("p_sarkar/u1-cat.jpg", Buffer_from "QUJD");
              ("backup/readme.txt", Buffer_from "aGk=")] sample_gallery.

(** * Properties *)

(** ** Tools *)

(** Symbolic execution of one external call on an explicit world. *)
Ltac world w := destruct w as [us ass lbs ai tx dc bk df sf rk uu lg].

Ltac reduce_world E :=
  cbv beta iota zeta delta
    [charge dbConn_end record hang_up flush pending_assetids write_asset
     write_label set_assets set_labels set_auto_increment set_txn set_dbConn
     set_bucket set_db_faults set_s3_faults set_rkg_script set_uuids set_log
     users assets labels auto_increment txn dbConn bucket db_faults s3_faults
     rkg_script uuids log fst snd] in E;
  cbn [hd tl] in E.

Ltac split_stuck E :=
  match type of E with
  | context [match ?t with _ => _ end] =>
      match goal with Hq : t = _ |- _ => rewrite Hq in E end
  | context [match hd ?x ?l with _ => _ end] =>
      first [ match goal with Hq : hd x l = _ |- _ => rewrite Hq in E end
            | let Q := fresh "Hnext" in destruct (hd x l) eqn:Q ]
  | context [match ?x with _ => _ end] => is_var x; destruct x
  end.

Ltac unfold_call E :=
  cbv beta delta
    [beginTransaction commit rollback execute_insert_asset execute_insert_label
     execute_select_username execute_select_assetid execute_select_asset_row
     execute_select_labels execute_select_assets query_select_bucketkeys
     execute_clause execute_select_like db_call get_dbConn put_object
     get_object delete_objects bkt_send rkg_send uuidv4] in E.

Ltac exec H :=
  match type of H with
  | context [match ?p (mkWorld ?a ?b ?c ?d ?e ?f ?g ?h ?i ?j ?k ?l) with _ => _ end] =>
      let E := fresh "E" in
      let rr := fresh "r" in
      let ww := fresh "w" in
      destruct (p (mkWorld a b c d e f g h i j k l)) as [rr ww] eqn:E;
      unfold_call E; reduce_world E;
      repeat (split_stuck E; reduce_world E);
      injection E as <- <-; cbv beta iota in H
  end.

Ltac unfold_control H :=
  cbv beta delta [bind try_catch finally_ignoring rethrow throw ret] in H.

Ltac finish H :=
  injection H as <- <-;
  cbn [users assets labels auto_increment txn dbConn bucket log].

Ltac log_delta :=
  rewrite <- ?app_assoc; cbn [app]; eexists; split; [reflexivity|].

Ltac run_delta :=
  unfold run; cbn [users assets labels auto_increment txn dbConn bucket log];
  rewrite <- ?app_assoc; cbn [app]; eexists; split; [split; [reflexivity|]|].

Ltac log_facts :=
  unfold durable_ids, commits, label_inserts, detections, deletions in *;
  cbn [flat_map call failure app]; rewrite ?flat_map_app;
  cbn [flat_map call failure app].

Lemma durable_ids_app d1 d2 : durable_ids (d1 ++ d2) = durable_ids d1 ++ durable_ids d2.
Proof. apply flat_map_app. Qed.

Lemma commits_app d1 d2 : commits (d1 ++ d2) = commits d1 ++ commits d2.
Proof. apply flat_map_app. Qed.

Lemma label_inserts_app d1 d2 :
  label_inserts (d1 ++ d2) = label_inserts d1 ++ label_inserts d2.
Proof. apply flat_map_app. Qed.

Lemma detections_app d1 d2 : detections (d1 ++ d2) = detections d1 ++ detections d2.
Proof. apply flat_map_app. Qed.

Lemma deletions_app d1 d2 : deletions (d1 ++ d2) = deletions d1 ++ deletions d2.
Proof. apply flat_map_app. Qed.

(** The retry loop keeps an invariant that every failed attempt keeps, and
    ends in what the successful attempt establishes. *)
Lemma pRetry_inv {A : Type} (op : M A) (I : World -> Prop)
    (Q : A -> World -> Prop) (F : JsError -> World -> Prop) :
  (forall w r w', op w = (r, w') -> I w ->
     match r with Ok a => Q a w' | Throw e => I w' /\ F e w' end) ->
  forall n w r w', pRetry n op w = (r, w') -> I w ->
     match r with Ok a => Q a w' | Throw e => I w' /\ F e w' end.
Proof.
  intros Hop n. induction n as [|n IH]; intros w r w' H HI; cbn in H.
  - destruct (op w) as [[a|e] w1] eqn:E.
    + injection H as <- <-. exact (Hop _ _ _ E HI).
    + injection H as <- <-. exact (Hop _ _ _ E HI).
  - destruct (op w) as [[a|e] w1] eqn:E.
    + injection H as <- <-. exact (Hop _ _ _ E HI).
    + apply (IH _ _ _ H). exact (proj1 (Hop _ _ _ E HI)).
Qed.

Lemma run_refl w : txn w = None -> run w w [] [] [].
Proof.
  intros Ht. unfold run. rewrite !app_nil_r. repeat split; auto. lia.
Qed.

Lemma run_trans w v u d1 d2 na1 na2 nl1 nl2 :
  run w v d1 na1 nl1 -> run v u d2 na2 nl2 ->
  run w u (d1 ++ d2) (na1 ++ na2) (nl1 ++ nl2).
Proof.
  unfold run. intros (L1 & A1 & B1 & U1 & K1 & T1 & I1) (L2 & A2 & B2 & U2 & K2 & T2 & I2).
  rewrite L2, L1, A2, A1, B2, B1, U2, U1, K2, K1, !app_assoc.
  repeat split; auto. lia.
Qed.

Lemma silent_nil : silent [].
Proof. repeat split. Qed.

Lemma silent_app d1 d2 : silent d1 -> silent d2 -> silent (d1 ++ d2).
Proof.
  unfold silent. intros (A1 & B1 & C1) (A2 & B2 & C2).
  rewrite durable_ids_app, label_inserts_app, detections_app.
  rewrite A1, A2, B1, B2, C1, C2. auto.
Qed.

(** ** Validating the owner *)

Lemma lookup_user_spec uid w r w' :
  api_post_image.lookup_user uid w = (r, w') -> txn w = None ->
  rkg_script w' = rkg_script w /\
  (filter (fun u => u_userid u =? uid) (users w) = [] -> exists e, r = Throw e) /\
  exists d, run w w' d [] [] /\ silent d.
Proof.
  intros H Ht. world w. cbn in Ht. subst tx.
  cbv beta delta [api_post_image.lookup_user] in H. unfold_control H.
  exec H.
  all: try (destruct (filter _ us) as [|? [|? ?]] eqn:Hrows).
  all: finish H; split; [reflexivity|].
  all: split; [intros Hnone; cbn [users] in Hnone;
              first [ eexists; reflexivity
                    | rewrite Hrows in Hnone; discriminate Hnone ] |].
  all: run_delta.
  all: rewrite ?app_nil_r; repeat split; auto; lia.
Qed.

Lemma lookup_phase_spec uid w r w' :
  pRetry 2 (api_post_image.lookup_user uid) w = (r, w') -> txn w = None ->
  rkg_script w' = rkg_script w /\
  (filter (fun u => u_userid u =? uid) (users w) = [] -> exists e, r = Throw e) /\
  exists d, run w w' d [] [] /\ silent d.
Proof.
  intros H Ht.
  pose (Keep := fun v : World =>
    rkg_script v = rkg_script w /\ exists d, run w v d [] [] /\ silent d).
  pose (Found := fun (_ : string) (v : World) =>
    Keep v /\ filter (fun u => u_userid u =? uid) (users w) <> []).
  assert (Hstep : forall v r1 v', api_post_image.lookup_user uid v = (r1, v') ->
            Keep v -> match r1 with Ok a => Found a v' | Throw _ => Keep v' /\ True end).
  { intros v r1 v' E (Hk & d & Hrun & Hd).
    assert (Ht1 : txn v = None) by apply Hrun.
    destruct (@lookup_user_spec _ _ _ _ E Ht1) as (Hk1 & Hno & d1 & Hrun1 & Hd1).
    pose proof (run_trans Hrun Hrun1) as R. cbn [app] in R.
    assert (K : Keep v').
    { split; [congruence|].
      exists (d ++ d1); split; [exact R | apply silent_app; auto]. }
    destruct r1 as [name|e]; [|auto]. split; [exact K|].
    intros Hnone. destruct Hrun as (_ & _ & _ & Hu & _).
    rewrite Hu in Hno. destruct (Hno Hnone) as (e & He). discriminate He. }
  assert (HI : Keep w).
  { split; [reflexivity|].
    exists []; split; [apply run_refl; auto | apply silent_nil]. }
  pose proof (@pRetry_inv _ _ Keep Found (fun _ _ => True) Hstep 2 _ _ _ H HI) as R.
  destruct r as [name|e].
  - destruct R as ((Hk & K) & Hsome). split; [exact Hk|]. split; [|exact K].
    intros Hnone. contradiction.
  - destruct R as ((Hk & K) & _). split; [exact Hk|]. split; [|exact K].
    intros _. exists e. reflexivity.
Qed.

(** ** Storing the object *)

Lemma upload_to_bucket_spec name lf img w r w' :
  api_post_image.upload_to_bucket name lf img w = (r, w') ->
  exists d, log w' = log w ++ d /\ silent d /\
    users w' = users w /\ assets w' = assets w /\ labels w' = labels w /\
    txn w' = txn w /\ auto_increment w' = auto_increment w /\
    rkg_script w' = rkg_script w /\
    match r with
    | Ok key => lookup_key key (bucket w') = Some img
    | Throw _ => bucket w' = bucket w
    end.
Proof.
  intros H. world w.
  cbv beta delta [api_post_image.upload_to_bucket] in H. unfold_control H.
  repeat exec H.
  all: finish H; log_delta.
  all: repeat split; auto.
  unfold lookup_key. cbn [find fst]. rewrite String.eqb_refl. reflexivity.
Qed.

(** ** Registering the asset *)

(** One attempt of [update_db], from a session without open transaction:
    the attempt either appends the new row and logs its commit, or leaves
    the tables as they were. *)
Lemma update_db_spec uid lf key w r w' :
  api_post_image.update_db uid lf key w = (r, w') -> txn w = None ->
  exists d,
    run w w' d (match r with Ok a => [mkAsset a uid lf key] | Throw _ => [] end) [] /\
    label_inserts d = [] /\ detections d = [] /\
    durable_ids d = match r with Ok a => [a] | Throw _ => [] end /\
    match r with Ok a => auto_increment w <= a | Throw _ => True end.
Proof.
  intros H Ht. world w. cbn in Ht. subst tx.
  cbv beta delta [api_post_image.update_db] in H. unfold_control H.
  repeat exec H.
  all: finish H; run_delta.
  all: rewrite ?app_nil_r; repeat split; auto; lia.
Qed.

(** The same for the three attempts that [pRetry] makes. *)
Lemma register_spec uid lf key w r w' :
  pRetry 2 (api_post_image.update_db uid lf key) w = (r, w') -> txn w = None ->
  exists d,
    run w w' d (match r with Ok a => [mkAsset a uid lf key] | Throw _ => [] end) [] /\
    label_inserts d = [] /\ detections d = [] /\
    durable_ids d = match r with Ok a => [a] | Throw _ => [] end /\
    match r with Ok a => auto_increment w <= a | Throw _ => True end.
Proof.
  intros H Ht.
  pose (Keep := fun v : World => exists d, run w v d [] [] /\ silent d).
  pose (Done := fun (a : Z) (v : World) =>
    exists d, run w v d [mkAsset a uid lf key] [] /\ label_inserts d = [] /\
              detections d = [] /\ durable_ids d = [a] /\ auto_increment w <= a).
  assert (Hstep : forall v r1 v', api_post_image.update_db uid lf key v = (r1, v') ->
            Keep v -> match r1 with Ok a => Done a v' | Throw e => Keep v' /\ True end).
  { intros v r1 v' E (d & Hrun & Hd & Hli & Hde).
    assert (Ht1 : txn v = None) by apply Hrun.
    destruct (@update_db_spec _ _ _ _ _ _ E Ht1) as (d1 & Hrun1 & Hli1 & Hde1 & Hdu1 & Hb).
    pose proof (run_trans Hrun Hrun1) as R. cbn [app] in R.
    destruct r1 as [a|e]; cbn beta iota in *.
    - exists (d ++ d1). split; [exact R|].
      rewrite label_inserts_app, detections_app, durable_ids_app.
      rewrite Hd, Hli, Hde, Hli1, Hde1, Hdu1. repeat split; auto.
      destruct Hrun as (_ & _ & _ & _ & _ & _ & Hai). lia.
    - split; [|exact I]. exists (d ++ d1). split; [exact R|].
      apply silent_app; repeat split; auto. }
  assert (HI : Keep w) by (exists []; split; [apply run_refl; auto | apply silent_nil]).
  pose proof (@pRetry_inv _ _ Keep Done (fun _ _ => True) Hstep 2 _ _ _ H HI) as R.
  destruct r as [a|e].
  - destruct R as (d & Hrun & Hli & Hde & Hdu & Hb). exists d. auto.
  - destruct R as ((d & Hrun & Hd & Hli & Hde) & _). exists d. auto.
Qed.
(** ** The fan-out *)

Lemma rekognition_bounds max_labels min_confidence candidates :
  (List.length (rekognition max_labels min_confidence candidates) <= max_labels)%nat /\
  Forall (fun l => (min_confidence <= Confidence l)%Q)
    (rekognition max_labels min_confidence candidates).
Proof.
  unfold rekognition. split.
  - apply firstn_le_length.
  - apply Forall_forall. intros l Hin.
    assert (Hf : In l (filter (fun l => Qle_bool min_confidence (Confidence l)) candidates)).
    { rewrite <- (firstn_skipn max_labels). apply in_or_app. left. exact Hin. }
    apply filter_In in Hf. apply Qle_bool_iff. apply Hf.
Qed.

Lemma run_settle_lease w v d na nl :
  run w v d na nl -> run w (api_post_image.settle_lease v) d na nl.
Proof.
  unfold run, api_post_image.settle_lease. intros R.
  destruct (dbConn v); exact R.
Qed.

Lemma run_prefix w0 w1 v d0 d na nl :
  log w1 = log w0 ++ d0 -> assets w1 = assets w0 -> labels w1 = labels w0 ->
  users w1 = users w0 -> bucket w1 = bucket w0 ->
  auto_increment w1 = auto_increment w0 ->
  run w1 v d na nl -> run w0 v (d0 ++ d) na nl.
Proof.
  unfold run. intros L A B U K I (L1 & A1 & B1 & U1 & K1 & T1 & I1).
  rewrite L1, L, A1, A, B1, B, U1, U, K1, K, app_assoc, <- I. auto 10.
Qed.

Lemma fan_out_spec uid lf key img w r w' :
  api_post_image.fan_out uid lf key img w = (r, w') -> txn w = None ->
  exists d,
    label_inserts d = [] /\
    match r with
    | Ok (a, found) =>
        run w w' d [mkAsset a uid lf key] [] /\ durable_ids d = [a] /\
        detections d = [None] /\ auto_increment w <= a /\
        exists candidates,
          hd (Detected []) (rkg_script w) = Detected candidates /\
          found = rekognition api_post_image.MaxLabels
                    api_post_image.MinConfidence candidates
    | Throw e =>
        (run w w' d [] [] /\ durable_ids d = []) \/
        (exists a msg,
            run w w' d [mkAsset a uid lf key] [] /\ durable_ids d = [a] /\
            detections d = [Some msg] /\ e = new_Error msg /\
            auto_increment w <= a)
    end.
Proof.
  intros H Ht. world w. cbn in Ht. subst tx.
  cbv beta zeta delta [api_post_image.fan_out api_post_image.detect_labels] in H.
  unfold_control H. exec H.
  - (* the detector answered *)
    destruct (pRetry 2 _ _) as [[a|e] w2] eqn:E; injection H as <- <-;
      apply register_spec in E; try reflexivity;
      destruct E as (d & Hrun & Hli & Hde & Hdu & Hb);
      apply (@run_prefix (mkWorld us ass lbs ai None dc bk df sf rk uu lg) _ _
               [mkEvent (CDetectLabels api_post_image.MaxLabels
                           api_post_image.MinConfidence) None]) in Hrun;
      try reflexivity;
      exists ([mkEvent (CDetectLabels api_post_image.MaxLabels
                          api_post_image.MinConfidence) None] ++ d);
      rewrite label_inserts_app, durable_ids_app, ?detections_app, Hli, Hdu, ?Hde.
    + split; [reflexivity|]. split; [exact Hrun|]. split; [reflexivity|].
      split; [reflexivity|]. split; [exact Hb|].
      exists candidates. split; [exact Hnext | reflexivity].
    + split; [reflexivity|]. left. split; [exact Hrun | reflexivity].
  - (* the detector failed *)
    destruct (pRetry 2 _ _) as [settled w2] eqn:E. injection H as <- <-.
    apply register_spec in E; [|destruct dc; reflexivity].
    destruct E as (d & Hrun & Hli & Hde & Hdu & Hb).
    apply (@run_prefix (mkWorld us ass lbs ai None dc bk df sf rk uu lg) _ _
             [mkEvent (CDetectLabels api_post_image.MaxLabels
                         api_post_image.MinConfidence) (Some msg)]) in Hrun;
      try (destruct dc; reflexivity).
    apply run_settle_lease in Hrun.
    exists ([mkEvent (CDetectLabels api_post_image.MaxLabels
                        api_post_image.MinConfidence) (Some msg)] ++ d).
    rewrite label_inserts_app, durable_ids_app, ?detections_app, Hli, Hdu, ?Hde.
    split; [reflexivity|].
    destruct settled as [a|e].
    + assert (Hr : match dbConn w2 with Expired => Throw (new_Error msg) | _ => Throw (new_Error msg) end
                   = (Throw (new_Error msg) : Result (Z * list RkgLabel)))
        by (destruct (dbConn w2); reflexivity).
      rewrite Hr. right. exists a, msg.
      split; [exact Hrun|]. split; [reflexivity|]. split; [reflexivity|].
      split; [reflexivity|]. destruct dc; exact Hb.
    + destruct (dbConn w2); left; (split; [exact Hrun | reflexivity]).
Qed.

(** ** Persisting the labels *)

Lemma durable_ids_commits d : durable_ids d = List.concat (commits d).
Proof.
  unfold durable_ids, commits.
  induction d as [|[c o] d IH]; cbn [flat_map]; [reflexivity|].
  rewrite concat_app, <- IH. f_equal.
  destruct c; try reflexivity. destruct o; cbn; rewrite ?app_nil_r; reflexivity.
Qed.

(** The loop of [update_labels], inside its transaction: the rows stay
    pending, and nothing durable changes. *)
Lemma insert_labels_spec aid ls : forall w r w' pl,
  for_of ls
    (fun label =>
       execute_insert_label aid (Name label) (Qfloor (Confidence label))) w
  = (r, w') ->
  txn w = Some ([], pl) -> guarded w ->
  exists d, log w' = log w ++ d /\
    commits d = [] /\ Forall (eq aid) (label_inserts d) /\ detections d = [] /\
    users w' = users w /\ assets w' = assets w /\ labels w' = labels w /\
    bucket w' = bucket w /\ auto_increment w' = auto_increment w /\
    guarded w' /\
    match r with
    | Ok _ => txn w' = Some ([], pl ++ map (to_label_row aid) ls)
    | Throw _ => True
    end.
Proof.
  induction ls as [|l ls IH]; intros w r w' pl H Ht Hg.
  - cbn in H. injection H as <- <-. exists []. rewrite !app_nil_r.
    repeat split; auto.
  - world w. cbn in Ht. subst tx.
    cbn [for_of] in H. unfold_control H. exec H.
    all: try (finish H; log_delta; unfold guarded; cbn [txn dbConn];
              repeat split; auto; try (constructor; auto); eauto; fail).
    all: try (destruct Hg as [Hg|[? Hg]]; discriminate Hg).
    all: apply IH with (pl := pl ++ [to_label_row aid l]) in H;
         [| reflexivity | right; eexists; reflexivity ].
    all: destruct H as (d & Hlog & Hdu & Hli & Hde & Hu & Ha & Hl & Hb & Hai & Hg' & Hr).
    all: cbn [users assets labels auto_increment txn dbConn bucket log] in *.
    all: exists ([mkEvent (CExecute (InsertLabel aid (Name l) (Qfloor (Confidence l)))) None] ++ d).
    all: rewrite commits_app, label_inserts_app, detections_app, Hdu, Hde.
    all: rewrite Hlog, <- app_assoc.
    all: repeat split; auto; try (constructor; auto).
    all: destruct r; auto; rewrite Hr, <- app_assoc; reflexivity.
Qed.

(** One attempt of [update_labels], from a session without open
    transaction: either every row of the batch is committed, or none is. *)
Lemma update_labels_spec aid ls w r w' :
  api_post_image.update_labels aid ls w = (r, w') -> txn w = None ->
  exists d,
    run w w' d [] (match r with
                   | Ok _ => map (to_label_row aid) ls
                   | Throw _ => []
                   end) /\
    commits d = match r with Ok _ => [[]] | Throw _ => [] end /\
    Forall (eq aid) (label_inserts d) /\ detections d = [].
Proof.
  intros H Ht. world w. cbn in Ht. subst tx.
  cbv beta delta [api_post_image.update_labels] in H. unfold_control H.
  exec H.
  all: try (finish H; run_delta; rewrite ?app_nil_r; repeat split; auto; try lia;
            constructor; fail).
  all: destruct (for_of ls _ _) as [[[]|e] w2] eqn:E;
       apply insert_labels_spec with (pl := []) in E;
       [| reflexivity | right; eexists; reflexivity
        | | reflexivity | right; eexists; reflexivity ].
  all: destruct E as (d & Hlog & Hdu & Hli & Hde & Hu & Ha & Hl & Hb & Hai & Hg & Hr).
  all: destruct w2 as [us2 ass2 lbs2 ai2 tx2 dc2 bk2 df2 sf2 rk2 uu2 lg2].
  all: cbn [users assets labels auto_increment txn dbConn bucket log app] in *.
  all: subst us2 ass2 lbs2 ai2 bk2 lg2; try subst tx2.
  all: repeat exec H.
  all: finish H; run_delta.
  all: try (destruct Hg as [Hg|[? Hg]]; [try subst tx2| try discriminate Hg]).
  all: log_facts; rewrite ?Hdu, ?Hde, ?app_nil_r; cbn [app].
  all: try (repeat split; auto; try lia; fail).
Qed.

(** On a live connection whose commands the database serves, the loop of
    [update_labels] runs to its end. *)
Lemma insert_labels_served aid ls : forall k w,
  dbConn w = Live None -> serves (List.length ls + k) (db_faults w) ->
  exists w',
    for_of ls
      (fun label =>
         execute_insert_label aid (Name label) (Qfloor (Confidence label))) w
    = (Ok tt, w') /\
    dbConn w' = Live None /\ serves k (db_faults w').
Proof.
  induction ls as [|l ls IH]; intros k w Hc Hs.
  - exists w. split; [reflexivity|]. split; [exact Hc | exact Hs].
  - world w. cbn [dbConn db_faults] in Hc, Hs. subst dc.
    destruct Hs as (S1 & Hs).
    cbn [for_of]. unfold bind at 1.
    destruct (execute_insert_label _ _ _ _) as [r1 w1] eqn:E.
    unfold_call E. reduce_world E. rewrite S1 in E.
    destruct tx as [[pa pl]|]; reduce_world E; injection E as <- <-;
      (apply IH; [reflexivity | exact Hs]).
Qed.

(** One attempt of [update_labels] that the database serves (BEGIN, the
    INSERTs and COMMIT) returns. *)
Lemma update_labels_served aid ls w :
  dbConn w = Live None -> serves (2 + List.length ls) (db_faults w) ->
  fst (api_post_image.update_labels aid ls w) = Ok tt.
Proof.
  intros Hc Hs. world w. cbn [dbConn db_faults] in Hc, Hs. subst dc.
  destruct Hs as (S1 & Hs).
  destruct (api_post_image.update_labels aid ls _) as [r w'] eqn:H.
  cbv beta zeta delta [api_post_image.update_labels] in H. unfold_control H.
  exec H.
  all: match type of H with
       | context [for_of _ ?body ?v] =>
           destruct (@insert_labels_served aid ls 1 v eq_refl) as (w2 & E & Hc2 & S2 & _);
           [rewrite Nat.add_comm; exact Hs|]; rewrite E in H
       end.
  all: destruct w2 as [us2 ass2 lbs2 ai2 tx2 dc2 bk2 df2 sf2 rk2 uu2 lg2];
       cbn [dbConn db_faults] in Hc2, S2; subst dc2.
  all: exec H; injection H as <- _; reflexivity.
Qed.

(** The same for the three attempts that [pRetry] makes. *)
Lemma label_phase_spec aid ls w r w' :
  pRetry 2 (api_post_image.update_labels aid ls) w = (r, w') -> txn w = None ->
  exists d,
    run w w' d [] (match r with
                   | Ok _ => map (to_label_row aid) ls
                   | Throw _ => []
                   end) /\
    durable_ids d = [] /\ Forall (eq aid) (label_inserts d) /\ detections d = [].
Proof.
  intros H Ht.
  pose (Keep := fun v : World =>
    exists d, run w v d [] [] /\ durable_ids d = [] /\
              Forall (eq aid) (label_inserts d) /\ detections d = []).
  pose (Done := fun (_ : unit) (v : World) =>
    exists d, run w v d [] (map (to_label_row aid) ls) /\ durable_ids d = [] /\
              Forall (eq aid) (label_inserts d) /\ detections d = []).
  assert (Hstep : forall v r1 v', api_post_image.update_labels aid ls v = (r1, v') ->
            Keep v -> match r1 with Ok a => Done a v' | Throw e => Keep v' /\ True end).
  { intros v r1 v' E (d & Hrun & Hdu & Hli & Hde).
    assert (Ht1 : txn v = None) by apply Hrun.
    destruct (@update_labels_spec _ _ _ _ _ E Ht1) as (d1 & Hrun1 & Hco1 & Hli1 & Hde1).
    assert (Hdu1 : durable_ids d1 = []).
    { rewrite (durable_ids_commits d1), Hco1. destruct r1; reflexivity. }
    pose proof (run_trans Hrun Hrun1) as R. cbn [app] in R.
    assert (F : durable_ids (d ++ d1) = [] /\
                Forall (eq aid) (label_inserts (d ++ d1)) /\
                detections (d ++ d1) = []).
    { rewrite durable_ids_app, label_inserts_app, detections_app, Hdu, Hdu1, Hde, Hde1.
      repeat split. apply Forall_app. auto. }
    destruct r1 as [a|e]; [|split; [|exact I]]; exists (d ++ d1); auto. }
  assert (HI : Keep w).
  { exists []. split; [apply run_refl; auto|]. repeat split. constructor. }
  pose proof (@pRetry_inv _ _ Keep Done (fun _ _ => True) Hstep 2 _ _ _ H HI) as R.
  destruct r as [a|e]; [exact R | exact (proj1 R)].
Qed.
(** ** The pipeline of [post_image] *)

(** What a run of the [try] block leaves, by how far it came: it stopped
    before the fan-out; or it stored the object under [key] and then the
    fan-out failed with no asset row; or the asset row [a] was committed and
    then the detection failed, the label transaction failed, or the batch
    of labels was committed as well. *)
Lemma try_block_anatomy request w r w' :
  api_post_image.try_block request w = (r, w') -> txn w = None ->
  users w' = users w /\ txn w' = None /\
  exists d, log w' = log w ++ d /\
   ((exists e, r = Throw e /\ assets w' = assets w /\ labels w' = labels w /\
               bucket w' = bucket w /\ silent d)
    \/
    (exists key,
       lookup_key key (bucket w') =
         Some (Buffer_from (api_post_image.body_data request)) /\
       ((exists e, r = Throw e /\ assets w' = assets w /\ labels w' = labels w /\
                   durable_ids d = [] /\ label_inserts d = [])
        \/
        (exists a d1 d2,
           d = d1 ++ d2 /\
           assets w' = assets w ++
             [mkAsset a (api_post_image.params_userid request)
                (api_post_image.body_local_filename request) key] /\
           auto_increment w <= a /\
           durable_ids d1 = [a] /\ label_inserts d1 = [] /\
           durable_ids d2 = [] /\ Forall (eq a) (label_inserts d2) /\
           ((exists msg, r = Throw (new_Error msg) /\
                         detections d = [Some msg] /\ labels w' = labels w)
            \/
            (exists e, r = Throw e /\ detections d = [None] /\
                       labels w' = labels w)
            \/
            (exists candidates,
                r = Ok a /\ detections d = [None] /\
                hd (Detected []) (rkg_script w) = Detected candidates /\
                labels w' = labels w ++
                  map (to_label_row a)
                    (rekognition api_post_image.MaxLabels
                       api_post_image.MinConfidence candidates))))))).
Proof.
  intros H Ht.
  cbv beta zeta delta [api_post_image.try_block bind ret] in H.
  destruct (pRetry 2 _ w) as [[name|e1] w1] eqn:E1;
    apply lookup_phase_spec in E1; auto;
    destruct E1 as (RA & _ & dA & (LA & AA & BA & UA & KA & TA & IA) & SA);
    rewrite app_nil_r in AA, BA.
  2:{ injection H as <- <-. repeat split; auto.
      exists dA. split; auto. left. exists e1. auto 10. }
  destruct (api_post_image.upload_to_bucket _ _ _ w1) as [[key|e2] w2] eqn:E2;
    apply upload_to_bucket_spec in E2;
    destruct E2 as (dB & LB & SB & UB & AB & BB & TB & IB & RB & KB).
  2:{ injection H as <- <-. repeat split; try congruence.
      exists (dA ++ dB). split; [rewrite LB, LA, app_assoc; reflexivity|].
      left. exists e2. repeat split; try congruence; apply silent_app; auto. }
  assert (T2 : txn w2 = None) by congruence.
  assert (S2 : silent (dA ++ dB)) by (apply silent_app; auto).
  destruct S2 as (S2a & S2b & S2c).
  destruct (api_post_image.fan_out _ _ _ _ w2) as [[[a found]|e3] w3] eqn:E3;
    apply fan_out_spec in E3; auto; destruct E3 as (dC & LiC & E3).
  2:{ injection H as <- <-.
      destruct E3 as [(RC & DuC) | (a & msg & RC & DuC & DeC & -> & Hb)];
        destruct RC as (LC & AC & BC & UC & KC & TC & IC);
        rewrite ?app_nil_r in *.
      - repeat split; try congruence.
        exists ((dA ++ dB) ++ dC).
        split; [rewrite LC, LB, LA, !app_assoc; reflexivity|].
        right. exists key. split; [congruence|]. left. exists e3.
        rewrite durable_ids_app, label_inserts_app, S2a, S2b, DuC, LiC.
        repeat split; congruence.
      - repeat split; try congruence.
        exists ((dA ++ dB) ++ dC).
        split; [rewrite LC, LB, LA, !app_assoc; reflexivity|].
        right. exists key. split; [congruence|]. right.
        exists a, ((dA ++ dB) ++ dC), []. rewrite app_nil_r.
        rewrite durable_ids_app, label_inserts_app, detections_app,
          S2a, S2b, S2c, DuC, LiC, DeC.
        split; [reflexivity|]. split; [congruence|]. split; [lia|].
        split; [reflexivity|]. split; [reflexivity|]. split; [reflexivity|].
        split; [constructor|].
        left. exists msg. repeat split; congruence. }
  destruct E3 as (RC & DuC & DeC & Hb & candidates & Hcand & ->).
  destruct RC as (LC & AC & BC & UC & KC & TC & IC). rewrite app_nil_r in BC.
  destruct (pRetry 2 _ w3) as [[[]|e4] w4] eqn:E4;
    apply label_phase_spec in E4; auto;
    destruct E4 as (dD & (LD & AD & BD & UD & KD & TD & ID) & DuD & LiD & DeD);
    rewrite ?app_nil_r in *; injection H as <- <-.
  all: repeat split; try congruence.
  all: exists (((dA ++ dB) ++ dC) ++ dD).
  all: split; [rewrite LD, LC, LB, LA, !app_assoc; reflexivity|].
  all: right; exists key; split; [congruence|]; right.
  all: exists a, ((dA ++ dB) ++ dC), dD.
  all: rewrite (detections_app ((dA ++ dB) ++ dC) dD).
  all: rewrite (durable_ids_app (dA ++ dB) dC), (label_inserts_app (dA ++ dB) dC),
         (detections_app (dA ++ dB) dC), S2a, S2b, S2c, DuC, LiC, DeC, DuD, DeD.
  all: split; [reflexivity|]; split; [congruence|]; split; [lia|].
  all: split; [reflexivity|]; split; [reflexivity|]; split; [reflexivity|].
  all: split; [exact LiD|].
  - right. right. exists candidates.
    split; [reflexivity|]. split; [reflexivity|]. split; congruence.
  - right. left. exists e4. repeat split; congruence.
Qed.

(** ** Facts about lists of events *)

Lemma split_after {A : Type} (l1 : list A) : forall l2 pre e post,
  l1 ++ l2 = pre ++ e :: post -> ~ In e l1 ->
  exists pre', pre = l1 ++ pre' /\ l2 = pre' ++ e :: post.
Proof.
  induction l1 as [|x l1 IH]; intros l2 pre e post H Hn.
  - exists pre. auto.
  - destruct pre as [|y pre]; cbn in H; injection H as -> H.
    + exfalso. apply Hn. left. reflexivity.
    + destruct (IH _ _ _ _ H) as (pre' & -> & ->).
      * intros Hin. apply Hn. right. exact Hin.
      * exists pre'. auto.
Qed.

Lemma In_label_inserts aid name conf outcome d :
  In (mkEvent (CExecute (InsertLabel aid name conf)) outcome) d ->
  In aid (label_inserts d).
Proof.
  intros Hin. unfold label_inserts. apply in_flat_map.
  eexists. split; [exact Hin|]. left. reflexivity.
Qed.

(** [dbConn.end()] touches the session and the log only. *)
Lemma dbConn_end_spec w :
  let v := snd (dbConn_end w) in
  users v = users w /\ assets v = assets w /\ labels v = labels w /\
  bucket v = bucket w /\ auto_increment v = auto_increment w /\
  (forall l, dbConn v <> Live l) /\
  exists t, log v = log w ++ t /\ commands t = [] /\
            (dbConn w <> Undefined -> txn v = None \/ txn v = txn w).
Proof.
  world w. cbv [dbConn_end]. cbn [dbConn]. destruct dc; cbn.
  all: repeat split; auto; try discriminate.
  all: try (exists []; rewrite app_nil_r; auto; fail).
  eexists. split; [reflexivity|]. auto.
Qed.

(** ** Labels only after their asset *)

(** C2: throughout every run of [post_image], when the INSERT of a label
    row is sent, a commit that made the asset row of its [assetid] durable
    has been logged before: the labels are written only after the
    registration step has returned the committed id. *)
Theorem labels_follow_asset_commit request w response w'
    pre aid name conf outcome post :
  api_post_image.post_image request w = (response, w') ->
  log w' = log w ++ pre ++
             mkEvent (CExecute (InsertLabel aid name conf)) outcome :: post ->
  In aid (durable_ids pre).
Proof.
  intros H Hlog.
  assert (Hin : forall d, log w' = log w ++ d ->
            In (mkEvent (CExecute (InsertLabel aid name conf)) outcome) d).
  { intros d Hd. rewrite Hd in Hlog. apply app_inv_head in Hlog. subst d.
    apply in_or_app. right. left. reflexivity. }
  world w. cbv beta delta [api_post_image.post_image] in H. exec H.
  - (* no connection *)
    injection H as _ <-. cbn [log] in Hlog, Hin.
    specialize (Hin [mkEvent CConnect (Some s)] eq_refl).
    destruct Hin as [Hin|[]]. discriminate Hin.
  - (* the connection is open *)
    destruct (api_post_image.try_block _ _) as [settled w1] eqn:E.
    injection H as _ <-.
    apply try_block_anatomy in E; [|reflexivity].
    destruct E as (_ & _ & d & Hd & E).
    destruct (dbConn_end_spec w1) as (_ & _ & _ & _ & _ & _ & t & Ht & Hc & _).
    cbv zeta in Ht. rewrite Hd in Ht. cbn [log] in Ht, Hlog.
    rewrite <- !app_assoc in Ht. cbn [app] in Ht.
    assert (Hlt : label_inserts t = []).
    { clear - Hc. induction t as [|[c o] t IH]; [reflexivity|].
      cbn in Hc. destruct c; try discriminate; apply IH; exact Hc. }
    destruct E as [(e & _ & _ & _ & _ & (_ & Hli & _))
                  |(key & _ & [(e & _ & _ & _ & _ & Hli)
                              |(a & d1 & d2 & -> & _ & _ & Hdu1 & Hli1 & _ & Hli2 & _)])].
    + exfalso. specialize (Hin _ Ht). apply In_label_inserts in Hin.
      change (mkEvent CConnect None :: d ++ t)
        with ([mkEvent CConnect None] ++ d ++ t) in Hin.
      rewrite !label_inserts_app, Hli, Hlt in Hin. exact Hin.
    + exfalso. specialize (Hin _ Ht). apply In_label_inserts in Hin.
      change (mkEvent CConnect None :: d ++ t)
        with ([mkEvent CConnect None] ++ d ++ t) in Hin.
      rewrite !label_inserts_app, Hli, Hlt in Hin. exact Hin.
    + rewrite Ht in Hlog. apply app_inv_head in Hlog.
      rewrite <- app_assoc in Hlog.
      change (mkEvent CConnect None :: d1 ++ d2 ++ t)
        with (([mkEvent CConnect None] ++ d1) ++ (d2 ++ t)) in Hlog.
      apply split_after in Hlog.
      * destruct Hlog as (pre' & -> & Hrest).
        assert (Hin2 : In aid (label_inserts (d2 ++ t))).
        { rewrite Hrest. apply In_label_inserts with (name := name) (conf := conf)
            (outcome := outcome). apply in_or_app. right. left. reflexivity. }
        rewrite label_inserts_app, Hlt, app_nil_r in Hin2.
        rewrite Forall_forall in Hli2. rewrite <- (Hli2 _ Hin2).
        rewrite !durable_ids_app, Hdu1. apply in_or_app. left.
        apply in_or_app. right. left. reflexivity.
      * intros Hbad. apply In_label_inserts in Hbad.
        rewrite label_inserts_app, Hli1 in Hbad. exact Hbad.
Qed.

Lemma labels_follow_asset_commit_witness :
  In 1001
    (durable_ids
       (firstn 8 (log (snd (api_post_image.post_image sample_upload sample_world))))).
Proof.
  eapply (@labels_follow_asset_commit sample_upload sample_world _ _
           (firstn 8 (log (snd (api_post_image.post_image sample_upload sample_world))))
           1001 "Cat" 99 None
           (skipn 9 (log (snd (api_post_image.post_image sample_upload sample_world)))));
    vm_compute; reflexivity.
Defined.
(** ** An unknown owner *)

(** C3: when the owner id of an upload matches no row of [users] (and the
    database serves the connection and the three lookups), the handler
    answers 400 with [{message: "no such userid", assetid: -1}]; the only
    calls it makes are the three lookups, so no asset row, no label row and
    no object in the bucket is created. *)
Theorem unknown_owner_is_rejected request w response w' :
  api_post_image.post_image request w = (response, w') ->
  filter (fun u => u_userid u =? api_post_image.params_userid request) (users w) = [] ->
  serves 4 (db_faults w) ->
  response = Some (400, JObj [("message", JStr "no such userid");
                              ("assetid", JNum (-1))]) /\
  assets w' = assets w /\ labels w' = labels w /\ bucket w' = bucket w /\
  log w' = log w ++
    [mkEvent CConnect None;
     mkEvent (CExecute (SelectUsername (api_post_image.params_userid request))) None;
     mkEvent (CExecute (SelectUsername (api_post_image.params_userid request))) None;
     mkEvent (CExecute (SelectUsername (api_post_image.params_userid request))) None;
     mkEvent CEnd None].
Proof.
  intros H Hnone (S1 & S2 & S3 & S4 & _). world w.
  cbn [users db_faults] in *.
  cbv beta delta [api_post_image.post_image] in H. exec H.
  cbv beta zeta delta [api_post_image.try_block api_post_image.lookup_user] in H.
  cbn [pRetry] in H. unfold_control H.
  repeat (exec H; rewrite ?Hnone in H; cbv beta iota in H).
  cbv beta iota zeta delta [dbConn_end dbConn snd instanceof_ValueError err_class
                            new_ValueError message record hang_up set_txn set_dbConn set_log
                            users assets labels auto_increment txn bucket db_faults
                            s3_faults rkg_script uuids log] in H.
  injection H as <- <-. cbn [assets labels bucket log].
  rewrite <- !app_assoc. auto.
Qed.

Lemma unknown_owner_is_rejected_witness :
  fst (api_post_image.post_image
         (api_post_image.mkRequest 999999 "cat.jpg" "QUJD") sample_world)
  = Some (400, JObj [("message", JStr "no such userid"); ("assetid", JNum (-1))]).
Proof.
  eapply (@unknown_owner_is_rejected
            (api_post_image.mkRequest 999999 "cat.jpg" "QUJD") sample_world).
  - vm_compute. reflexivity.
  - reflexivity.
  - cbn. auto.
Defined.

(** ** Reading a number *)

(** [parseInt] skips the white space of JavaScript, among it the no-break
    space and the byte order mark, reads a sign and a [0x] prefix, and stops
    at the first character that is no digit. *)
Lemma parseInt_examples :
  parseInt "1001" = Some 1001 /\
  parseInt (String "194" (String "160" "1001")) = Some 1001 /\
  parseInt (String "239" (String "187" (String "191" " 80001"))) = Some 80001 /\
  parseInt "-7" = Some (-7) /\
  parseInt "0x1F" = Some 31 /\
  parseInt "12abc" = Some 12 /\
  parseInt "abc" = None /\
  parseInt "0x" = None /\
  parseInt "" = None.
Proof. repeat split. Qed.

(** ** The read handlers on a database that serves them *)

Ltac reduce_end H :=
  cbv beta iota zeta delta
    [dbConn_end dbConn fst snd record hang_up set_txn set_dbConn set_log
     users assets labels auto_increment txn bucket db_faults s3_faults
     rkg_script uuids log message new_Error] in H.

Lemma get_images_all v :
  serves 2 (db_faults v) ->
  fst (api_get_images.get_images None v)
  = Some (200, JObj [("message", JStr "success");
                     ("data", JArr (map asset_json (order_by_assetid (assets v))))]).
Proof.
  intros (S1 & S2 & _). world v. cbn [db_faults assets] in *.
  destruct (api_get_images.get_images None _) as [response v'] eqn:H.
  cbv beta zeta delta [api_get_images.get_images api_get_images.try_block
                       api_get_images.try_get_images] in H.
  cbn [pRetry] in H. unfold_control H. reduce_world H.
  change (0 <=? -1) with false in H. change (-1 =? 0) with false in H.
  repeat exec H. reduce_end H.
  injection H as <- <-. reflexivity.
Qed.

Lemma get_image_found s a row body v :
  parseInt s = Some a ->
  assets_with_id (Some a) v = [row] ->
  lookup_key (bucketkey row) (bucket v) = Some body ->
  serves 2 (db_faults v) -> hd None (s3_faults v) = None ->
  fst (api_get_image.get_image s v)
  = Some (200, JObj [("message", JStr "success");
                     ("userid", JNum (userid row));
                     ("local_filename", JStr (localname row));
                     ("data", JStr (transformToString body))]).
Proof.
  intros Hs Hrow Hkey (S1 & S2 & _) S3. world v.
  cbn [db_faults s3_faults assets bucket] in *.
  unfold assets_with_id in Hrow. cbn [assets] in Hrow.
  destruct (api_get_image.get_image s _) as [response v'] eqn:H.
  cbv beta zeta delta [api_get_image.get_image] in H. exec H.
  cbv beta zeta delta [api_get_image.try_block api_get_image.validate_assetid
                       api_get_image.download_image_str] in H.
  rewrite Hs in H.
  cbn [pRetry] in H. unfold_control H.
  exec H. unfold assets_with_id in H. cbn [assets] in H. rewrite Hrow in H.
  cbv beta iota in H.
  exec H. reduce_end H.
  injection H as <- <-. reflexivity.
Qed.

Lemma get_image_labels_found coll s row v :
  assets_with_id (parseInt s) v = [row] ->
  serves 3 (db_faults v) ->
  fst (api_get_image_labels.get_image_labels coll s v)
  = Some (200, JObj [("message", JStr "success");
                     ("data", JArr (map label_json (labels_of coll (parseInt s) v)))]).
Proof.
  intros Hrow (S1 & S2 & S3 & _). world v.
  cbn [db_faults] in *.
  destruct (api_get_image_labels.get_image_labels coll s _) as [response v'] eqn:H.
  cbv beta zeta delta [api_get_image_labels.get_image_labels] in H. exec H.
  cbv beta zeta delta [api_get_image_labels.try_block
                       api_get_image_labels.validate_assetid
                       api_get_image_labels.fetch_labels] in H.
  cbn [pRetry] in H. unfold_control H.
  exec H.
  replace (assets_with_id (parseInt s) _) with [row] in H.
  cbv beta iota in H.
  exec H. injection H as <- <-.
  reflexivity.
Qed.

Lemma get_image_labels_missing coll s a v :
  parseInt s = Some a ->
  assets_with_id (Some a) v = [] ->
  serves 4 (db_faults v) ->
  api_get_image_labels.get_image_labels coll s v
  = (Some (500, JObj [("message", JStr "no such assetid"); ("data", JArr [])]),
     set_log (log v ++
                [mkEvent CConnect None;
                 mkEvent (CExecute (SelectAssetId (Some a))) None;
                 mkEvent (CExecute (SelectAssetId (Some a))) None;
                 mkEvent (CExecute (SelectAssetId (Some a))) None])
       (set_db_faults (tl (tl (tl (tl (db_faults v)))))
          (set_txn None (set_dbConn (Live None) v)))).
Proof.
  intros Hs Hrow (S1 & S2 & S3 & S4 & _). world v.
  cbn [db_faults] in *.
  destruct (api_get_image_labels.get_image_labels coll s _) as [response v'] eqn:H.
  cbv beta zeta delta [api_get_image_labels.get_image_labels] in H. exec H.
  cbv beta zeta delta [api_get_image_labels.try_block
                       api_get_image_labels.validate_assetid
                       api_get_image_labels.fetch_labels] in H.
  rewrite Hs in H. unfold assets_with_id in Hrow. cbn [assets] in Hrow.
  cbn [pRetry] in H. unfold_control H.
  repeat (exec H; unfold assets_with_id in H; cbn [assets] in H;
          rewrite Hrow in H; cbv beta iota in H).
  injection H as <- <-.
  cbv [set_log set_db_faults set_txn set_dbConn users assets labels auto_increment
       txn dbConn bucket db_faults s3_faults rkg_script uuids log new_Error message].
  rewrite <- !app_assoc. reflexivity.
Qed.

(** ** Fresh ids *)

Lemma In_insert_asset r x rows : In r (insert_asset x rows) <-> r = x \/ In r rows.
Proof.
  induction rows as [|y rows IH]; cbn.
  - intuition congruence.
  - destruct (assetid x <=? assetid y); cbn; rewrite ?IH; intuition congruence.
Qed.

Lemma In_order_by_assetid r rows : In r (order_by_assetid rows) <-> In r rows.
Proof.
  induction rows as [|x rows IH]; cbn; [tauto|].
  rewrite In_insert_asset, IH. intuition congruence.
Qed.

Lemma filter_none {A : Type} (f : A -> bool) (l : list A) :
  (forall x, In x l -> f x = false) -> filter f l = [].
Proof.
  induction l as [|x l IH]; intros H; cbn; [reflexivity|].
  rewrite (H x (or_introl eq_refl)). apply IH. intros y Hy. apply H. right. exact Hy.
Qed.

Lemma fresh_asset_is_unique rows bound row :
  (forall r, In r rows -> assetid r < bound) -> bound <= assetid row ->
  filter (fun r => assetid r =? assetid row) (rows ++ [row]) = [row].
Proof.
  intros Hb Hf. rewrite filter_app, filter_none.
  - cbn. rewrite Z.eqb_refl. reflexivity.
  - intros r Hr. apply Z.eqb_neq. specialize (Hb r Hr). lia.
Qed.

Lemma fresh_asset_has_no_label rows bound a :
  (forall l, In l rows -> l_assetid l < bound) -> bound <= a ->
  filter (fun l => l_assetid l =? a) rows = [].
Proof.
  intros Hb Hf. apply filter_none. intros l Hl.
  apply Z.eqb_neq. specialize (Hb l Hl). lia.
Qed.

Lemma commands_nil_quiet t :
  commands t = [] ->
  durable_ids t = [] /\ label_inserts t = [] /\ detections t = [] /\ deletions t = [].
Proof.
  induction t as [|[c o] t IH]; intros H; [repeat split|].
  cbn in H. destruct c; try discriminate H; exact (IH H).
Qed.

Lemma serves_le n : forall m faults,
  (n <= m)%nat -> serves m faults -> serves n faults.
Proof.
  induction n as [|n IH]; intros m faults Hle Hs; [exact I|].
  destruct m as [|m]; [lia|]. destruct Hs as (H1 & H2).
  split; [exact H1|]. apply (IH m); [lia | exact H2].
Qed.

(** ** A failed detection *)

(** C4: when, during an upload, the registration step commits the asset
    row [a] and the detector command fails, the handler answers with the
    detector's failure (status 500), the asset row stays in the table (it
    is not rolled back) without any label; afterwards the asset is listed,
    it is retrieved with the base64 text of the bytes that the upload
    decoded from its data, and the list of its labels is empty. *)
Theorem detection_failure_keeps_asset request w response w' d a msg :
  api_post_image.post_image request w = (response, w') ->
  log w' = log w ++ d ->
  In a (durable_ids d) -> In (Some msg) (detections d) ->
  ids_below w ->
  response = Some (500, JObj [("message", JStr msg); ("assetid", JNum (-1))]) /\
  exists key,
    assets w' = assets w ++
      [mkAsset a (api_post_image.params_userid request)
         (api_post_image.body_local_filename request) key] /\
    labels w' = labels w /\
    forall coll v s,
      same_store v w' -> parseInt s = Some a ->
      serves 3 (db_faults v) -> hd None (s3_faults v) = None ->
      (exists listed,
         fst (api_get_images.get_images None v)
         = Some (200, JObj [("message", JStr "success"); ("data", JArr listed)]) /\
         In (asset_json
               (mkAsset a (api_post_image.params_userid request)
                  (api_post_image.body_local_filename request) key)) listed) /\
      fst (api_get_image.get_image s v)
      = Some (200, JObj [("message", JStr "success");
                         ("userid", JNum (api_post_image.params_userid request));
                         ("local_filename",
                          JStr (api_post_image.body_local_filename request));
                         ("data",
                          JStr (base64
                                  (octets
                                     (sextets
                                        (code_units
                                           (api_post_image.body_data request))))))]) /\
      fst (api_get_image_labels.get_image_labels coll s v)
      = Some (200, JObj [("message", JStr "success"); ("data", JArr [])]).
Proof.
  intros H Hlog Hdur Hdet (Hba & Hbl). world w.
  cbn [assets labels auto_increment log] in *.
  cbv beta delta [api_post_image.post_image] in H. exec H.
  { (* no connection *)
    injection H as _ <-. cbn [log] in Hlog. apply app_inv_head in Hlog.
    subst d. destruct Hdur. }
  destruct (api_post_image.try_block _ _) as [settled w1] eqn:E.
  injection H as <- <-.
  apply try_block_anatomy in E; [|reflexivity].
  destruct E as (_ & _ & d0 & Hd & E).
  destruct (dbConn_end_spec w1) as (_ & Ea & El & Eb & _ & _ & t & Ht & Hc & _).
  cbv zeta in *. apply commands_nil_quiet in Hc. destruct Hc as (Tdu & _ & Tde & _).
  rewrite Ht, Hd in Hlog. cbn [log assets labels auto_increment] in *.
  rewrite <- !app_assoc in Hlog. apply app_inv_head in Hlog. subst d.
  change ([mkEvent CConnect None] ++ d0 ++ t) with ([mkEvent CConnect None] ++ (d0 ++ t))
    in Hdur, Hdet.
  rewrite !durable_ids_app, Tdu, app_nil_r in Hdur.
  rewrite !detections_app, Tde, app_nil_r in Hdet.
  cbn [durable_ids detections flat_map call failure app] in Hdur, Hdet.
  fold (durable_ids d0) in Hdur. fold (detections d0) in Hdet.
  destruct E as [(e & _ & _ & _ & _ & (Hdu & _))
                |(key & Hkey & [(e & _ & _ & _ & Hdu & _)
                               |(a' & d1 & d2 & -> & Ha & Hfresh & Hdu1 & _ & Hdu2 & _ & E)])].
  { rewrite Hdu in Hdur. destruct Hdur. }
  { rewrite Hdu in Hdur. destruct Hdur. }
  rewrite durable_ids_app, Hdu1, Hdu2 in Hdur. destruct Hdur as [<-|[]].
  destruct E as [(msg' & -> & Hde & Hl)
                |[(e & _ & Hde & _)|(cands & _ & Hde & _)]];
    rewrite Hde in Hdet; destruct Hdet as [Hm|[]]; try discriminate Hm.
  injection Hm as <-.
  split; [reflexivity|]. exists key.
  split; [congruence|]. split; [congruence|].
  intros coll v s (Su & Sa & Sl & Sb) Hs Hserves Hs3.
  rewrite Ea, Ha in Sa. rewrite El, Hl in Sl. rewrite Eb in Sb.
  set (row := mkAsset a' (api_post_image.params_userid request)
                (api_post_image.body_local_filename request) key) in *.
  assert (Hrow : assets_with_id (Some a') v = [row]).
  { unfold assets_with_id. rewrite Sa.
    apply (fresh_asset_is_unique (bound := ai) ass row); auto. }
  split; [|split].
  - eexists. split.
    + apply get_images_all. apply (@serves_le 2%nat 3%nat _); [lia | exact Hserves].
    + apply in_map. apply In_order_by_assetid. rewrite Sa.
      apply in_or_app. right. left. reflexivity.
  - apply (@get_image_found s a' row
             (Buffer_from (api_post_image.body_data request)) v); auto.
    + rewrite Sb. exact Hkey.
    + apply (@serves_le 2%nat 3%nat _); [lia | exact Hserves].
  - rewrite (@get_image_labels_found coll s row v);
      [| rewrite Hs; exact Hrow | exact Hserves].
    rewrite Hs. unfold labels_of. rewrite Sl.
    rewrite (fresh_asset_has_no_label lbs (bound := ai)); auto.
Qed.

Lemma detection_failure_keeps_asset_witness :
  fst (api_post_image.post_image sample_upload
         (set_rkg_script [DetectFailed "ThrottlingException" 3] sample_world))
  = Some (500, JObj [("message", JStr "ThrottlingException");
                     ("assetid", JNum (-1))]).
Proof.
  eapply (@detection_failure_keeps_asset sample_upload
            (set_rkg_script [DetectFailed "ThrottlingException" 3] sample_world)
            _ _
            (log (snd (api_post_image.post_image sample_upload
                         (set_rkg_script [DetectFailed "ThrottlingException" 3]
                            sample_world))))
            1001 "ThrottlingException").
  - vm_compute. reflexivity.
  - vm_compute. reflexivity.
  - vm_compute. left. reflexivity.
  - vm_compute. left. reflexivity.
  - split; intros ? [].
Defined.

(** ** Atomic label batches *)

(** C7: one run of [update_labels], entered without an open transaction,
    is all or nothing.  Either it returns, every row of the batch has been
    appended to [labels] and the run logged exactly one successful commit;
    or it throws, [labels] is what it was, no commit succeeded and no
    transaction is left open.  The asset rows are untouched either way.
    And the run does return, so that the batch is committed, when the
    connection is live and the database serves BEGIN, the INSERTs of the
    batch and COMMIT. *)
Theorem label_batch_is_atomic aid batch w r w' :
  api_post_image.update_labels aid batch w = (r, w') -> txn w = None ->
  assets w' = assets w /\ txn w' = None /\
  (exists d, log w' = log w ++ d /\
     match r with
     | Ok _ => labels w' = labels w ++ map (to_label_row aid) batch /\
               commits d = [[]]
     | Throw _ => labels w' = labels w /\ commits d = []
     end) /\
  (dbConn w = Live None -> serves (2 + List.length batch) (db_faults w) ->
   r = Ok tt /\ labels w' = labels w ++ map (to_label_row aid) batch).
Proof.
  intros H Ht.
  destruct (@update_labels_spec _ _ _ _ _ H Ht) as (d & (L & A & B & _ & _ & T & _) & C & _).
  rewrite app_nil_r in A. split; [exact A|]. split; [exact T|]. split.
  - exists d. split; [exact L|].
    destruct r; [|rewrite app_nil_r in B]; auto.
  - intros Hc Hs. pose proof (@update_labels_served aid batch w Hc Hs) as Hr.
    rewrite H in Hr. cbn [fst] in Hr. subst r. split; [reflexivity | exact B].
Qed.

(** A batch of two that the database serves is committed; when the second
    INSERT fails, the first row is rolled back with it. *)
Lemma label_batch_is_atomic_witness :
  labels (snd (api_post_image.update_labels 1001
                 [mkRkg "Cat" (995 # 10); mkRkg "Animal" (91 # 1)]
                 (set_dbConn (Live None) sample_world)))
  = labels sample_world ++ [mkLabel 1001 "Cat" 99; mkLabel 1001 "Animal" 91] /\
  labels (snd (api_post_image.update_labels 1001
                 [mkRkg "Cat" (995 # 10); mkRkg "Animal" (91 # 1)]
                 (set_db_faults [None; None; Some "Lock wait timeout exceeded"]
                    (set_dbConn (Live None) sample_world))))
  = labels sample_world.
Proof.
  split.
  - pose proof (@label_batch_is_atomic 1001
                  [mkRkg "Cat" (995 # 10); mkRkg "Animal" (91 # 1)]
                  (set_dbConn (Live None) sample_world)
                  (fst (api_post_image.update_labels 1001
                          [mkRkg "Cat" (995 # 10); mkRkg "Animal" (91 # 1)]
                          (set_dbConn (Live None) sample_world)))
                  (snd (api_post_image.update_labels 1001
                          [mkRkg "Cat" (995 # 10); mkRkg "Animal" (91 # 1)]
                          (set_dbConn (Live None) sample_world)))) as T.
    destruct T as (_ & _ & _ & T); [vm_compute; reflexivity | reflexivity |].
    destruct T as (_ & T); [reflexivity | cbn; auto |].
    exact T.
  - pose proof (@label_batch_is_atomic 1001
                  [mkRkg "Cat" (995 # 10); mkRkg "Animal" (91 # 1)]
                  (set_db_faults [None; None; Some "Lock wait timeout exceeded"]
                     (set_dbConn (Live None) sample_world))
                  (Throw (new_Error "Lock wait timeout exceeded"))
                  (snd (api_post_image.update_labels 1001
                          [mkRkg "Cat" (995 # 10); mkRkg "Animal" (91 # 1)]
                          (set_db_faults [None; None; Some "Lock wait timeout exceeded"]
                             (set_dbConn (Live None) sample_world))))) as T.
    destruct T as (_ & _ & (d & _ & T & _) & _); [vm_compute; reflexivity | reflexivity |].
    exact T.
Defined.

(** ** Listing the labels of an upload *)

Lemma In_insert_label coll r x rows :
  In r (insert_label coll x rows) <-> r = x \/ In r rows.
Proof.
  induction rows as [|y rows IH]; cbn.
  - intuition congruence.
  - destruct (text_leb coll (label x) (label y)); cbn; rewrite ?IH; intuition congruence.
Qed.

Lemma In_order_by_label coll r rows : In r (order_by_label coll rows) <-> In r rows.
Proof.
  induction rows as [|x rows IH]; cbn; [tauto|].
  rewrite In_insert_label, IH. intuition congruence.
Qed.

Lemma length_insert_label coll x rows :
  List.length (insert_label coll x rows) = S (List.length rows).
Proof.
  induction rows as [|y rows IH]; cbn; [reflexivity|].
  destruct (text_leb coll (label x) (label y)); cbn; congruence.
Qed.

Lemma length_order_by_label coll rows :
  List.length (order_by_label coll rows) = List.length rows.
Proof.
  induction rows as [|x rows IH]; cbn; [reflexivity|].
  rewrite length_insert_label. f_equal. exact IH.
Qed.

Lemma insert_label_sorted coll x rows :
  text_total coll ->
  Sorted (label_le coll) rows -> Sorted (label_le coll) (insert_label coll x rows).
Proof.
  intros Htotal.
  induction rows as [|y rows IH]; intros Hs; cbn.
  - repeat constructor.
  - destruct (text_leb coll (label x) (label y)) eqn:E.
    + constructor; [exact Hs|]. constructor. exact E.
    + apply Sorted_inv in Hs. destruct Hs as (Hs & Hd).
      constructor; [apply IH; exact Hs|].
      assert (Hyx : label_le coll y x).
      { unfold label_le. destruct (Htotal (label x) (label y)) as [T|T];
          [congruence | exact T]. }
      destruct rows as [|z rows]; cbn.
      * constructor. exact Hyx.
      * destruct (text_leb coll (label x) (label z)); constructor;
          [exact Hyx | apply HdRel_inv in Hd; exact Hd].
Qed.

Lemma order_by_label_sorted coll rows :
  text_total coll -> Sorted (label_le coll) (order_by_label coll rows).
Proof.
  intros Htotal.
  induction rows as [|x rows IH]; cbn; [constructor|].
  apply insert_label_sorted; [exact Htotal | exact IH].
Qed.

(** The two sample collations order any two texts. *)
Lemma binary_total : text_total binary.
Proof. intros s t. apply String.leb_total. Qed.

Lemma ascii_ci_total : text_total ascii_ci.
Proof. intros s t. apply String.leb_total. Qed.

Lemma floor_of_confident q : (90 # 1 <= q)%Q -> 90 <= Qfloor q.
Proof.
  intros H. change 90 with (Qfloor (90 # 1)). apply Qfloor_resp_le. exact H.
Qed.

Lemma labels_of_fresh_asset rows bound a detected :
  (forall l, In l rows -> l_assetid l < bound) -> bound <= a ->
  filter (fun l => l_assetid l =? a) (rows ++ map (to_label_row a) detected)
  = map (to_label_row a) detected.
Proof.
  intros Hb Hf. rewrite filter_app, (fresh_asset_has_no_label rows (bound := bound)); auto.
  cbn [app]. induction detected as [|l ls IH]; cbn; [reflexivity|].
  rewrite Z.eqb_refl. f_equal. exact IH.
Qed.

(** C9: after a successful upload that returned [assetid = a], List Labels
    for [a] answers with the rows of the labels the detector returned for
    this upload: at most 10, each of confidence at least 90, the
    confidence stored as the floor of the detector's score, in the
    ascending order that the collation of the column gives the labels,
    whatever that collation is, as long as it orders any two texts. *)
Theorem uploaded_labels_are_listed request w a w' :
  api_post_image.post_image request w
  = (Some (200, JObj [("message", JStr "success"); ("assetid", JNum a)]), w') ->
  ids_below w ->
  exists candidates detected,
    hd (Detected []) (rkg_script w) = Detected candidates /\
    detected = rekognition api_post_image.MaxLabels
                 api_post_image.MinConfidence candidates /\
    forall coll v s,
      same_store v w' -> parseInt s = Some a -> serves 3 (db_faults v) ->
      exists rows,
        fst (api_get_image_labels.get_image_labels coll s v)
        = Some (200, JObj [("message", JStr "success");
                           ("data", JArr (map label_json rows))]) /\
        rows = order_by_label coll (map (to_label_row a) detected) /\
        (text_total coll -> Sorted (label_le coll) rows) /\
        (List.length rows <= 10)%nat /\
        Forall (fun r =>
                  90 <= confidence r /\
                  exists l, In l detected /\ (90 # 1 <= Confidence l)%Q /\
                            label r = Name l /\
                            confidence r = Qfloor (Confidence l)) rows.
Proof.
  intros H (Hba & Hbl). world w.
  cbn [assets labels auto_increment rkg_script] in *.
  cbv beta delta [api_post_image.post_image] in H. exec H.
  { discriminate H. }
  destruct (api_post_image.try_block _ _) as [settled w1] eqn:E.
  apply try_block_anatomy in E; [|reflexivity].
  destruct E as (_ & _ & d0 & Hd & E).
  destruct (dbConn_end_spec w1) as (_ & Ea & El & _ & _ & _ & _).
  cbv zeta in *. cbn [log assets labels auto_increment rkg_script] in *.
  assert (Hok : settled = Ok a).
  { destruct settled as [a0|e]; [congruence|].
    destruct (instanceof_ValueError e); discriminate H. }
  subst settled. injection H as <-.
  destruct E as [(e & He & _)
                |(key & Hkey & [(e & He & _)
                               |(a' & d1 & d2 & -> & Ha & Hfresh & _ & _ & _ & _ & E)])];
    try discriminate He.
  destruct E as [(msg' & He & _)|[(e & He & _)|(cands & He & _ & Hcands & Hl)]];
    try discriminate He.
  injection He as <-.
  exists cands, (rekognition api_post_image.MaxLabels api_post_image.MinConfidence cands).
  split; [exact Hcands|]. split; [reflexivity|].
  destruct (rekognition_bounds api_post_image.MaxLabels api_post_image.MinConfidence cands)
    as (Hlen & Hconf).
  set (detected := rekognition _ _ cands) in *.
  intros coll v s (Su & Sa & Sl & Sb) Hs Hserves.
  rewrite Ea, Ha in Sa. rewrite El, Hl in Sl.
  set (row := mkAsset a (api_post_image.params_userid request)
                (api_post_image.body_local_filename request) key) in *.
  assert (Hrow : assets_with_id (Some a) v = [row]).
  { unfold assets_with_id. rewrite Sa.
    apply (fresh_asset_is_unique (bound := ai) ass row); auto. }
  exists (order_by_label coll (map (to_label_row a) detected)).
  split; [|split; [reflexivity|split; [apply order_by_label_sorted|split]]].
  - rewrite (@get_image_labels_found coll s row v);
      [| rewrite Hs; exact Hrow | exact Hserves].
    rewrite Hs. unfold labels_of. rewrite Sl.
    rewrite (labels_of_fresh_asset lbs (bound := ai)); auto.
  - rewrite length_order_by_label, length_map. exact Hlen.
  - apply Forall_forall. intros r Hr.
    apply (proj1 (In_order_by_label _ _ _)) in Hr. apply in_map_iff in Hr.
    destruct Hr as (l & <- & Hl').
    rewrite Forall_forall in Hconf. specialize (Hconf l Hl').
    split; [apply floor_of_confident; exact Hconf|].
    exists l. auto.
Qed.

(** The detector sees a television and a table.  Under a collation that
    does not tell upper case from lower case the table is listed first. *)
Lemma uploaded_labels_are_listed_witness :
  fst (api_get_image_labels.get_image_labels ascii_ci "1001"
         (snd (api_post_image.post_image sample_upload
                 (set_rkg_script
                    [Detected [mkRkg "TV" (995 # 10); mkRkg "Table" (91 # 1)]]
                    sample_world))))
  = Some (200, JObj [("message", JStr "success");
                     ("data",
                      JArr [JObj [("label", JStr "Table"); ("confidence", JNum 91)];
                            JObj [("label", JStr "TV"); ("confidence", JNum 99)]])]) /\
  Sorted (label_le ascii_ci) [mkLabel 1001 "Table" 91; mkLabel 1001 "TV" 99].
Proof.
  destruct (@uploaded_labels_are_listed sample_upload
              (set_rkg_script
                 [Detected [mkRkg "TV" (995 # 10); mkRkg "Table" (91 # 1)]]
                 sample_world)
              1001
              (snd (api_post_image.post_image sample_upload
                      (set_rkg_script
                         [Detected [mkRkg "TV" (995 # 10); mkRkg "Table" (91 # 1)]]
                         sample_world))))
    as (candidates & detected & Hc & Hd & Hall).
  - vm_compute. reflexivity.
  - split; intros ? [].
  - destruct (Hall ascii_ci
                (snd (api_post_image.post_image sample_upload
                        (set_rkg_script
                           [Detected [mkRkg "TV" (995 # 10); mkRkg "Table" (91 # 1)]]
                           sample_world)))
                "1001") as (rows & Hrows & Ho & Hsorted & _).
    + repeat split.
    + reflexivity.
    + vm_compute. auto.
    + specialize (Hsorted ascii_ci_total).
      rewrite Hrows. rewrite Ho, Hd in *. injection Hc as <-.
      split; [vm_compute; reflexivity | exact Hsorted].
Defined.

(** ** List Labels for an unknown asset *)

(** C1: when the assetid of a List Labels request is the number [a] and
    no row of [assets] has the id [a] (and the database serves the
    connection and the three lookups), the handler answers with message
    "no such assetid" and an empty list, but with status 500, not with a
    status of the 4xx class. *)
Theorem unknown_asset_is_a_server_error coll s a w :
  parseInt s = Some a ->
  assets_with_id (Some a) w = [] -> serves 4 (db_faults w) ->
  fst (api_get_image_labels.get_image_labels coll s w)
  = Some (500, JObj [("message", JStr "no such assetid"); ("data", JArr [])]).
Proof.
  intros Hs Hrow Hserves.
  rewrite (@get_image_labels_missing coll s a w Hs Hrow Hserves). reflexivity.
Qed.

Lemma unknown_asset_is_a_server_error_witness :
  fst (api_get_image_labels.get_image_labels binary "4242" sample_gallery)
  = Some (500, JObj [("message", JStr "no such assetid"); ("data", JArr [])]).
Proof.
  apply (@unknown_asset_is_a_server_error binary "4242" 4242 sample_gallery).
  - reflexivity.
  - reflexivity.
  - cbn. auto.
Defined.

(** ** The connection of List Labels *)

Lemma labels_validate_keeps_open aid w r w' :
  api_get_image_labels.validate_assetid aid w = (r, w') ->
  dbConn w = Live None -> dbConn w' = Live None.
Proof.
  intros H Hc. world w. cbn in Hc. subst dc.
  cbv beta delta [api_get_image_labels.validate_assetid] in H. unfold_control H.
  exec H.
  all: try (destruct (assets_with_id _ _) as [|? [|? ?]]).
  all: finish H; reflexivity.
Qed.

Lemma labels_fetch_keeps_open coll aid w r w' :
  api_get_image_labels.fetch_labels coll aid w = (r, w') ->
  dbConn w = Live None -> dbConn w' = Live None.
Proof.
  intros H Hc. world w. cbn in Hc. subst dc.
  cbv beta delta [api_get_image_labels.fetch_labels] in H. unfold_control H.
  exec H.
  all: finish H; reflexivity.
Qed.

Lemma pRetry_keeps_open {A : Type} (op : M A) :
  (forall w r w', op w = (r, w') -> dbConn w = Live None -> dbConn w' = Live None) ->
  forall n w r w', pRetry n op w = (r, w') ->
    dbConn w = Live None -> dbConn w' = Live None.
Proof.
  intros Hop n. induction n as [|n IH]; intros w r w' H Hc; cbn in H;
    destruct (op w) as [[a|e] w1] eqn:E.
  - injection H as _ <-. eauto.
  - injection H as _ <-. eauto.
  - injection H as _ <-. eauto.
  - eapply IH; eauto.
Qed.

(** C6: List Labels does not release its connection.  Whenever
    [get_image_labels] has acquired its connection, the connection is still
    live when the handler has answered, whatever the outcome of the
    request: the handler has no [finally] block and never calls
    [dbConn.end()]. *)
Theorem list_labels_leaves_connection_open coll s w :
  hd None (db_faults w) = None ->
  dbConn (snd (api_get_image_labels.get_image_labels coll s w)) = Live None.
Proof.
  intros Hc. world w. cbn [db_faults] in Hc.
  destruct (api_get_image_labels.get_image_labels coll s _) as [response w'] eqn:H.
  cbv beta delta [api_get_image_labels.get_image_labels] in H. exec H.
  cbv beta zeta delta [api_get_image_labels.try_block bind] in H.
  destruct (pRetry 2 (api_get_image_labels.validate_assetid _) _) as [[[]|e] w1] eqn:E1;
    (eapply pRetry_keeps_open in E1;
     [| intros; eapply labels_validate_keeps_open; eassumption | reflexivity]).
  - destruct (pRetry 2 (api_get_image_labels.fetch_labels _ _) _) as [[rows|e] w2] eqn:E2;
      (eapply pRetry_keeps_open in E2;
       [| intros; eapply labels_fetch_keeps_open; eassumption | exact E1]);
      injection H as _ <-; exact E2.
  - injection H as _ <-. exact E1.
Qed.

Lemma list_labels_leaves_connection_open_witness :
  dbConn (snd (api_get_image_labels.get_image_labels binary "1001" sample_gallery))
  = Live None.
Proof.
  apply (@list_labels_leaves_connection_open binary "1001" sample_gallery). reflexivity.
Defined.

(** The handlers with a [finally] block do close it. *)
Lemma finally_closes w : is_live (dbConn (snd (dbConn_end w))) = false.
Proof.
  unfold dbConn_end. destruct (dbConn w) eqn:E; cbn; try rewrite E; reflexivity.
Qed.

(** ** Retrieve with a parameter that is not a number *)

(** C10: a Retrieve request whose assetid does not parse as a number.
    [get_image] opens its connection before it reads the parameter.  When
    the connection is opened, the handler answers 500 with
    [{message: "get_image: assetid is not numeric", userid: -1}]; the
    calls of the request are the opening and the closing of the
    connection, with no statement and no bucket command, and the tables and
    the bucket are untouched.  When the connection cannot be opened, the
    handler sends no response at all: the failed attempt is its only
    call. *)
Theorem retrieve_rejects_non_numeric_id s w :
  parseInt s = None ->
  (hd None (db_faults w) = None ->
   fst (api_get_image.get_image s w)
   = Some (500, JObj [("message", JStr "get_image: assetid is not numeric");
                      ("userid", JNum (-1))]) /\
   log (snd (api_get_image.get_image s w))
   = log w ++ [mkEvent CConnect None; mkEvent CEnd None] /\
   same_store (snd (api_get_image.get_image s w)) w) /\
  (forall msg,
     hd None (db_faults w) = Some msg ->
     fst (api_get_image.get_image s w) = None /\
     log (snd (api_get_image.get_image s w))
     = log w ++ [mkEvent CConnect (Some msg)] /\
     same_store (snd (api_get_image.get_image s w)) w).
Proof.
  intros Hs. split.
  - intros Hc. world w. cbn [db_faults log] in *.
    destruct (api_get_image.get_image s _) as [response w'] eqn:H.
    cbv beta delta [api_get_image.get_image] in H. exec H.
    cbv beta zeta delta [api_get_image.try_block] in H. rewrite Hs in H.
    unfold_control H. reduce_end H. injection H as <- <-.
    cbn [fst snd log]. rewrite <- app_assoc. repeat split.
  - intros msg Hc. world w. cbn [db_faults log] in *.
    destruct (api_get_image.get_image s _) as [response w'] eqn:H.
    cbv beta delta [api_get_image.get_image] in H. exec H.
    injection H as <- <-. cbn [fst snd log]. repeat split.
Qed.

Lemma retrieve_rejects_non_numeric_id_witness :
  fst (api_get_image.get_image "cat.jpg" sample_gallery)
  = Some (500, JObj [("message", JStr "get_image: assetid is not numeric");
                     ("userid", JNum (-1))]) /\
  fst (api_get_image.get_image "cat.jpg"
         (set_db_faults [Some "connect ECONNREFUSED"] sample_gallery))
  = None.
Proof.
  split.
  - apply (proj1 (@retrieve_rejects_non_numeric_id "cat.jpg" sample_gallery eq_refl)).
    reflexivity.
  - apply (proj2 (@retrieve_rejects_non_numeric_id "cat.jpg"
                    (set_db_faults [Some "connect ECONNREFUSED"] sample_gallery)
                    eq_refl) "connect ECONNREFUSED").
    reflexivity.
Defined.

(** ** List Assets with an owner filter *)

(** C8: a List Assets request whose owner filter parses as a positive
    number that is the owner of no asset row is answered (when the database
    serves the connection and the query) with status 200, "success" and an
    empty list.  A non-empty filter that does not parse as a number matches
    no asset row either, and the handler answers it with status 500 and the
    message "get_images(): userid is not numeric", not with an empty list;
    it makes no call. *)
Theorem owner_filter_without_match s w :
  (forall uid,
     parseInt s = Some uid -> 0 < uid ->
     (forall r, In r (assets w) -> userid r <> uid) ->
     serves 2 (db_faults w) ->
     fst (api_get_images.get_images (Some s) w)
     = Some (200, JObj [("message", JStr "success"); ("data", JArr [])])) /\
  (s <> "" -> parseInt s = None ->
   fst (api_get_images.get_images (Some s) w)
   = Some (500, JObj [("message", JStr "get_images(): userid is not numeric");
                      ("data", JArr [])]) /\
   log (snd (api_get_images.get_images (Some s) w)) = log w /\
   same_store (snd (api_get_images.get_images (Some s) w)) w).
Proof.
  split.
  - intros uid Hs Hpos Hnone (S1 & S2 & _).
    assert (Hf : filter (fun r => userid r =? uid) (assets w) = []).
    { apply filter_none. intros r Hr. apply Z.eqb_neq. exact (Hnone r Hr). }
    assert (Hne : s <> "") by (intros ->; discriminate Hs).
    world w. cbn [db_faults assets] in *.
    destruct (api_get_images.get_images (Some s) _) as [response v'] eqn:H.
    cbv beta zeta delta [api_get_images.get_images api_get_images.try_block
                         api_get_images.try_get_images] in H.
    destruct s as [|c s]; [contradiction|]. rewrite Hs in H.
    cbn [pRetry] in H. unfold_control H. reduce_world H.
    replace (0 <=? uid) with true in H by (symmetry; apply Z.leb_le; lia).
    replace (uid =? 0) with false in H by (symmetry; apply Z.eqb_neq; lia).
    repeat exec H. reduce_end H. injection H as <- <-.
    cbn [fst]. rewrite Hf. reflexivity.
  - intros Hne Hs.
    cbv beta zeta delta [api_get_images.get_images api_get_images.try_block].
    destruct s as [|c s]; [contradiction|]. rewrite Hs.
    repeat split.
Qed.

Lemma owner_filter_without_match_witness :
  fst (api_get_images.get_images (Some "80002") sample_gallery)
  = Some (200, JObj [("message", JStr "success"); ("data", JArr [])]) /\
  fst (api_get_images.get_images (Some "abc") sample_gallery)
  = Some (500, JObj [("message", JStr "get_images(): userid is not numeric");
                     ("data", JArr [])]).
Proof.
  split.
  - apply (proj1 (@owner_filter_without_match "80002" sample_gallery) 80002).
    + reflexivity.
    + lia.
    + intros r [<-|[]]. discriminate.
    + cbn. auto.
  - apply (proj2 (@owner_filter_without_match "abc" sample_gallery)).
    + discriminate.
    + reflexivity.
Defined.

(** ** Bulk Clear *)

Lemma get_keys_spec w r w' :
  api_delete_images.get_keys w = (r, w') -> txn w = None ->
  exists d, run w w' d [] [] /\ deletions d = [].
Proof.
  intros H Ht. world w. cbn in Ht. subst tx.
  cbv beta delta [api_delete_images.get_keys] in H. unfold_control H.
  exec H.
  all: finish H; run_delta.
  all: rewrite ?app_nil_r; repeat split; auto; lia.
Qed.

Lemma get_keys_phase_spec w r w' :
  pRetry 2 api_delete_images.get_keys w = (r, w') -> txn w = None ->
  exists d, run w w' d [] [] /\ deletions d = [].
Proof.
  intros H Ht.
  pose (Keep := fun v : World => exists d, run w v d [] [] /\ deletions d = []).
  assert (Hstep : forall v r1 v', api_delete_images.get_keys v = (r1, v') ->
            Keep v -> match r1 with Ok _ => Keep v' | Throw _ => Keep v' /\ True end).
  { intros v r1 v' E (d & Hrun & Hd).
    assert (Ht1 : txn v = None) by apply Hrun.
    destruct (@get_keys_spec _ _ _ E Ht1) as (d1 & Hrun1 & Hd1).
    pose proof (run_trans Hrun Hrun1) as R. cbn [app] in R.
    assert (K : Keep v').
    { exists (d ++ d1). split; [exact R|]. rewrite deletions_app, Hd, Hd1. reflexivity. }
    destruct r1; auto. }
  assert (HI : Keep w) by (exists []; split; [apply run_refl; auto | reflexivity]).
  pose proof (@pRetry_inv _ _ Keep (fun _ v => Keep v) (fun _ _ => True) Hstep 2 _ _ _ H HI) as R.
  destruct r; [exact R | exact (proj1 R)].
Qed.

(** When [clear_db] returns, the two tables are empty and the id counter
    is reset; it never touches the bucket. *)
Lemma clear_db_spec w r w' :
  api_delete_images.clear_db w = (r, w') -> txn w = None ->
  exists d, log w' = log w ++ d /\ deletions d = [] /\
    users w' = users w /\ bucket w' = bucket w /\
    match r with
    | Ok _ => assets w' = [] /\ labels w' = [] /\ auto_increment w' = 1001
    | Throw _ => True
    end.
Proof.
  intros H Ht. world w. cbn in Ht. subst tx.
  cbv beta delta [api_delete_images.clear_db api_delete_images.delete_sql] in H.
  cbn [for_of] in H. unfold_control H.
  repeat exec H.
  all: finish H; log_delta.
  all: repeat split; auto.
Qed.

Lemma clear_bkt_spec keydict w r w' :
  api_delete_images.clear_bkt keydict w = (r, w') ->
  exists d, log w' = log w ++ d /\
    users w' = users w /\ assets w' = assets w /\ labels w' = labels w /\
    auto_increment w' = auto_increment w /\
    match r with
    | Ok _ => deletions d = [None]
    | Throw e => deletions d = [Some (message e)] /\ bucket w' = bucket w
    end.
Proof.
  intros H. world w.
  cbv beta delta [api_delete_images.clear_bkt] in H. unfold_control H.
  exec H.
  all: finish H; log_delta.
  all: repeat split; auto.
Qed.

(** C5 (counterexample): the database is cleared and its transaction
    committed, the deletion of the objects fails, and the handler answers
    with status 500 and the bucket's error, not with "success". *)
Lemma bulk_clear_surfaces_bucket_failure :
  assets (snd (api_delete_images.delete_images
                 (set_s3_faults [Some "AccessDenied"] sample_gallery))) = [] /\
  commits (log (snd (api_delete_images.delete_images
                       (set_s3_faults [Some "AccessDenied"] sample_gallery)))) = [[]] /\
  deletions (log (snd (api_delete_images.delete_images
                         (set_s3_faults [Some "AccessDenied"] sample_gallery))))
  = [Some "AccessDenied"] /\
  fst (api_delete_images.delete_images
         (set_s3_faults [Some "AccessDenied"] sample_gallery))
  = Some (500, JObj [("message", JStr "AccessDenied")]) /\
  fst (api_delete_images.delete_images
         (set_s3_faults [Some "AccessDenied"] sample_gallery))
  <> Some (200, JObj [("message", JStr "success")]).
Proof.
  vm_compute. repeat split; discriminate.
Qed.

(** C5 (amended): whenever the deletion of the objects fails during a Bulk
    Clear, the handler answers with status 500 and the message of that
    failure; the database is cleared all the same (both tables empty, the
    id counter reset) and the bucket keeps its objects. *)
Theorem bucket_failure_is_reported w response w' d msg :
  api_delete_images.delete_images w = (response, w') ->
  log w' = log w ++ d -> In (Some msg) (deletions d) ->
  response = Some (500, JObj [("message", JStr msg)]) /\
  assets w' = [] /\ labels w' = [] /\ auto_increment w' = 1001 /\
  bucket w' = bucket w.
Proof.
  intros H Hlog Hdel. world w. cbn [log bucket] in *.
  cbv beta delta [api_delete_images.delete_images] in H. exec H.
  { injection H as _ <-. cbn [log] in Hlog. apply app_inv_head in Hlog.
    subst d. destruct Hdel. }
  destruct (api_delete_images.try_block _) as [settled w3] eqn:E.
  injection H as <- <-.
  destruct (dbConn_end_spec w3) as (_ & Ea & El & Eb & Ei & _ & t & Ht & Hc & _).
  cbv zeta in *. apply commands_nil_quiet in Hc. destruct Hc as (_ & _ & _ & Tde).
  rewrite Ea, El, Eb, Ei. rewrite Ht in Hlog. clear Ea El Eb Ei Ht.
  cbv beta delta [api_delete_images.try_block bind ret] in E.
  destruct (pRetry 2 _ _) as [[keys|e1] w1] eqn:E1;
    apply get_keys_phase_spec in E1; try reflexivity;
    destruct E1 as (dA & (LA & _ & _ & UA & KA & TA & _) & DA);
    cbn [log bucket] in *.
  2:{ injection E as <- <-. rewrite LA, <- !app_assoc in Hlog.
      apply app_inv_head in Hlog. subst d.
      change (In (Some msg) (deletions ([mkEvent CConnect None] ++ dA ++ t))) in Hdel.
      rewrite !deletions_app, DA, Tde in Hdel. destruct Hdel. }
  destruct (api_delete_images.clear_db w1) as [[[]|e2] w2] eqn:E2;
    apply clear_db_spec in E2; auto;
    destruct E2 as (dB & LB & DB & UB & KB & RB).
  2:{ injection E as <- <-. rewrite LB, LA, <- !app_assoc in Hlog.
      apply app_inv_head in Hlog. subst d.
      change (In (Some msg) (deletions ([mkEvent CConnect None] ++ dA ++ dB ++ t))) in Hdel.
      rewrite !deletions_app, DA, DB, Tde in Hdel. destruct Hdel. }
  destruct RB as (AB & BB & IB).
  destruct keys as [|k keys].
  { injection E as <- <-. rewrite LB, LA, <- !app_assoc in Hlog.
    apply app_inv_head in Hlog. subst d.
    change (In (Some msg) (deletions ([mkEvent CConnect None] ++ dA ++ dB ++ t))) in Hdel.
    rewrite !deletions_app, DA, DB, Tde in Hdel. destruct Hdel. }
  apply clear_bkt_spec in E.
  destruct E as (dC & LC & UC & AC & BC & IC & RC).
  rewrite LC, LB, LA, <- !app_assoc in Hlog.
  apply app_inv_head in Hlog. subst d.
  change (In (Some msg) (deletions ([mkEvent CConnect None] ++ dA ++ dB ++ dC ++ t)))
    in Hdel.
  rewrite !deletions_app, DA, DB, Tde in Hdel. cbn [app deletions flat_map] in Hdel.
  rewrite app_nil_r in Hdel. fold (deletions dC) in Hdel.
  destruct settled as [[]|e3].
  - rewrite RC in Hdel. destruct Hdel as [Hm|[]]. discriminate Hm.
  - destruct RC as (RC & KC). rewrite RC in Hdel. destruct Hdel as [Hm|[]].
    injection Hm as <-.
    repeat split; congruence.
Qed.

Lemma bucket_failure_is_reported_witness :
  fst (api_delete_images.delete_images
         (set_s3_faults [Some "AccessDenied"] sample_gallery))
  = Some (500, JObj [("message", JStr "AccessDenied")]).
Proof.
  eapply (@bucket_failure_is_reported
            (set_s3_faults [Some "AccessDenied"] sample_gallery) _ _
            (log (snd (api_delete_images.delete_images
                         (set_s3_faults [Some "AccessDenied"] sample_gallery))))
            "AccessDenied").
  - vm_compute. reflexivity.
  - vm_compute. reflexivity.
  - vm_compute. left. reflexivity.
Defined.

(** ** Further properties of the handlers *)

(** X1: an upload whose owner id matches no row of [users] creates nothing,
    whatever fails on the way: the handler answers 400 or 500 with
    [assetid: -1], and the assets, the labels and the bucket are what they
    were. *)
Theorem unknown_owner_creates_nothing request w response w' :
  api_post_image.post_image request w = (Some response, w') ->
  filter (fun u => u_userid u =? api_post_image.params_userid request) (users w) = [] ->
  (fst response = 400 \/ fst response = 500) /\
  (exists msg, snd response = JObj [("message", JStr msg); ("assetid", JNum (-1))]) /\
  assets w' = assets w /\ labels w' = labels w /\ bucket w' = bucket w.
Proof.
  intros H Hnone. world w. cbn [users assets labels bucket] in *.
  cbv beta delta [api_post_image.post_image] in H. exec H.
  { discriminate H. }
  destruct (api_post_image.try_block _ _) as [settled w1] eqn:E.
  injection H as <- <-.
  destruct (dbConn_end_spec w1) as (_ & Ea & El & Eb & _).
  cbv zeta in *. rewrite Ea, El, Eb. clear Ea El Eb.
  cbv beta zeta delta [api_post_image.try_block bind] in E.
  destruct (pRetry 2 _ _) as [[name|e] w0] eqn:E1;
    apply lookup_phase_spec in E1; try reflexivity;
    destruct E1 as (_ & Hno & d & (_ & A & L & _ & B & _) & _);
    destruct (Hno Hnone) as (e' & He); try discriminate He.
  injection E as <- <-. cbn [assets labels bucket] in *.
  rewrite app_nil_r in A, L.
  split; [destruct (instanceof_ValueError e); cbn; auto|].
  split; [eexists; reflexivity|]. auto.
Qed.

Lemma unknown_owner_creates_nothing_witness :
  bucket (snd (api_post_image.post_image
                 (api_post_image.mkRequest 999999 "cat.jpg" "QUJD")
                 (set_db_faults [None; None; Some "read ECONNRESET"] sample_gallery)))
  = bucket sample_gallery.
Proof.
  eapply (@unknown_owner_creates_nothing
            (api_post_image.mkRequest 999999 "cat.jpg" "QUJD")
            (set_db_faults [None; None; Some "read ECONNRESET"] sample_gallery)).
  - vm_compute. reflexivity.
  - reflexivity.
Defined.

(** X2: a successful upload is given an id that no asset had before (when
    every id in the table was handed out by the counter), its row is
    appended to [assets], and the bucket holds the uploaded data under the
    key of that row. *)
Theorem upload_assigns_fresh_id request w a w' :
  api_post_image.post_image request w
  = (Some (200, JObj [("message", JStr "success"); ("assetid", JNum a)]), w') ->
  ids_below w ->
  (forall r, In r (assets w) -> assetid r < a) /\
  exists key,
    assets w' = assets w ++
      [mkAsset a (api_post_image.params_userid request)
         (api_post_image.body_local_filename request) key] /\
    lookup_key key (bucket w')
    = Some (Buffer_from (api_post_image.body_data request)).
Proof.
  intros H (Hba & _). world w.
  cbn [assets labels auto_increment bucket] in *.
  cbv beta delta [api_post_image.post_image] in H. exec H.
  { discriminate H. }
  destruct (api_post_image.try_block _ _) as [settled w1] eqn:E.
  apply try_block_anatomy in E; [|reflexivity].
  destruct E as (_ & _ & d0 & Hd & E).
  destruct (dbConn_end_spec w1) as (_ & Ea & _ & Eb & _).
  cbv zeta in *. cbn [log assets labels auto_increment bucket] in *.
  assert (Hok : settled = Ok a).
  { destruct settled as [a0|e]; [congruence|].
    destruct (instanceof_ValueError e); discriminate H. }
  subst settled. injection H as <-.
  destruct E as [(e & He & _)
                |(key & Hkey & [(e & He & _)
                               |(a' & d1 & d2 & _ & Ha & Hfresh & _ & _ & _ & _ & E)])];
    try discriminate He.
  destruct E as [(msg' & He & _)|[(e & He & _)|(cands & He & _)]];
    try discriminate He.
  injection He as <-. split.
  - intros r Hr. specialize (Hba r Hr). lia.
  - exists key. rewrite Ea, Eb. auto.
Qed.

Lemma upload_assigns_fresh_id_witness :
  (forall r, In r (assets sample_gallery) -> assetid r < 1002) /\
  exists key,
    assets (snd (api_post_image.post_image sample_upload
                   (set_uuids ["u2"] sample_gallery)))
    = assets sample_gallery ++ [mkAsset 1002 80001 "cat.jpg" key] /\
    lookup_key key
      (bucket (snd (api_post_image.post_image sample_upload
                      (set_uuids ["u2"] sample_gallery))))
    = Some (Buffer_from "QUJD").
Proof.
  apply (@upload_assigns_fresh_id sample_upload
           (set_uuids ["u2"] sample_gallery) 1002
           (snd (api_post_image.post_image sample_upload
                   (set_uuids ["u2"] sample_gallery)))).
  - vm_compute. reflexivity.
  - split; intros r Hr; repeat (destruct Hr as [<-|Hr]; [cbn; lia|]); destruct Hr.
Defined.

(** ** The connection of the other handlers *)

(** X3: Upload, Retrieve and Bulk Clear end the connection they acquired,
    on every path: their [finally] block runs [dbConn.end()]. *)
Theorem finally_blocks_end_connection w :
  hd None (db_faults w) = None ->
  (forall request,
      is_live (dbConn (snd (api_post_image.post_image request w))) = false) /\
  (forall s, is_live (dbConn (snd (api_get_image.get_image s w))) = false) /\
  is_live (dbConn (snd (api_delete_images.delete_images w))) = false.
Proof.
  intros Hc. world w. cbn [db_faults] in Hc.
  split; [|split].
  - intros request.
    destruct (api_post_image.post_image request _) as [response w'] eqn:H.
    cbv beta delta [api_post_image.post_image] in H. exec H.
    destruct (api_post_image.try_block _ _) as [settled w1].
    injection H as _ <-. apply finally_closes.
  - intros s.
    destruct (api_get_image.get_image s _) as [response w'] eqn:H.
    cbv beta delta [api_get_image.get_image] in H. exec H.
    destruct (api_get_image.try_block _ _) as [settled w1].
    injection H as _ <-. apply finally_closes.
  - destruct (api_delete_images.delete_images _) as [response w'] eqn:H.
    cbv beta delta [api_delete_images.delete_images] in H. exec H.
    destruct (api_delete_images.try_block _) as [settled w1].
    injection H as _ <-. apply finally_closes.
Qed.

Lemma finally_blocks_end_connection_witness :
  is_live (dbConn (snd (api_post_image.post_image sample_upload sample_world)))
  = false.
Proof.
  apply (proj1 (@finally_blocks_end_connection sample_world eq_refl)).
Defined.

(** ** A Bulk Clear that succeeds *)

(** X4: when Bulk Clear answers "success", both tables are empty, the id
    counter is reset to 1001, and a List that the database serves returns
    the empty list. *)
Theorem bulk_clear_empties_the_tables w w' :
  api_delete_images.delete_images w
  = (Some (200, JObj [("message", JStr "success")]), w') ->
  assets w' = [] /\ labels w' = [] /\ auto_increment w' = 1001 /\
  forall v, same_store v w' -> serves 2 (db_faults v) ->
    fst (api_get_images.get_images None v)
    = Some (200, JObj [("message", JStr "success"); ("data", JArr [])]).
Proof.
  intros H. world w.
  cbv beta delta [api_delete_images.delete_images] in H. exec H.
  { discriminate H. }
  destruct (api_delete_images.try_block _) as [settled w3] eqn:E.
  destruct (dbConn_end_spec w3) as (_ & Ea & El & _ & Ei & _).
  cbv zeta in *.
  assert (Hok : settled = Ok tt).
  { destruct settled as [[]|e]; [reflexivity | discriminate H]. }
  subst settled. injection H as <-. rewrite Ea, El, Ei.
  cbv beta delta [api_delete_images.try_block bind ret] in E.
  destruct (pRetry 2 _ _) as [[keys|e1] w1] eqn:E1; cbv beta iota zeta in E.
  2:{ discriminate E. }
  apply get_keys_phase_spec in E1; [|reflexivity].
  destruct E1 as (dA & (_ & _ & _ & _ & _ & TA & _) & _).
  destruct (api_delete_images.clear_db w1) as [[[]|e2] w2] eqn:E2;
    cbv beta iota in E.
  2:{ discriminate E. }
  apply clear_db_spec in E2; auto.
  destruct E2 as (dB & _ & _ & _ & _ & AB & BB & IB).
  assert (Hsame : assets w3 = [] /\ labels w3 = [] /\ auto_increment w3 = 1001).
  { destruct keys as [|k keys].
    - injection E as <-. auto.
    - apply clear_bkt_spec in E. destruct E as (dC & _ & _ & AC & BC & IC & _).
      repeat split; congruence. }
  destruct Hsame as (A3 & L3 & I3).
  split; [exact A3|]. split; [exact L3|]. split; [exact I3|].
  intros v (_ & Sa & _) Hs. rewrite Ea, A3 in Sa.
  rewrite (get_images_all v Hs), Sa. reflexivity.
Qed.

Lemma bulk_clear_empties_the_tables_witness :
  assets (snd (api_delete_images.delete_images sample_gallery)) = [].
Proof.
  eapply (@bulk_clear_empties_the_tables sample_gallery).
  vm_compute. reflexivity.
Defined.

(** ** Sorting keeps the rows *)

Lemma insert_label_perm coll x rows :
  Permutation (insert_label coll x rows) (x :: rows).
Proof.
  induction rows as [|y rows IH]; cbn; [reflexivity|].
  destruct (text_leb coll (label x) (label y)); [reflexivity|].
  rewrite IH. apply perm_swap.
Qed.

Lemma order_by_label_perm coll rows : Permutation (order_by_label coll rows) rows.
Proof.
  induction rows as [|x rows IH]; cbn; [constructor|].
  rewrite insert_label_perm. constructor. exact IH.
Qed.

Lemma insert_asset_perm x rows : Permutation (insert_asset x rows) (x :: rows).
Proof.
  induction rows as [|y rows IH]; cbn; [reflexivity|].
  destruct (assetid x <=? assetid y); [reflexivity|].
  rewrite IH. apply perm_swap.
Qed.

Lemma order_by_assetid_perm rows : Permutation (order_by_assetid rows) rows.
Proof.
  induction rows as [|x rows IH]; cbn; [constructor|].
  rewrite insert_asset_perm. constructor. exact IH.
Qed.

Lemma insert_asset_sorted x rows :
  Sorted asset_le rows -> Sorted asset_le (insert_asset x rows).
Proof.
  induction rows as [|y rows IH]; intros Hs; cbn.
  - repeat constructor.
  - destruct (assetid x <=? assetid y) eqn:E.
    + constructor; [exact Hs|]. constructor. apply Z.leb_le. exact E.
    + apply Sorted_inv in Hs. destruct Hs as (Hs & Hd).
      constructor; [apply IH; exact Hs|].
      assert (Hyx : asset_le y x) by (apply Z.leb_gt in E; unfold asset_le; lia).
      destruct rows as [|z rows]; cbn.
      * constructor. exact Hyx.
      * destruct (assetid x <=? assetid z); constructor;
          [exact Hyx | apply HdRel_inv in Hd; exact Hd].
Qed.

Lemma order_by_assetid_sorted rows : Sorted asset_le (order_by_assetid rows).
Proof.
  induction rows as [|x rows IH]; cbn; [constructor|].
  apply insert_asset_sorted. exact IH.
Qed.

(** ** List Assets: attempts and connections *)

Lemma connects_app d1 d2 : connects (d1 ++ d2) = (connects d1 + connects d2)%nat.
Proof. unfold connects. rewrite filter_app, length_app. reflexivity. Qed.

Lemma ends_app d1 d2 : ends (d1 ++ d2) = (ends d1 + ends d2)%nat.
Proof. unfold ends. rewrite filter_app, length_app. reflexivity. Qed.

Lemma failures_app d1 d2 : failures (d1 ++ d2) = failures d1 ++ failures d2.
Proof. apply flat_map_app. Qed.

(** One attempt of [try_get_images], entered without a live connection:
    it opens at most one connection and ends it, fails at most one call,
    and leaves the tables and the bucket alone. *)
Lemma try_get_images_spec uid w r w' :
  api_get_images.try_get_images uid w = (r, w') ->
  is_live (dbConn w) = false ->
  is_live (dbConn w') = false /\ same_store w' w /\
  exists d, log w' = log w ++ d /\ connects d = ends d /\
    match r with
    | Ok _ => failures d = []
    | Throw e => failures d = [message e]
    end.
Proof.
  intros H Hl. world w. cbn [dbConn] in Hl.
  cbv beta delta [api_get_images.try_get_images] in H. unfold_control H.
  destruct (0 <=? uid), (uid =? 0).
  all: exec H; [destruct dc; try discriminate Hl | exec H].
  all: reduce_end H; finish H.
  all: split; [reflexivity|]; split; [repeat split|].
  all: log_delta; split; reflexivity.
Qed.

(** The three attempts of [pRetry]. *)
Lemma list_phase_spec uid w r w' :
  pRetry 2 (api_get_images.try_get_images uid) w = (r, w') ->
  is_live (dbConn w) = false ->
  is_live (dbConn w') = false /\ same_store w' w /\
  exists d, log w' = log w ++ d /\ connects d = ends d /\
    match r with
    | Ok _ => (List.length (failures d) <= 2)%nat
    | Throw e => exists m1 m2, failures d = [m1; m2; message e]
    end.
Proof.
  intros H Hl. cbn [pRetry] in H.
  destruct (api_get_images.try_get_images uid w) as [r1 w1] eqn:E1.
  apply try_get_images_spec in E1; [|exact Hl].
  destruct E1 as (L1 & S1 & d1 & G1 & C1 & F1).
  destruct r1 as [rows|e1].
  { injection H as <- <-. split; [exact L1|]. split; [exact S1|].
    exists d1. rewrite F1. cbn. repeat split; auto; lia. }
  destruct (api_get_images.try_get_images uid w1) as [r2 w2] eqn:E2.
  apply try_get_images_spec in E2; [|exact L1].
  destruct E2 as (L2 & S2 & d2 & G2 & C2 & F2).
  assert (S12 : same_store w2 w).
  { destruct S1 as (? & ? & ? & ?), S2 as (? & ? & ? & ?). repeat split; congruence. }
  destruct r2 as [rows|e2].
  { injection H as <- <-. split; [exact L2|]. split; [exact S12|].
    exists (d1 ++ d2). rewrite G2, G1, app_assoc, connects_app, ends_app, failures_app, F1, F2.
    cbn. repeat split; auto; lia. }
  destruct (api_get_images.try_get_images uid w2) as [r3 w3] eqn:E3.
  apply try_get_images_spec in E3; [|exact L2].
  destruct E3 as (L3 & S3 & d3 & G3 & C3 & F3).
  assert (Hr : r = r3 /\ w' = w3) by (destruct r3; injection H as <- <-; auto).
  destruct Hr as (-> & ->). clear H.
  split; [exact L3|]. split.
  { destruct S12 as (? & ? & ? & ?), S3 as (? & ? & ? & ?). repeat split; congruence. }
  exists (d1 ++ d2 ++ d3).
  rewrite G3, G2, G1, <- !app_assoc, !connects_app, !ends_app, !failures_app, F1, F2.
  split; [reflexivity|]. split; [lia|].
  destruct r3 as [rows|e3]; rewrite F3; cbn; [lia|]. eauto.
Qed.

(** The [try] block of [get_images]. *)
Lemma list_try_block_spec query w r w' :
  api_get_images.try_block query w = (r, w') ->
  is_live (dbConn w) = false ->
  is_live (dbConn w') = false /\ same_store w' w /\
  exists d, log w' = log w ++ d /\ connects d = ends d /\
    match r with
    | Ok _ => (List.length (failures d) <= 2)%nat
    | Throw e =>
        (exists m1 m2, failures d = [m1; m2; message e]) \/
        (d = [] /\ message e = "get_images(): userid is not numeric")
    end.
Proof.
  intros H Hl. cbv beta zeta delta [api_get_images.try_block] in H.
  destruct (match query with
            | None => Some (-1)
            | Some EmptyString => Some (-1)
            | Some s => parseInt s
            end) as [uid|].
  - apply list_phase_spec in H; [|exact Hl].
    destruct H as (L & S & d & G & C & F).
    split; [exact L|]. split; [exact S|]. exists d.
    split; [exact G|]. split; [exact C|]. destruct r; auto.
  - injection H as <- <-. split; [exact Hl|]. split; [repeat split|].
    exists []. rewrite app_nil_r. auto.
Qed.

(** X5: List Assets never leaves a connection open, whatever the filter and
    whatever fails: every connection that an attempt opened has been ended
    when the handler answers, and the tables and the bucket are untouched. *)
Theorem list_assets_closes_every_connection query w :
  is_live (dbConn (snd (api_get_images.get_images query w))) = false /\
  same_store (snd (api_get_images.get_images query w)) w /\
  exists d, log (snd (api_get_images.get_images query w)) = log w ++ d /\
            connects d = ends d.
Proof.
  cbv beta zeta delta [api_get_images.get_images].
  destruct (api_get_images.try_block query _) as [r w1] eqn:E.
  apply list_try_block_spec in E; [|reflexivity].
  destruct E as (L & S & d & G & C & _).
  destruct r; cbn [snd]; (split; [exact L|]; split; [exact S|]; exists d; auto).
Qed.



(** ** List Assets: the owner filter *)

(** X7: List Assets with a positive owner filter, on a database that serves
    the request: the answer is "success" with the asset rows of that owner
    and of no other, each row once, in the order of the ids. *)
Theorem owner_filter_lists_the_owners_assets s uid w :
  parseInt s = Some uid -> 0 < uid -> serves 2 (db_faults w) ->
  exists rows,
    fst (api_get_images.get_images (Some s) w)
    = Some (200, JObj [("message", JStr "success");
                       ("data", JArr (map asset_json rows))]) /\
    Permutation rows (filter (fun r => userid r =? uid) (assets w)) /\
    Sorted asset_le rows.
Proof.
  intros Hs Hpos (S1 & S2 & _).
  assert (Hne : s <> "") by (intros ->; discriminate Hs).
  exists (order_by_assetid (filter (fun r => userid r =? uid) (assets w))).
  split; [|split; [apply order_by_assetid_perm | apply order_by_assetid_sorted]].
  world w. cbn [db_faults assets] in *.
  destruct (api_get_images.get_images (Some s) _) as [response v'] eqn:H.
  cbv beta zeta delta [api_get_images.get_images api_get_images.try_block
                       api_get_images.try_get_images] in H.
  destruct s as [|c s]; [contradiction|]. rewrite Hs in H.
  cbn [pRetry] in H. unfold_control H. reduce_world H.
  replace (0 <=? uid) with true in H by (symmetry; apply Z.leb_le; lia).
  replace (uid =? 0) with false in H by (symmetry; apply Z.eqb_neq; lia).
  repeat exec H. reduce_end H. injection H as <- <-. reflexivity.
Qed.

Lemma owner_filter_lists_the_owners_assets_witness :
  exists rows,
    fst (api_get_images.get_images (Some "80001") sample_gallery)
    = Some (200, JObj [("message", JStr "success");
                       ("data", JArr (map asset_json rows))]) /\
    Permutation rows (filter (fun r => userid r =? 80001) (assets sample_gallery)) /\
    Sorted asset_le rows.
Proof.
  apply (@owner_filter_lists_the_owners_assets "80001" 80001 sample_gallery).
  - reflexivity.
  - lia.
  - cbn. auto.
Defined.

(** X8: the owner filter 0 is never answered with a list: the statement is
    sent with its [Where userid = ?] clause and without the parameter, so
    every attempt fails. *)
Theorem owner_filter_zero_is_rejected s w :
  s <> "" -> parseInt s = Some 0 ->
  exists msg,
    fst (api_get_images.get_images (Some s) w)
    = Some (500, JObj [("message", JStr msg); ("data", JArr [])]) /\
    (serves 6 (db_faults w) -> msg = wrong_arguments).
Proof.
  intros Hne Hs. world w.
  destruct (api_get_images.get_images (Some s) _) as [response v'] eqn:H.
  cbv beta zeta delta [api_get_images.get_images api_get_images.try_block
                       api_get_images.try_get_images] in H.
  destruct s as [|c s]; [contradiction|]. rewrite Hs in H.
  cbn [pRetry] in H. unfold_control H. reduce_world H.
  change (0 <=? 0) with true in H. change (0 =? 0) with true in H.
  cbn [db_faults].
  repeat (first [exec H | progress reduce_end H]).
  all: injection H as <- <-; eexists; (split; [reflexivity|]).
  all: intros (S1 & S2 & S3 & S4 & S5 & S6 & _); cbn [tl] in *.
  all: try congruence.
  all: reflexivity.
Qed.

Lemma owner_filter_zero_is_rejected_witness :
  exists msg,
    fst (api_get_images.get_images (Some "0") sample_gallery)
    = Some (500, JObj [("message", JStr msg); ("data", JArr [])]) /\
    (serves 6 (db_faults sample_gallery) -> msg = wrong_arguments).
Proof.
  apply (@owner_filter_zero_is_rejected "0" sample_gallery).
  - discriminate.
  - reflexivity.
Defined.

(** X9: a negative owner filter is taken for the absence of a filter: on
    a database that serves the request, every asset row is listed, each row
    once, in the order of the ids. *)
Theorem negative_owner_filter_lists_everything s uid w :
  parseInt s = Some uid -> uid < 0 -> serves 2 (db_faults w) ->
  exists rows,
    fst (api_get_images.get_images (Some s) w)
    = Some (200, JObj [("message", JStr "success");
                       ("data", JArr (map asset_json rows))]) /\
    Permutation rows (assets w) /\
    Sorted asset_le rows.
Proof.
  intros Hs Hneg (S1 & S2 & _).
  assert (Hne : s <> "") by (intros ->; discriminate Hs).
  exists (order_by_assetid (assets w)).
  split; [|split; [apply order_by_assetid_perm | apply order_by_assetid_sorted]].
  world w. cbn [db_faults assets] in *.
  destruct (api_get_images.get_images (Some s) _) as [response v'] eqn:H.
  cbv beta zeta delta [api_get_images.get_images api_get_images.try_block
                       api_get_images.try_get_images] in H.
  destruct s as [|c s]; [contradiction|]. rewrite Hs in H.
  cbn [pRetry] in H. unfold_control H. reduce_world H.
  replace (0 <=? uid) with false in H by (symmetry; apply Z.leb_gt; lia).
  replace (uid =? 0) with false in H by (symmetry; apply Z.eqb_neq; lia).
  repeat exec H. reduce_end H. injection H as <- <-. reflexivity.
Qed.

Lemma negative_owner_filter_lists_everything_witness :
  exists rows,
    fst (api_get_images.get_images (Some "-7") sample_gallery)
    = Some (200, JObj [("message", JStr "success");
                       ("data", JArr (map asset_json rows))]) /\
    Permutation rows (assets sample_gallery) /\
    Sorted asset_le rows.
Proof.
  apply (@negative_owner_filter_lists_everything "-7" (-7) sample_gallery).
  - reflexivity.
  - lia.
  - cbn. auto.
Defined.

(** ** Retrieve: the failures *)

(** X10: Retrieve of an id that no asset has: after three lookups the handler
    answers with status 500 (not with a caller error), the message
    "get_image: no such assetid" and userid -1; the bucket is not asked. *)
Theorem retrieve_unknown_asset_is_a_server_error s a w :
  parseInt s = Some a -> assets_with_id (Some a) w = [] ->
  serves 4 (db_faults w) ->
  fst (api_get_image.get_image s w)
  = Some (500, JObj [("message", JStr "get_image: no such assetid");
                     ("userid", JNum (-1))]) /\
  log (snd (api_get_image.get_image s w))
  = log w ++ [mkEvent CConnect None;
              mkEvent (CExecute (SelectAssetRow a)) None;
              mkEvent (CExecute (SelectAssetRow a)) None;
              mkEvent (CExecute (SelectAssetRow a)) None;
              mkEvent CEnd None] /\
  same_store (snd (api_get_image.get_image s w)) w.
Proof.
  intros Hs Hrow (S1 & S2 & S3 & S4 & _). world w.
  cbn [db_faults] in *. unfold assets_with_id in Hrow. cbn [assets] in Hrow.
  destruct (api_get_image.get_image s _) as [response v'] eqn:H.
  cbv beta zeta delta [api_get_image.get_image] in H. exec H.
  cbv beta zeta delta [api_get_image.try_block api_get_image.validate_assetid] in H.
  rewrite Hs in H. cbn [pRetry] in H. unfold_control H.
  repeat (exec H; unfold assets_with_id in H; cbn [assets] in H; rewrite Hrow in H;
          cbv beta iota in H).
  reduce_end H. injection H as <- <-. cbn [fst snd log].
  split; [reflexivity|]. split; [|repeat split].
  rewrite <- !app_assoc. reflexivity.
Qed.

Lemma retrieve_unknown_asset_is_a_server_error_witness :
  fst (api_get_image.get_image "4242" sample_gallery)
  = Some (500, JObj [("message", JStr "get_image: no such assetid");
                     ("userid", JNum (-1))]).
Proof.
  apply (@retrieve_unknown_asset_is_a_server_error "4242" 4242 sample_gallery).
  - reflexivity.
  - reflexivity.
  - cbn. auto.
Defined.

(** X11: when the bucket fails the download of a Retrieve, or holds no object
    under the key of the asset row, the handler answers with status 500 and
    the bucket's message after that one command: the download is not
    retried. *)
Theorem retrieve_reports_bucket_failure s a row msg w :
  parseInt s = Some a -> assets_with_id (Some a) w = [row] ->
  serves 2 (db_faults w) ->
  hd None (s3_faults w) = Some msg \/
  (hd None (s3_faults w) = None /\ lookup_key (bucketkey row) (bucket w) = None /\
   msg = "The specified key does not exist.") ->
  fst (api_get_image.get_image s w)
  = Some (500, JObj [("message", JStr msg); ("userid", JNum (-1))]) /\
  log (snd (api_get_image.get_image s w))
  = log w ++ [mkEvent CConnect None;
              mkEvent (CExecute (SelectAssetRow a)) None;
              mkEvent (CGetObject (bucketkey row)) (Some msg);
              mkEvent CEnd None].
Proof.
  intros Hs Hrow (S1 & S2 & _) Hfail. world w.
  cbn [db_faults s3_faults bucket] in *.
  unfold assets_with_id in Hrow. cbn [assets] in Hrow.
  destruct (api_get_image.get_image s _) as [response v'] eqn:H.
  cbv beta zeta delta [api_get_image.get_image] in H. exec H.
  cbv beta zeta delta [api_get_image.try_block api_get_image.validate_assetid
                       api_get_image.download_image_str] in H.
  rewrite Hs in H. cbn [pRetry] in H. unfold_control H.
  exec H. unfold assets_with_id in H. cbn [assets] in H. rewrite Hrow in H.
  cbv beta iota in H.
  destruct Hfail as [S3|(S3 & Hkey & ->)].
  all: exec H; reduce_end H; injection H as <- <-; cbn [fst snd log].
  all: split; [reflexivity|]; rewrite <- !app_assoc; reflexivity.
Qed.

Lemma retrieve_reports_bucket_failure_witness :
  fst (api_get_image.get_image "1001" (set_bucket [] sample_gallery))
  = Some (500, JObj [("message", JStr "The specified key does not exist.");
                     ("userid", JNum (-1))]).
Proof.
  apply (@retrieve_reports_bucket_failure "1001" 1001
           (mkAsset 1001 80001 "cat.jpg" "p_sarkar/u1-cat.jpg")
           "The specified key does not exist." (set_bucket [] sample_gallery)).
  - reflexivity.
  - reflexivity.
  - cbn. auto.
  - right. repeat split.
Defined.

(** ** List Labels on any gallery *)

(** X12: List Labels for an asset that the table holds once, on a database that
    serves the request: the answer is "success" with the label rows of that
    asset and of no other, each row once; the rows are in the order that the
    collation of the column gives the labels, whatever that collation is,
    as long as it orders any two texts. *)
Theorem list_labels_returns_the_assets_labels coll s a row w :
  parseInt s = Some a -> assets_with_id (Some a) w = [row] ->
  serves 3 (db_faults w) ->
  exists rows,
    fst (api_get_image_labels.get_image_labels coll s w)
    = Some (200, JObj [("message", JStr "success");
                       ("data", JArr (map label_json rows))]) /\
    Permutation rows (filter (fun l => l_assetid l =? a) (labels w)) /\
    (text_total coll -> Sorted (label_le coll) rows).
Proof.
  intros Hs Hrow Hd.
  exists (labels_of coll (Some a) w). split; [|split].
  - rewrite <- Hs.
    apply (@get_image_labels_found coll s row w); [rewrite Hs; exact Hrow | exact Hd].
  - apply order_by_label_perm.
  - apply order_by_label_sorted.
Qed.

Lemma list_labels_returns_the_assets_labels_witness :
  exists rows,
    fst (api_get_image_labels.get_image_labels ascii_ci "1001" sample_gallery)
    = Some (200, JObj [("message", JStr "success");
                       ("data", JArr (map label_json rows))]) /\
    Permutation rows (filter (fun l => l_assetid l =? 1001) (labels sample_gallery)) /\
    Sorted (label_le ascii_ci) rows.
Proof.
  destruct (@list_labels_returns_the_assets_labels ascii_ci "1001" 1001
              (mkAsset 1001 80001 "cat.jpg" "p_sarkar/u1-cat.jpg") sample_gallery)
    as (rows & Hrows & Hperm & Hsorted).
  - reflexivity.
  - reflexivity.
  - cbn. auto.
  - exists rows. split; [exact Hrows|]. split; [exact Hperm|].
    apply Hsorted. exact ascii_ci_total.
Defined.

(** ** The label search *)















(** X14: when the statement of a label search fails, the retries cannot
    succeed: the [finally] block of the first attempt has ended the
    connection, the two further attempts are refused on it, and the answer
    carries the message of that refusal instead of the failure that caused
    it. *)
Theorem label_search_retries_on_ended_connection coll word w msg :
  hd None (db_faults w) = None -> hd None (tl (db_faults w)) = Some msg ->
  fst (api_get_images_with_label.get_images_with_label coll word w)
  = Some (500, JObj [("message", JStr closed_state); ("data", JArr [])]) /\
  log (snd (api_get_images_with_label.get_images_with_label coll word w))
  = log w ++
    [mkEvent CConnect None;
     mkEvent (CExecute (SelectLabelsLike ("%" ++ word ++ "%"))) (Some msg);
     mkEvent CEnd None;
     mkEvent (CExecute (SelectLabelsLike ("%" ++ word ++ "%"))) (Some closed_state);
     mkEvent (CExecute (SelectLabelsLike ("%" ++ word ++ "%"))) (Some closed_state)].
Proof.
  intros S1 S2. world w. cbn [db_faults] in *.
  destruct (api_get_images_with_label.get_images_with_label coll word _)
    as [response v'] eqn:H.
  cbv beta zeta delta [api_get_images_with_label.get_images_with_label] in H.
  exec H.
  cbv beta zeta delta [api_get_images_with_label.try_block
                       api_get_images_with_label.fetch_images] in H.
  cbn [pRetry] in H. unfold_control H.
  repeat (first [exec H | progress reduce_end H]).
  injection H as <- <-. cbn [fst snd log].
  split; [reflexivity|]. rewrite <- !app_assoc. reflexivity.
Qed.

Lemma label_search_retries_on_ended_connection_witness :
  fst (api_get_images_with_label.get_images_with_label binary "Cat"
         (set_db_faults [None; Some "read ECONNRESET"] sample_gallery))
  = Some (500, JObj [("message", JStr closed_state); ("data", JArr [])]).
Proof.
  apply (@label_search_retries_on_ended_connection binary "Cat"
           (set_db_faults [None; Some "read ECONNRESET"] sample_gallery)
           "read ECONNRESET").
  - reflexivity.
  - reflexivity.
Defined.

(** ** Footprints *)

Section Footprint.

Variable R : World -> World -> Prop.
Variable P : Call -> Prop.
Hypothesis R_refl : forall w, R w w.
Hypothesis R_trans : forall w v u, R w v -> R v u -> R w u.
Hypothesis R_store : forall w v, unchanged w v -> R w v.

Lemma footprint_ret {A : Type} (a : A) : footprint R P (ret a).
Proof.
  intros w r w' H. injection H as <- <-. split; [apply R_refl|].
  exists []. rewrite app_nil_r. auto.
Qed.

Lemma footprint_throw {A : Type} (e : JsError) : footprint R P (@throw A e).
Proof.
  intros w r w' H. injection H as <- <-. split; [apply R_refl|].
  exists []. rewrite app_nil_r. auto.
Qed.

Lemma footprint_step {A B : Type} (m : M A) (k : Result A -> M B) :
  footprint R P m -> (forall r, footprint R P (k r)) ->
  footprint R P (fun w => let (r, w') := m w in k r w').
Proof.
  intros Hm Hk w r w' H. destruct (m w) as [r1 w1] eqn:E.
  destruct (Hm _ _ _ E) as (R1 & d1 & L1 & F1).
  destruct (Hk _ _ _ _ H) as (R2 & d2 & L2 & F2).
  split; [exact (R_trans R1 R2)|].
  exists (d1 ++ d2). rewrite L2, L1, app_assoc. split; [reflexivity|].
  apply Forall_app. auto.
Qed.

Lemma footprint_bind {A B : Type} (m : M A) (k : A -> M B) :
  footprint R P m -> (forall a, footprint R P (k a)) -> footprint R P (bind m k).
Proof.
  intros Hm Hk.
  apply (@footprint_step _ _ m (fun r => match r with Ok a => k a | Throw e => throw e end)) in Hm.
  - intros w r w' H. apply (Hm w r w'). unfold bind in H.
    destruct (m w) as [[a|e] w1]; exact H.
  - intros [a|e]; [apply Hk | apply footprint_throw].
Qed.

Lemma footprint_try_catch {A : Type} (m : M A) (h : JsError -> M A) :
  footprint R P m -> (forall e, footprint R P (h e)) -> footprint R P (try_catch m h).
Proof.
  intros Hm Hh.
  apply (@footprint_step _ _ m (fun r => match r with Ok a => ret a | Throw e => h e end)) in Hm.
  - intros w r w' H. apply (Hm w r w'). unfold try_catch in H.
    destruct (m w) as [[a|e] w1]; exact H.
  - intros [a|e]; [apply footprint_ret | apply Hh].
Qed.

Lemma footprint_finally {A B : Type} (m : M A) (f : M B) :
  footprint R P m -> footprint R P f -> footprint R P (finally_ignoring m f).
Proof.
  intros Hm Hf w r w' H. unfold finally_ignoring in H.
  destruct (m w) as [r1 w1] eqn:E. injection H as <- <-.
  destruct (Hm _ _ _ E) as (R1 & d1 & L1 & F1).
  destruct (f w1) as [r2 w2] eqn:E2.
  destruct (Hf _ _ _ E2) as (R2 & d2 & L2 & F2). cbn [snd].
  split; [exact (R_trans R1 R2)|].
  exists (d1 ++ d2). rewrite L2, L1, app_assoc. split; [reflexivity|].
  apply Forall_app. auto.
Qed.

Lemma footprint_for_of {A : Type} (xs : list A) (body : A -> M unit) :
  (forall x, footprint R P (body x)) -> footprint R P (for_of xs body).
Proof.
  intros Hb. induction xs as [|x xs IH]; cbn [for_of].
  - apply footprint_ret.
  - apply footprint_bind; [apply Hb | intros _; exact IH].
Qed.

Lemma footprint_pRetry {A : Type} (op : M A) n :
  footprint R P op -> footprint R P (pRetry n op).
Proof.
  intros Hop. induction n as [|n IH].
  - intros w r w' H. cbn in H. apply (Hop w r w').
    destruct (op w) as [[a|e] w1]; exact H.
  - apply (@footprint_step _ _ op (fun r => match r with
                                            | Ok a => ret a
                                            | Throw _ => pRetry n op
                                            end)) in Hop.
    + intros w r w' H. apply (Hop w r w'). cbn [pRetry] in H.
      destruct (op w) as [[a|e] w1]; exact H.
    + intros [a|e]; [apply footprint_ret | exact IH].
Qed.

(** The calls: a command on [dbConn] logs itself and, when the lease has
    run out, the end of the connection. *)
Lemma footprint_db_call {A : Type} (c : Call) (on_fault : World -> World)
    (effect : World -> Result A * World) :
  P c -> P CEnd ->
  (forall w, log (on_fault w) = log w /\ R w (on_fault w)) ->
  (forall w r w', effect w = (r, w') -> log w' = log w /\ R w w') ->
  footprint R P (db_call c on_fault effect).
Proof.
  intros Pc Pe Hf He w r w' H. unfold db_call in H.
  assert (Hc : R w (charge w) /\
               exists d, log (charge w) = log w ++ d /\ Forall (fun e => P (call e)) d).
  { unfold charge. destruct (dbConn w) as [|[[|n]|]| |].
    all: split; [apply R_store; repeat split|].
    all: first [ exists []; rewrite app_nil_r; split; [reflexivity | constructor]
               | eexists; split; [reflexivity|]; repeat constructor; exact Pe ]. }
  destruct Hc as (Rc & dc & Lc & Fc). set (w0 := charge w) in *.
  assert (Hrec : forall o v, R w0 v -> log v = log w0 ->
            R w (record c o v) /\
            exists d, log (record c o v) = log w ++ d /\ Forall (fun e => P (call e)) d).
  { intros o v Rv Lv. split.
    - apply (R_trans Rc). apply (R_trans Rv). apply R_store. repeat split.
    - exists (dc ++ [mkEvent c o]). cbn [record set_log log]. rewrite Lv, Lc, app_assoc.
      split; [reflexivity|]. apply Forall_app. split; [exact Fc|].
      repeat constructor. exact Pc. }
  destruct (dbConn w0).
  2:{ destruct (hd None (db_faults w0)) as [msg|].
      - injection H as <- <-.
        destruct (Hf (set_db_faults (tl (db_faults w0)) w0)) as (Lf & Rf).
        apply Hrec; [|exact Lf].
        apply (R_trans (v := set_db_faults (tl (db_faults w0)) w0)); [|exact Rf].
        apply R_store. repeat split.
      - destruct (effect _) as [[a|e] w2] eqn:E; injection H as <- <-;
          destruct (He _ _ _ E) as (Le & Re);
          (apply Hrec; [|exact Le]);
          (apply (R_trans (v := set_db_faults (tl (db_faults w0)) w0)); [|exact Re]);
          apply R_store; repeat split. }
  all: injection H as <- <-; apply Hrec; [apply R_refl | reflexivity].
Qed.

Lemma footprint_bkt_send {A : Type} (c : Call) (effect : World -> Result A * World) :
  P c ->
  (forall w r w', effect w = (r, w') -> log w' = log w /\ R w w') ->
  footprint R P (bkt_send c effect).
Proof.
  intros Pc He w r w' H. unfold bkt_send in H.
  assert (Hrec : forall o v, R (set_s3_faults (tl (s3_faults w)) w) v ->
            log v = log w ->
            R w (record c o v) /\
            exists d, log (record c o v) = log w ++ d /\ Forall (fun e => P (call e)) d).
  { intros o v Rv Lv. split.
    - apply (R_trans (v := set_s3_faults (tl (s3_faults w)) w));
        [apply R_store; repeat split|].
      apply (R_trans Rv). apply R_store. repeat split.
    - exists [mkEvent c o]. cbn [record set_log log]. rewrite Lv.
      split; [reflexivity|]. repeat constructor. exact Pc. }
  destruct (hd None (s3_faults w)) as [msg|].
  - injection H as <- <-. apply Hrec; [apply R_refl | reflexivity].
  - destruct (effect _) as [[a|e] w2] eqn:E; injection H as <- <-;
      destruct (He _ _ _ E) as (Le & Re); apply Hrec; auto.
Qed.

Lemma footprint_get_dbConn : P CConnect -> footprint R P get_dbConn.
Proof.
  intros Pc w r w' H. unfold get_dbConn in H.
  destruct (hd None (db_faults w)); injection H as <- <-.
  all: split; [apply R_store; repeat split|].
  all: eexists; split; [reflexivity|]; repeat constructor; exact Pc.
Qed.

Lemma footprint_dbConn_end : P CEnd -> footprint R P dbConn_end.
Proof.
  intros Pe w r w' H. unfold dbConn_end in H.
  destruct (dbConn w); injection H as <- <-.
  all: split; [apply R_store; repeat split|].
  all: first [ exists []; rewrite app_nil_r; split; [reflexivity | constructor]
             | eexists; split; [reflexivity|]; repeat constructor; exact Pe ].
Qed.

End Footprint.

(** ** The class of the errors *)

Lemma server_errors_ret {A : Type} (a : A) : server_errors (ret a).
Proof. intros w e w' H. discriminate H. Qed.

Lemma server_errors_throw {A : Type} (e : JsError) :
  err_class e = Error -> server_errors (@throw A e).
Proof. intros He w e' w' H. injection H as <- <-. exact He. Qed.

Lemma server_errors_bind {A B : Type} (m : M A) (k : A -> M B) :
  server_errors m -> (forall a, server_errors (k a)) -> server_errors (bind m k).
Proof.
  intros Hm Hk w e w' H. unfold bind in H.
  destruct (m w) as [[a|e1] w1] eqn:E.
  - exact (Hk _ _ _ _ H).
  - injection H as <- <-. exact (Hm _ _ _ E).
Qed.

Lemma server_errors_try_catch {A : Type} (m : M A) (h : JsError -> M A) :
  server_errors m -> (forall e, err_class e = Error -> server_errors (h e)) ->
  server_errors (try_catch m h).
Proof.
  intros Hm Hh w e w' H. unfold try_catch in H.
  destruct (m w) as [[a|e1] w1] eqn:E; [discriminate H|].
  exact (Hh _ (Hm _ _ _ E) _ _ _ H).
Qed.

Lemma server_errors_rethrow {A : Type} (e : JsError) :
  err_class e = Error -> server_errors (@rethrow A e).
Proof. apply server_errors_throw. Qed.

Lemma server_errors_for_of {A : Type} (xs : list A) (body : A -> M unit) :
  (forall x, server_errors (body x)) -> server_errors (for_of xs body).
Proof.
  intros Hb. induction xs as [|x xs IH]; cbn [for_of].
  - apply server_errors_ret.
  - apply server_errors_bind; [apply Hb | intros _; exact IH].
Qed.

Lemma server_errors_pRetry {A : Type} (op : M A) n :
  server_errors op -> server_errors (pRetry n op).
Proof.
  intros Hop. induction n as [|n IH]; intros w e w' H; cbn [pRetry] in H.
  - destruct (op w) as [[a|e1] w1] eqn:E; [discriminate H|].
    injection H as <- <-. exact (Hop _ _ _ E).
  - destruct (op w) as [[a|e1] w1] eqn:E; [discriminate H|].
    exact (IH _ _ _ H).
Qed.

Lemma server_errors_db_call {A : Type} (c : Call) (on_fault : World -> World)
    (effect : World -> Result A * World) :
  server_errors effect -> server_errors (db_call c on_fault effect).
Proof.
  intros He w e w' H. unfold db_call in H.
  destruct (dbConn (charge w)); try (injection H as <- _; reflexivity).
  destruct (hd None (db_faults (charge w))); [injection H as <- _; reflexivity|].
  destruct (effect _) as [[a|e1] w2] eqn:E; [discriminate H|].
  injection H as <- _. exact (He _ _ _ E).
Qed.

Lemma server_errors_bkt_send {A : Type} (c : Call) (effect : World -> Result A * World) :
  server_errors effect -> server_errors (bkt_send c effect).
Proof.
  intros He w e w' H. unfold bkt_send in H.
  destruct (hd None (s3_faults w)); [injection H as <- _; reflexivity|].
  destruct (effect _) as [[a|e1] w2] eqn:E; [discriminate H|].
  injection H as <- _. exact (He _ _ _ E).
Qed.

Lemma server_errors_rkg_send n q : server_errors (rkg_send n q).
Proof.
  intros w e w' H. unfold rkg_send in H.
  destruct (hd _ (rkg_script w)); [discriminate H|].
  injection H as <- _. reflexivity.
Qed.

Lemma server_errors_pure {A : Type} (f : World -> A) (g : World -> World) :
  server_errors (fun w => (Ok (f w), g w)).
Proof. intros w e w' H. discriminate H. Qed.

Ltac server_errors_tac :=
  repeat first
    [ apply server_errors_ret
    | apply server_errors_pure
    | apply server_errors_throw; reflexivity
    | apply server_errors_rethrow; assumption
    | apply server_errors_rkg_send
    | apply server_errors_db_call
    | apply server_errors_bkt_send
    | apply server_errors_pRetry
    | apply server_errors_for_of; intros ?
    | apply server_errors_bind; [| intros ?]
    | apply server_errors_try_catch; [| intros ? ?] ].

Lemma server_errors_commit : server_errors commit.
Proof.
  intros w e w' H. unfold commit in H.
  exact (@server_errors_db_call _ _ _ _ (@server_errors_pure _ _ _) _ _ _ H).
Qed.

Lemma server_errors_upload_to_bucket name lf img :
  server_errors (api_post_image.upload_to_bucket name lf img).
Proof.
  unfold api_post_image.upload_to_bucket, put_object, uuidv4. server_errors_tac.
Qed.

Lemma server_errors_update_db uid lf key :
  server_errors (api_post_image.update_db uid lf key).
Proof.
  unfold api_post_image.update_db, beginTransaction, execute_insert_asset, rollback.
  server_errors_tac; apply server_errors_commit.
Qed.

Lemma server_errors_update_labels aid ls :
  server_errors (api_post_image.update_labels aid ls).
Proof.
  unfold api_post_image.update_labels, beginTransaction, execute_insert_label, rollback.
  server_errors_tac; apply server_errors_commit.
Qed.

Lemma server_errors_detect_labels img :
  server_errors (api_post_image.detect_labels img).
Proof. unfold api_post_image.detect_labels. server_errors_tac. Qed.

Lemma server_errors_fan_out uid lf key img :
  server_errors (api_post_image.fan_out uid lf key img).
Proof.
  intros w e w' H. cbv beta zeta delta [api_post_image.fan_out] in H.
  destruct (api_post_image.detect_labels img w) as [[found|e1] w1] eqn:E1.
  - destruct (pRetry 2 _ w1) as [[a|e2] w2] eqn:E2; [discriminate H|].
    injection H as <- _.
    exact (@server_errors_pRetry _ _ 2 (server_errors_update_db uid lf key) _ _ _ E2).
  - pose proof (@server_errors_detect_labels img _ _ _ E1) as C1.
    destruct (pRetry 2 _ _) as [[a|e2] w2] eqn:E2.
    + destruct (dbConn w2); injection H as <- _; exact C1.
    + pose proof (@server_errors_pRetry _ _ 2 (server_errors_update_db uid lf key) _ _ _ E2) as C2.
      destruct (dbConn w2); injection H as <- _; assumption.
Qed.

(** ** The handlers that only read *)

Lemma unchanged_refl w : unchanged w w.
Proof. repeat split. Qed.

Lemma unchanged_trans w v u : unchanged w v -> unchanged v u -> unchanged w u.
Proof.
  intros ((A1 & B1 & C1 & D1) & E1) ((A2 & B2 & C2 & D2) & E2).
  repeat split; congruence.
Qed.

Ltac reads_side :=
  first [ exact unchanged_refl
        | exact unchanged_trans
        | exact (fun w v (H : unchanged w v) => H)
        | reflexivity
        | intros; split; [reflexivity | apply unchanged_refl]
        | intros ? ? ? E;
          repeat match type of E with
                 | context [match ?x with _ => _ end] => destruct x
                 end;
          injection E as <- <-; (split; [reflexivity | apply unchanged_refl]) ].

Ltac reads_tac :=
  repeat first
    [ apply footprint_ret
    | apply footprint_throw
    | apply footprint_pRetry
    | apply footprint_finally
    | apply footprint_get_dbConn
    | apply footprint_dbConn_end
    | apply footprint_bind; [| | | intros ?]
    | apply footprint_try_catch; [| | | intros ?]
    | apply footprint_db_call
    | apply footprint_bkt_send
    | match goal with
      | |- footprint _ _ (match ?x with _ => _ end) => destruct x
      end
    | reads_side ].

Lemma reads_get_image s :
  footprint unchanged reading_call
    (get_dbConn ;;; finally_ignoring (api_get_image.try_block s) dbConn_end).
Proof.
  unfold api_get_image.try_block, api_get_image.validate_assetid,
    api_get_image.download_image_str, execute_select_asset_row, get_object, rethrow.
  reads_tac.
Qed.

Lemma reads_get_image_labels coll s :
  footprint unchanged reading_call
    (get_dbConn ;;; api_get_image_labels.try_block coll s).
Proof.
  unfold api_get_image_labels.try_block, api_get_image_labels.validate_assetid,
    api_get_image_labels.fetch_labels, execute_select_assetid, execute_select_labels,
    rethrow.
  reads_tac.
Qed.

Lemma reads_get_images_with_label coll s :
  footprint unchanged reading_call
    (get_dbConn ;;; api_get_images_with_label.try_block coll s).
Proof.
  unfold api_get_images_with_label.try_block, api_get_images_with_label.fetch_images,
    execute_select_like, rethrow.
  reads_tac.
Qed.

Lemma reads_get_images q :
  footprint unchanged reading_call (api_get_images.try_block q).
Proof.
  unfold api_get_images.try_block, api_get_images.try_get_images,
    execute_select_assets, rethrow.
  reads_tac.
Qed.

Lemma footprint_reads {A : Type} (m : M A) (h : Handler) w :
  footprint unchanged reading_call m -> snd (h w) = snd (m w) -> reads h w.
Proof.
  intros Hm Hs. unfold reads. rewrite Hs.
  destruct (m w) as [r w'] eqn:E. exact (Hm _ _ _ E).
Qed.

(** X15: Retrieve, the label search, List Labels and List Assets only read:
    whatever the request and whatever fails, the tables, the bucket and the
    id counter are what they were, and every call that was sent is the
    opening or the ending of a connection, a [Select] or a [GetObject]. *)
Theorem read_handlers_only_read w :
  (forall s, reads (api_get_image.get_image s) w) /\
  (forall coll s, reads (api_get_images_with_label.get_images_with_label coll s) w) /\
  (forall coll s, reads (api_get_image_labels.get_image_labels coll s) w) /\
  (forall q, reads (api_get_images.get_images q) w).
Proof.
  split; [|split; [|split]].
  - intros s. apply (@footprint_reads _ _ _ _ (@reads_get_image s)).
    unfold api_get_image.get_image, bind, finally_ignoring.
    destruct (get_dbConn w) as [[[]|e] w0]; [|reflexivity].
    destruct (api_get_image.try_block s w0) as [settled w1]. reflexivity.
  - intros coll s. apply (@footprint_reads _ _ _ _ (@reads_get_images_with_label coll s)).
    unfold api_get_images_with_label.get_images_with_label, bind.
    destruct (get_dbConn w) as [[[]|e] w0]; [|reflexivity].
    destruct (api_get_images_with_label.try_block coll s w0) as [[rows|err] w1];
      reflexivity.
  - intros coll s. apply (@footprint_reads _ _ _ _ (@reads_get_image_labels coll s)).
    unfold api_get_image_labels.get_image_labels, bind.
    destruct (get_dbConn w) as [[[]|e] w0]; [|reflexivity].
    destruct (api_get_image_labels.try_block coll s w0) as [[rows|err] w1];
      reflexivity.
  - intros q.
    apply (@footprint_reads _ (fun v => api_get_images.try_block q (set_dbConn Undefined v))).
    + intros v r v' E. exact (@reads_get_images q _ _ _ E).
    + unfold api_get_images.get_images.
      destruct (api_get_images.try_block q _) as [[rows|err] w1]; reflexivity.
Qed.

(** ** The errors of an upload *)

(** [lookup_user] throws a [ValueError] only when the owner has no row. *)
Lemma lookup_user_class uid w e w' :
  api_post_image.lookup_user uid w = (Throw e, w') ->
  err_class e = ValueError ->
  message e = "no such userid" /\
  filter (fun u => u_userid u =? uid) (users w) = [].
Proof.
  intros H Hc. world w.
  cbv beta delta [api_post_image.lookup_user] in H. unfold_control H.
  exec H.
  all: try (destruct (filter _ us) as [|? [|? ?]] eqn:Hrows).
  all: try discriminate H.
  all: injection H as <- _; try discriminate Hc.
  all: split; [reflexivity | exact Hrows].
Qed.

Lemma lookup_phase_class uid w e w' :
  pRetry 2 (api_post_image.lookup_user uid) w = (Throw e, w') ->
  txn w = None ->
  err_class e = ValueError ->
  message e = "no such userid" /\
  filter (fun u => u_userid u =? uid) (users w) = [].
Proof.
  intros H Ht Hc.
  pose (Keep := fun v : World => txn v = None /\ users v = users w).
  assert (Hstep : forall v r1 v', api_post_image.lookup_user uid v = (r1, v') ->
            Keep v ->
            match r1 with
            | Ok _ => True
            | Throw e1 =>
                Keep v' /\
                (err_class e1 = ValueError ->
                 message e1 = "no such userid" /\
                 filter (fun u => u_userid u =? uid) (users w) = [])
            end).
  { intros v r1 v' E (Kt & Ku).
    destruct (@lookup_user_spec _ _ _ _ E Kt) as (_ & _ & d & Hrun & _).
    destruct r1 as [name|e1]; [exact I|]. split.
    - split; [apply Hrun|]. destruct Hrun as (_ & _ & _ & Hu & _). congruence.
    - intros Hc1. rewrite <- Ku. exact (@lookup_user_class _ _ _ _ E Hc1). }
  assert (HI : Keep w) by (split; auto).
  pose proof (@pRetry_inv _ _ Keep (fun _ _ => True)
                (fun e1 _ => err_class e1 = ValueError ->
                   message e1 = "no such userid" /\
                   filter (fun u => u_userid u =? uid) (users w) = [])
                Hstep 2 _ _ _ H HI) as R.
  exact (proj2 R Hc).
Qed.

(** ** What the phases of an upload log *)

Lemma log_flush w : log (flush w) = log w.
Proof. unfold flush. destruct (txn w) as [[pa pl]|]; reflexivity. Qed.

Lemma log_write_asset r w : log (write_asset r w) = log w.
Proof. unfold write_asset. destruct (txn w) as [[pa pl]|]; reflexivity. Qed.

Lemma log_write_label r w : log (write_label r w) = log w.
Proof. unfold write_label. destruct (txn w) as [[pa pl]|]; reflexivity. Qed.


Lemma puts_not_put d : Forall (fun e => not_put (call e)) d -> puts d = [].
Proof.
  induction 1 as [|[c o] d Hc _ IH]; [reflexivity|].
  cbn [puts flat_map]. fold (puts d). rewrite IH.
  destruct c; try reflexivity. destruct Hc.
Qed.

Ltac anything_side :=
  first [ exact I
        | intros; exact I
        | intros; split; [reflexivity | exact I]
        | intros ? ? ? E; injection E as <- <-;
          cbn [log set_txn set_assets set_labels set_auto_increment];
          rewrite ?log_write_asset, ?log_write_label, ?log_flush;
          cbn [log set_txn set_assets set_labels set_auto_increment];
          split; [reflexivity | exact I] ].

Ltac anything_tac :=
  repeat first
    [ apply footprint_ret
    | apply footprint_throw
    | apply footprint_pRetry
    | apply footprint_for_of; [| | intros ?]
    | apply footprint_bind; [| | | intros ?]
    | apply footprint_try_catch; [| | | intros ?]
    | apply footprint_db_call
    | match goal with
      | |- footprint _ _ (match ?x with _ => _ end) => destruct x
      end
    | anything_side ].


Lemma quiet_lookup_user uid :
  footprint anything not_put (api_post_image.lookup_user uid).
Proof.
  unfold api_post_image.lookup_user, execute_select_username, rethrow.
  anything_tac.
Qed.




(** What is thrown after the owner was found is a plain [Error]. *)
Lemma try_block_class request w e w' :
  api_post_image.try_block request w = (Throw e, w') -> txn w = None ->
  err_class e = ValueError ->
  message e = "no such userid" /\
  filter (fun u => u_userid u =? api_post_image.params_userid request) (users w) = [] /\
  assets w' = assets w /\ labels w' = labels w /\ bucket w' = bucket w /\
  exists d, log w' = log w ++ d /\ puts d = [].
Proof.
  intros H Ht Hc.
  cbv beta zeta delta [api_post_image.try_block] in H.
  unfold bind at 1 in H.
  destruct (pRetry 2 _ w) as [[name|e1] w1] eqn:E1.
  - exfalso.
    assert (S : server_errors
              (bkt_key <- api_post_image.upload_to_bucket name
                            (api_post_image.body_local_filename request)
                            (Buffer_from (api_post_image.body_data request)) ;;
               joined <- api_post_image.fan_out (api_post_image.params_userid request)
                           (api_post_image.body_local_filename request) bkt_key
                           (Buffer_from (api_post_image.body_data request)) ;;
               let (assetid, rkg_labels) := joined in
               pRetry 2 (api_post_image.update_labels assetid rkg_labels) ;;;
               ret assetid)).
    { apply server_errors_bind; [apply server_errors_upload_to_bucket|]. intros key.
      apply server_errors_bind; [apply server_errors_fan_out|]. intros [a found].
      apply server_errors_bind; [|intros _; apply server_errors_ret].
      apply server_errors_pRetry. apply server_errors_update_labels. }
    rewrite (S _ _ _ H) in Hc. discriminate Hc.
  - injection H as <- <-.
    destruct (@lookup_phase_class _ _ _ _ E1 Ht Hc) as (Hm & Hu).
    assert (QA : footprint anything not_put
                   (pRetry 2 (api_post_image.lookup_user
                                (api_post_image.params_userid request))))
      by (apply footprint_pRetry; first [apply quiet_lookup_user | anything_side]).
    destruct (QA _ _ _ E1) as (_ & dA & LA & FA). apply puts_not_put in FA.
    apply lookup_phase_spec in E1; [|exact Ht].
    destruct E1 as (_ & _ & d & (_ & A & L & _ & B & _) & _).
    rewrite app_nil_r in A, L. eauto 10.
Qed.

(** X16: status 400 is sent only for an owner id that has no row in [users]:
    the message is then "no such userid", and the request has created
    nothing. *)
Theorem caller_error_means_unknown_owner request w body w' :
  api_post_image.post_image request w = (Some (400, body), w') ->
  body = JObj [("message", JStr "no such userid"); ("assetid", JNum (-1))] /\
  filter (fun u => u_userid u =? api_post_image.params_userid request) (users w) = [] /\
  assets w' = assets w /\ labels w' = labels w /\ bucket w' = bucket w.
Proof.
  intros H. world w. cbn [users assets labels bucket].
  cbv beta delta [api_post_image.post_image] in H. exec H.
  { discriminate H. }
  destruct (api_post_image.try_block _ _) as [settled w1] eqn:E.
  destruct (dbConn_end_spec w1) as (_ & Ea & El & Eb & _).
  cbv zeta in *.
  destruct settled as [a|e]; [discriminate H|].
  destruct (instanceof_ValueError e) eqn:Hv; [|discriminate H].
  injection H as <- <-.
  assert (Hc : err_class e = ValueError).
  { unfold instanceof_ValueError in Hv. destruct (err_class e); [reflexivity | discriminate Hv]. }
  destruct (@try_block_class _ _ _ _ E eq_refl Hc) as (Hm & Hu & A & L & B & _).
  cbn [users assets labels bucket] in *.
  rewrite Hm, Ea, El, Eb. auto.
Qed.

Lemma caller_error_means_unknown_owner_witness :
  filter (fun u => u_userid u =? 999999) (users sample_gallery) = [].
Proof.
  eapply (@caller_error_means_unknown_owner
            (api_post_image.mkRequest 999999 "cat.jpg" "QUJD") sample_gallery).
  vm_compute. reflexivity.
Defined.






(** ** The registration of an asset *)

(** X18: the registration of an asset is atomic: an attempt of [update_db]
    either returns the new id, with its row appended to [assets] by the one
    commit of the attempt, or throws with [assets] as they were and nothing
    committed; in both cases no transaction is left open and the labels are
    not touched. *)
Theorem asset_registration_is_atomic uid lf key w r w' :
  api_post_image.update_db uid lf key w = (r, w') -> txn w = None ->
  labels w' = labels w /\ txn w' = None /\
  exists d, log w' = log w ++ d /\
    match r with
    | Ok a =>
        assets w' = assets w ++ [mkAsset a uid lf key] /\ commits d = [[a]] /\
        auto_increment w <= a < auto_increment w'
    | Throw _ => assets w' = assets w /\ commits d = []
    end.
Proof.
  intros H Ht. world w. cbn in Ht. subst tx.
  cbv beta delta [api_post_image.update_db] in H. unfold_control H.
  repeat exec H.
  all: finish H; rewrite ?app_nil_r.
  all: split; [reflexivity|]; split; [reflexivity|].
  all: log_delta.
  all: rewrite ?app_nil_r; repeat split; auto; lia.
Qed.

Lemma asset_registration_is_atomic_witness :
  labels (snd (api_post_image.update_db 80001 "dog.jpg" "p_sarkar/u2-dog.jpg"
                 (set_db_faults [None; None; Some "Lock wait timeout exceeded"]
                    (set_dbConn (Live None) sample_gallery))))
  = labels (set_db_faults [None; None; Some "Lock wait timeout exceeded"]
              (set_dbConn (Live None) sample_gallery)) /\
  txn (snd (api_post_image.update_db 80001 "dog.jpg" "p_sarkar/u2-dog.jpg"
              (set_db_faults [None; None; Some "Lock wait timeout exceeded"]
                 (set_dbConn (Live None) sample_gallery)))) = None /\
  exists d,
    log (snd (api_post_image.update_db 80001 "dog.jpg" "p_sarkar/u2-dog.jpg"
                (set_db_faults [None; None; Some "Lock wait timeout exceeded"]
                   (set_dbConn (Live None) sample_gallery))))
    = log (set_db_faults [None; None; Some "Lock wait timeout exceeded"]
             (set_dbConn (Live None) sample_gallery)) ++ d /\
    assets (snd (api_post_image.update_db 80001 "dog.jpg" "p_sarkar/u2-dog.jpg"
                   (set_db_faults [None; None; Some "Lock wait timeout exceeded"]
                      (set_dbConn (Live None) sample_gallery))))
    = assets (set_db_faults [None; None; Some "Lock wait timeout exceeded"]
                (set_dbConn (Live None) sample_gallery)) /\
    commits d = [].
Proof.
  apply (@asset_registration_is_atomic 80001 "dog.jpg" "p_sarkar/u2-dog.jpg"
           (set_db_faults [None; None; Some "Lock wait timeout exceeded"]
              (set_dbConn (Live None) sample_gallery))
           (Throw (new_Error "Lock wait timeout exceeded"))).
  - vm_compute. reflexivity.
  - reflexivity.
Defined.

(** X19: the upload of the object is tried once: when the bucket fails it, the
    handler answers with status 500 and the bucket's message, without a
    retry and before a statement that writes is sent. *)
Theorem bucket_failure_aborts_upload request row msg w :
  filter (fun u => u_userid u =? api_post_image.params_userid request) (users w)
  = [row] ->
  serves 2 (db_faults w) -> hd None (s3_faults w) = Some msg ->
  fst (api_post_image.post_image request w)
  = Some (500, JObj [("message", JStr msg); ("assetid", JNum (-1))]) /\
  log (snd (api_post_image.post_image request w))
  = log w ++
    [mkEvent CConnect None;
     mkEvent (CExecute (SelectUsername (api_post_image.params_userid request))) None;
     mkEvent (CPutObject (username row ++ "/" ++ hd "" (uuids w) ++ "-"
                            ++ api_post_image.body_local_filename request)%string)
       (Some msg);
     mkEvent CEnd None] /\
  same_store (snd (api_post_image.post_image request w)) w.
Proof.
  intros Hrow (S1 & S2 & _) S3. world w.
  cbn [db_faults s3_faults users uuids] in *.
  destruct (api_post_image.post_image request _) as [response v'] eqn:H.
  cbv beta zeta delta [api_post_image.post_image] in H. exec H.
  cbv beta zeta delta [api_post_image.try_block api_post_image.lookup_user
                       api_post_image.upload_to_bucket] in H.
  cbn [pRetry] in H. unfold_control H.
  exec H. rewrite Hrow in H. cbv beta iota in H.
  repeat exec H. reduce_end H. injection H as <- <-. cbn [fst snd log].
  split; [reflexivity|]. split; [|repeat split].
  rewrite <- !app_assoc. reflexivity.
Qed.

Lemma bucket_failure_aborts_upload_witness :
  fst (api_post_image.post_image sample_upload
         (set_s3_faults [Some "SlowDown"] sample_world))
  = Some (500, JObj [("message", JStr "SlowDown"); ("assetid", JNum (-1))]).
Proof.
  apply (@bucket_failure_aborts_upload sample_upload (mkUser 80001 "p_sarkar")
           "SlowDown" (set_s3_faults [Some "SlowDown"] sample_world)).
  - reflexivity.
  - cbn. auto.
  - reflexivity.
Defined.

(** ** Uploads that succeed *)

(** What an upload that answered "success" has left. *)
Lemma upload_success request w a w' :
  api_post_image.post_image request w
  = (Some (200, JObj [("message", JStr "success"); ("assetid", JNum a)]), w') ->
  users w' = users w /\ auto_increment w <= a /\
  exists key candidates,
    assets w' = assets w ++
      [mkAsset a (api_post_image.params_userid request)
         (api_post_image.body_local_filename request) key] /\
    lookup_key key (bucket w')
    = Some (Buffer_from (api_post_image.body_data request)) /\
    hd (Detected []) (rkg_script w) = Detected candidates /\
    labels w' = labels w ++
      map (to_label_row a)
        (rekognition api_post_image.MaxLabels api_post_image.MinConfidence candidates).
Proof.
  intros H. world w.
  cbn [users assets labels auto_increment bucket rkg_script] in *.
  cbv beta delta [api_post_image.post_image] in H. exec H.
  { discriminate H. }
  destruct (api_post_image.try_block _ _) as [settled w1] eqn:E.
  apply try_block_anatomy in E; [|reflexivity].
  destruct E as (Eu & _ & d0 & Hd & E).
  destruct (dbConn_end_spec w1) as (Ev & Ea & El & Eb & _).
  cbv zeta in *. cbn [users log assets labels auto_increment bucket rkg_script] in *.
  assert (Hok : settled = Ok a).
  { destruct settled as [a0|e]; [congruence|].
    destruct (instanceof_ValueError e); discriminate H. }
  subst settled. injection H as <-.
  destruct E as [(e & He & _)
                |(key & Hkey & [(e & He & _)
                               |(a' & d1 & d2 & _ & Ha & Hfresh & _ & _ & _ & _ & E)])];
    try discriminate He.
  destruct E as [(msg' & He & _)|[(e & He & _)|(cands & He & _ & Hc & Hl)]];
    try discriminate He.
  injection He as <-.
  split; [congruence|]. split; [exact Hfresh|].
  exists key, cands. rewrite Ea, Eb, El. auto.
Qed.

(** ** Base64 *)

Lemma sextet_cases v : 0 <= v < 64 ->
  exists n, (n < 64)%nat /\ v = Z.of_nat n.
Proof. intros H. exists (Z.to_nat v). lia. Qed.

Lemma base64_char_spec v : 0 <= v < 64 ->
  byte_of (base64_char v) < 128 /\
  (byte_of (base64_char v) mod 256 =? 61) = false /\
  unbase64 (byte_of (base64_char v) mod 256) = Some v.
Proof.
  intros H. destruct (sextet_cases H) as (n & Hn & ->).
  do 64 (destruct n as [|n]; [vm_compute; repeat split; reflexivity|]).
  lia.
Qed.

Lemma code_units_base64_char v rest : 0 <= v < 64 ->
  sextets (code_units (String (base64_char v) rest)) = v :: sextets (code_units rest).
Proof.
  intros H. destruct (base64_char_spec H) as (H1 & H2 & H3).
  cbn [code_units]. cbv zeta.
  apply Z.ltb_lt in H1. rewrite H1. cbn [sextets]. cbv zeta.
  rewrite H2, H3. reflexivity.
Qed.

Lemma sextets_padding rest : sextets (code_units (String "=" rest)) = [].
Proof. reflexivity. Qed.

Lemma octets_step a b c d rest :
  octets (a :: b :: c :: d :: rest)
  = (a * 4 + b / 16) :: ((b mod 16) * 16 + c / 4) :: ((c mod 4) * 64 + d) :: octets rest.
Proof. reflexivity. Qed.

Lemma base64_step x y z rest :
  base64 (x :: y :: z :: rest)
  = String (base64_char (x / 4))
      (String (base64_char ((x mod 4) * 16 + y / 16))
         (String (base64_char ((y mod 16) * 4 + z / 64))
            (String (base64_char (z mod 64)) (base64 rest)))).
Proof. reflexivity. Qed.

Lemma group_of_three x y z :
  is_byte x -> is_byte y -> is_byte z ->
  (x / 4) * 4 + ((x mod 4) * 16 + y / 16) / 16 = x /\
  (((x mod 4) * 16 + y / 16) mod 16) * 16 + ((y mod 16) * 4 + z / 64) / 4 = y /\
  (((y mod 16) * 4 + z / 64) mod 4) * 64 + z mod 64 = z.
Proof.
  unfold is_byte. intros Hx Hy Hz.
  pose proof (Z.div_mod x 4 ltac:(lia)). pose proof (Z.mod_pos_bound x 4 ltac:(lia)).
  pose proof (Z.div_mod y 16 ltac:(lia)). pose proof (Z.mod_pos_bound y 16 ltac:(lia)).
  pose proof (Z.div_mod z 64 ltac:(lia)). pose proof (Z.mod_pos_bound z 64 ltac:(lia)).
  assert (0 <= y / 16 < 16) by (split; [apply Z.div_pos; lia | apply Z.div_lt_upper_bound; lia]).
  assert (0 <= z / 64 < 4) by (split; [apply Z.div_pos; lia | apply Z.div_lt_upper_bound; lia]).
  repeat split.
  - replace (((x mod 4) * 16 + y / 16) / 16) with (x mod 4); [lia|].
    apply Z.div_unique with (r := y / 16); lia.
  - replace ((((x mod 4) * 16 + y / 16) mod 16)) with (y / 16)
      by (apply Z.mod_unique with (q := x mod 4); lia).
    replace (((y mod 16) * 4 + z / 64) / 4) with (y mod 16)
      by (apply Z.div_unique with (r := z / 64); lia).
    lia.
  - replace (((y mod 16) * 4 + z / 64) mod 4) with (z / 64)
      by (apply Z.mod_unique with (q := y mod 16); lia).
    lia.
Qed.

Lemma sextet_bounds x y z :
  is_byte x -> is_byte y -> is_byte z ->
  0 <= x / 4 < 64 /\ 0 <= (x mod 4) * 16 + y / 16 < 64 /\
  0 <= (y mod 16) * 4 + z / 64 < 64 /\ 0 <= z mod 64 < 64 /\
  0 <= (x mod 4) * 16 < 64 /\ 0 <= (y mod 16) * 4 < 64.
Proof.
  unfold is_byte. intros Hx Hy Hz.
  pose proof (Z.mod_pos_bound x 4 ltac:(lia)).
  pose proof (Z.mod_pos_bound y 16 ltac:(lia)).
  pose proof (Z.mod_pos_bound z 64 ltac:(lia)).
  assert (0 <= x / 4 < 64) by (split; [apply Z.div_pos; lia | apply Z.div_lt_upper_bound; lia]).
  assert (0 <= y / 16 < 16) by (split; [apply Z.div_pos; lia | apply Z.div_lt_upper_bound; lia]).
  assert (0 <= z / 64 < 4) by (split; [apply Z.div_pos; lia | apply Z.div_lt_upper_bound; lia]).
  lia.
Qed.

Lemma decode_base64_upto n : forall image,
  (List.length image <= n)%nat -> Forall is_byte image ->
  octets (sextets (code_units (base64 image))) = image.
Proof.
  induction n as [|n IH]; intros image Hlen Hb.
  - destruct image; [reflexivity | cbn in Hlen; lia].
  - destruct image as [|x [|y [|z rest]]].
    + reflexivity.
    + apply Forall_inv in Hb.
      destruct (@sextet_bounds x 0 0 Hb) as (B1 & _ & _ & _ & B5 & _);
        [unfold is_byte; lia | unfold is_byte; lia |].
      cbn [base64]. rewrite !code_units_base64_char by assumption.
      rewrite sextets_padding. cbn [octets].
      destruct (@group_of_three x 0 0 Hb) as (G & _); [unfold is_byte; lia | unfold is_byte; lia |].
      change (0 / 16) with 0 in G. rewrite Z.add_0_r in G. rewrite G. reflexivity.
    + pose proof (Forall_inv Hb) as Hx. pose proof (Forall_inv (Forall_inv_tail Hb)) as Hy.
      destruct (@sextet_bounds x y 0 Hx Hy) as (B1 & B2 & _ & _ & _ & B6);
        [unfold is_byte; lia |].
      assert (B6' : 0 <= (y mod 16) * 4 < 64) by lia.
      cbn [base64]. rewrite !code_units_base64_char by assumption.
      rewrite sextets_padding. cbn [octets].
      destruct (@group_of_three x y 0 Hx Hy) as (G1 & G2 & _); [unfold is_byte; lia |].
      change (0 / 64) with 0 in G2. rewrite Z.add_0_r in G2. rewrite G1, G2. reflexivity.
    + pose proof (Forall_inv Hb) as Hx. pose proof (Forall_inv (Forall_inv_tail Hb)) as Hy.
      pose proof (Forall_inv (Forall_inv_tail (Forall_inv_tail Hb))) as Hz.
      pose proof (Forall_inv_tail (Forall_inv_tail (Forall_inv_tail Hb))) as Hrest.
      destruct (@sextet_bounds x y z Hx Hy Hz) as (B1 & B2 & B3 & B4 & _).
      rewrite base64_step. rewrite !code_units_base64_char by assumption.
      rewrite octets_step.
      destruct (@group_of_three x y z Hx Hy Hz) as (G1 & G2 & G3).
      rewrite G1, G2, G3. rewrite IH; [reflexivity | cbn in Hlen; lia | exact Hrest].
Qed.

Lemma decode_base64 image :
  Forall is_byte image -> octets (sextets (code_units (base64 image))) = image.
Proof. intros Hb. apply (@decode_base64_upto (List.length image)); auto. Qed.

(** The text of a buffer is read back as the bytes of the buffer. *)
Lemma base64_round_trip image :
  Forall is_byte image ->
  transformToString (Buffer_from (base64 image)) = base64 image.
Proof.
  intros Hb. unfold transformToString, Buffer_from. cbn [bytes].
  rewrite decode_base64; auto.
Qed.

(** The decoder is lenient: it takes a text without its padding, the
    alphabet for URLs and line breaks, and the text of the bytes it read is
    not always the text it was given. *)
Lemma lenient_decoding :
  transformToString (Buffer_from "QUI") = "QUI=" /\
  transformToString (Buffer_from "-_8") = "+/8=" /\
  transformToString (Buffer_from ("QU" ++ String "010" "JD")) = "QUJD" /\
  transformToString (Buffer_from "QUJD=QUJD") = "QUJD".
Proof. repeat split. Qed.

(** X20: Upload and Retrieve are a round trip: after an upload that answered
    "success" with the id [a], a Retrieve of [a] that the database and the
    bucket serve answers with the owner and the file name of that upload,
    and with the base64 text of the bytes that the upload decoded from its
    data.  That text is the data of the upload itself when the data is the
    padded base64 text of some bytes. *)
Theorem upload_then_retrieve request w a w' v s :
  api_post_image.post_image request w
  = (Some (200, JObj [("message", JStr "success"); ("assetid", JNum a)]), w') ->
  ids_below w ->
  same_store v w' -> parseInt s = Some a ->
  serves 2 (db_faults v) -> hd None (s3_faults v) = None ->
  fst (api_get_image.get_image s v)
  = Some (200, JObj [("message", JStr "success");
                     ("userid", JNum (api_post_image.params_userid request));
                     ("local_filename",
                      JStr (api_post_image.body_local_filename request));
                     ("data",
                      JStr (base64
                              (octets
                                 (sextets
                                    (code_units
                                       (api_post_image.body_data request))))))]) /\
  (forall image,
     Forall is_byte image -> api_post_image.body_data request = base64 image ->
     fst (api_get_image.get_image s v)
     = Some (200, JObj [("message", JStr "success");
                        ("userid", JNum (api_post_image.params_userid request));
                        ("local_filename",
                         JStr (api_post_image.body_local_filename request));
                        ("data", JStr (api_post_image.body_data request))])).
Proof.
  intros H (Hba & _) (_ & Sa & _ & Sb) Hs Hd Hb.
  destruct (@upload_success _ _ _ _ H) as (_ & Hfresh & key & cands & Ha & Hkey & _).
  set (row := mkAsset a (api_post_image.params_userid request)
                (api_post_image.body_local_filename request) key) in *.
  assert (Hrow : assets_with_id (Some a) v = [row]).
  { unfold assets_with_id. rewrite Sa, Ha.
    apply (fresh_asset_is_unique (bound := auto_increment w) (assets w) row); auto. }
  assert (Hget :
    fst (api_get_image.get_image s v)
    = Some (200, JObj [("message", JStr "success");
                       ("userid", JNum (userid row));
                       ("local_filename", JStr (localname row));
                       ("data",
                        JStr (transformToString
                                (Buffer_from (api_post_image.body_data request))))])).
  { apply (@get_image_found s a row
             (Buffer_from (api_post_image.body_data request)) v); auto.
    rewrite Sb. exact Hkey. }
  split; [exact Hget|].
  intros image Hbytes Hdata. rewrite Hget. rewrite Hdata at 1.
  rewrite base64_round_trip by exact Hbytes. rewrite <- Hdata. reflexivity.
Qed.

(** The data "QUJD" is the base64 text of the bytes 65, 66 and 67 and comes
    back as it was sent; the data "QUI" is no padded text and comes back as
    "QUI=". *)
Lemma upload_then_retrieve_witness :
  fst (api_get_image.get_image "1001"
         (snd (api_post_image.post_image sample_upload sample_world)))
  = Some (200, JObj [("message", JStr "success");
                     ("userid", JNum 80001);
                     ("local_filename", JStr "cat.jpg");
                     ("data", JStr "QUJD")]) /\
  fst (api_get_image.get_image "1001"
         (snd (api_post_image.post_image
                 (api_post_image.mkRequest 80001 "cat.jpg" "QUI") sample_world)))
  = Some (200, JObj [("message", JStr "success");
                     ("userid", JNum 80001);
                     ("local_filename", JStr "cat.jpg");
                     ("data", JStr "QUI=")]).
Proof.
  split.
  - destruct (@upload_then_retrieve sample_upload sample_world 1001
                (snd (api_post_image.post_image sample_upload sample_world))
                (snd (api_post_image.post_image sample_upload sample_world))
                "1001") as (_ & T).
    + vm_compute. reflexivity.
    + split; intros ? [].
    + repeat split.
    + reflexivity.
    + cbn. auto.
    + reflexivity.
    + apply (T [65; 66; 67]); [|reflexivity].
      repeat constructor; unfold is_byte; lia.
  - destruct (@upload_then_retrieve
                (api_post_image.mkRequest 80001 "cat.jpg" "QUI") sample_world 1001
                (snd (api_post_image.post_image
                        (api_post_image.mkRequest 80001 "cat.jpg" "QUI")
                        sample_world))
                (snd (api_post_image.post_image
                        (api_post_image.mkRequest 80001 "cat.jpg" "QUI")
                        sample_world))
                "1001") as (T & _).
    + vm_compute. reflexivity.
    + split; intros ? [].
    + repeat split.
    + reflexivity.
    + cbn. auto.
    + reflexivity.
    + exact T.
Defined.

(** ** The discipline of the ids *)

(** Where an attempt of [update_db] leaves the id counter. *)
Lemma update_db_counter uid lf key w r w' :
  api_post_image.update_db uid lf key w = (r, w') -> txn w = None ->
  txn w' = None /\
  match r with Ok a => a < auto_increment w' | Throw _ => True end.
Proof.
  intros H Ht. world w. cbn in Ht. subst tx.
  cbv beta delta [api_post_image.update_db] in H. unfold_control H.
  repeat exec H.
  all: finish H; split; [reflexivity|]; try exact I; lia.
Qed.

Lemma register_bound uid lf key w a w' :
  pRetry 2 (api_post_image.update_db uid lf key) w = (Ok a, w') -> txn w = None ->
  a < auto_increment w'.
Proof.
  intros H Ht.
  pose (Keep := fun v : World => txn v = None).
  assert (Hstep : forall v r1 v', api_post_image.update_db uid lf key v = (r1, v') ->
            Keep v ->
            match r1 with
            | Ok a1 => a1 < auto_increment v'
            | Throw _ => Keep v' /\ True
            end).
  { intros v r1 v' E K.
    destruct (@update_db_counter _ _ _ _ _ _ E K) as (T & R).
    destruct r1 as [a1|e]; auto. }
  exact (@pRetry_inv _ _ Keep (fun a1 v' => a1 < auto_increment v') (fun _ _ => True)
           Hstep 2 _ _ _ H Ht).
Qed.

(** The fan-out keeps the discipline: a new asset row has an id below the
    counter. *)
Lemma fan_out_ids uid lf key img w r w' :
  api_post_image.fan_out uid lf key img w = (r, w') -> txn w = None ->
  ids_below w ->
  ids_below w' /\ txn w' = None /\
  match r with Ok (a, _) => a < auto_increment w' | Throw _ => True end.
Proof.
  intros H Ht (Hba & Hbl).
  pose proof (@fan_out_spec _ _ _ _ _ _ _ H Ht) as (d & _ & S).
  cbv beta zeta delta [api_post_image.fan_out api_post_image.detect_labels] in H.
  unfold_control H.
  assert (Hdet : forall rr w1, rkg_send api_post_image.MaxLabels
                   api_post_image.MinConfidence w = (rr, w1) ->
            txn w1 = txn w /\ assets w1 = assets w /\
            auto_increment w1 = auto_increment w).
  { intros rr w1 E. unfold rkg_send in E.
    destruct (hd _ (rkg_script w)); injection E as <- <-; repeat split. }
  assert (Hreg : forall v settled v2,
            pRetry 2 (api_post_image.update_db uid lf key) v = (settled, v2) ->
            txn v = None -> assets v = assets w ->
            auto_increment v = auto_increment w ->
            (forall row, In row (assets v2) -> assetid row < auto_increment v2) /\
            auto_increment w <= auto_increment v2 /\
            match settled with Ok a => a < auto_increment v2 | Throw _ => True end).
  { intros v settled v2 E Tv Av Iv.
    pose proof (@register_spec _ _ _ _ _ _ E Tv) as (d2 & (_ & A2 & _ & _ & _ & _ & I2) & _).
    rewrite Av in A2. rewrite Iv in I2.
    destruct settled as [a|e].
    - pose proof (@register_bound _ _ _ _ _ _ E Tv) as Hb.
      split; [|split; [exact I2 | exact Hb]].
      intros row Hin. rewrite A2 in Hin. apply in_app_or in Hin.
      destruct Hin as [Hin|[<-|[]]]; [specialize (Hba row Hin); lia | exact Hb].
    - rewrite app_nil_r in A2. split; [|split; [exact I2 | exact I]].
      intros row Hin. rewrite A2 in Hin. specialize (Hba row Hin). lia. }
  assert (Hl : labels w' = labels w /\ txn w' = None).
  { destruct r as [[a found]|e].
    - destruct S as ((_ & _ & L & _ & _ & T & _) & _). rewrite app_nil_r in L. auto.
    - destruct S as [((_ & _ & L & _ & _ & T & _) & _)
                    |(a & msg & (_ & _ & L & _ & _ & T & _) & _)];
        rewrite app_nil_r in L; auto. }
  destruct Hl as (Hl & T').
  destruct (rkg_send _ _ w) as [[found|e1] w1] eqn:E1;
    destruct (Hdet _ _ eq_refl) as (T1 & A1 & I1).
  - destruct (pRetry 2 _ w1) as [settled w2] eqn:E2.
    destruct (Hreg _ _ _ E2) as (Ha2 & Hi2 & Hb2); try congruence.
    assert (w' = w2) by (destruct settled; injection H as _ <-; reflexivity). subst w'.
    split; [|split; [exact T'|]].
    + split; [exact Ha2|]. intros l Hin. rewrite Hl in Hin. specialize (Hbl l Hin). lia.
    + destruct settled as [a|e]; injection H as <-; [exact Hb2 | exact I].
  - destruct (pRetry 2 _ _) as [settled w2] eqn:E2.
    assert (G : txn (api_post_image.grant_lease (delivery w) w1) = txn w1 /\
                assets (api_post_image.grant_lease (delivery w) w1) = assets w1 /\
                auto_increment (api_post_image.grant_lease (delivery w) w1)
                = auto_increment w1)
      by (unfold api_post_image.grant_lease; destruct (dbConn w1); repeat split).
    destruct G as (G1 & G2 & G3).
    destruct (Hreg _ _ _ E2) as (Ha2 & Hi2 & Hb2); try congruence.
    injection H as <- <-.
    assert (Q : assets (api_post_image.settle_lease w2) = assets w2 /\
                auto_increment (api_post_image.settle_lease w2) = auto_increment w2)
      by (unfold api_post_image.settle_lease; destruct (dbConn w2); repeat split).
    destruct Q as (Q1 & Q2).
    split; [|split; [exact T'|]].
    + split.
      * intros row Hin. rewrite Q1 in Hin. rewrite Q2. exact (Ha2 row Hin).
      * intros l Hin. rewrite Hl in Hin. rewrite Q2. specialize (Hbl l Hin). lia.
    + destruct (dbConn w2); destruct settled; exact I.
Qed.

(** The [try] block of [post_image] keeps the discipline of the ids. *)
Lemma try_block_ids request w r w' :
  api_post_image.try_block request w = (r, w') -> txn w = None ->
  ids_below w -> ids_below w'.
Proof.
  intros H Ht Hi.
  cbv beta zeta delta [api_post_image.try_block bind ret] in H.
  destruct (pRetry 2 _ w) as [[name|e1] w1] eqn:E1;
    apply lookup_phase_spec in E1; auto;
    destruct E1 as (_ & _ & dA & (_ & AA & BA & _ & _ & TA & IA) & _);
    rewrite app_nil_r in AA, BA.
  all: assert (I1 : ids_below w1)
         by (destruct Hi as (Ha & Hl); split; intros x Hx;
             [rewrite AA in Hx; specialize (Ha x Hx) | rewrite BA in Hx; specialize (Hl x Hx)];
             lia).
  2:{ injection H as _ <-. exact I1. }
  destruct (api_post_image.upload_to_bucket _ _ _ w1) as [[key|e2] w2] eqn:E2;
    apply upload_to_bucket_spec in E2;
    destruct E2 as (dB & _ & _ & _ & AB & BB & TB & IB & _).
  all: assert (I2 : ids_below w2)
         by (destruct I1 as (Ha & Hl); split; intros x Hx;
             [rewrite AB in Hx; specialize (Ha x Hx) | rewrite BB in Hx; specialize (Hl x Hx)];
             lia).
  2:{ injection H as _ <-. exact I2. }
  assert (T2 : txn w2 = None) by congruence.
  destruct (api_post_image.fan_out _ _ _ _ w2) as [[[a found]|e3] w3] eqn:E3;
    destruct (@fan_out_ids _ _ _ _ _ _ _ E3 T2 I2) as (I3 & T3 & Hb).
  2:{ injection H as _ <-. exact I3. }
  destruct (pRetry 2 _ w3) as [rD w4] eqn:E4.
  apply label_phase_spec in E4; [|exact T3].
  destruct E4 as (dD & (_ & AD & BD & _ & _ & _ & ID) & _).
  assert (w' = w4) by (destruct rD as [[]|e4]; injection H as _ <-; reflexivity).
  subst w'. rewrite app_nil_r in AD.
  destruct I3 as (Ha & Hl). split; intros x Hx.
  - rewrite AD in Hx. specialize (Ha x Hx). lia.
  - rewrite BD in Hx. apply in_app_or in Hx. destruct Hx as [Hx|Hx].
    + specialize (Hl x Hx). lia.
    + destruct rD as [[]|e4]; [|destruct Hx].
      apply in_map_iff in Hx. destruct Hx as (l & <- & _). cbn. lia.
Qed.

(** X21: an upload keeps the discipline of the ids, however it ends: when
    every id in the tables is below the counter before the request, so it
    is after it. *)
Theorem upload_keeps_ids_below request w :
  ids_below w ->
  ids_below (snd (api_post_image.post_image request w)).
Proof.
  intros Hi. world w.
  destruct (api_post_image.post_image request _) as [response w'] eqn:H.
  cbv beta delta [api_post_image.post_image] in H. exec H.
  { injection H as _ <-. exact Hi. }
  destruct (api_post_image.try_block _ _) as [settled w1] eqn:E.
  injection H as _ <-.
  apply try_block_ids in E; [|reflexivity|exact Hi].
  destruct (dbConn_end_spec w1) as (_ & Ea & El & _ & Ei & _).
  cbv zeta in *. cbn [snd]. destruct E as (Ha & Hl).
  split; intros x Hx; rewrite Ei; [rewrite Ea in Hx | rewrite El in Hx]; auto.
Qed.

Lemma upload_keeps_ids_below_witness :
  ids_below (snd (api_post_image.post_image sample_upload sample_world)).
Proof.
  apply (@upload_keeps_ids_below sample_upload sample_world).
  split; intros ? [].
Defined.

(** X22: two uploads that succeed, one after the other, are given different
    ids, the later the greater, and both rows are in [assets]. *)
Theorem later_upload_gets_greater_id request1 request2 w a1 w1 a2 w2 :
  api_post_image.post_image request1 w
  = (Some (200, JObj [("message", JStr "success"); ("assetid", JNum a1)]), w1) ->
  api_post_image.post_image request2 w1
  = (Some (200, JObj [("message", JStr "success"); ("assetid", JNum a2)]), w2) ->
  ids_below w ->
  a1 < a2 /\
  exists key1 key2,
    assets w2 = assets w ++
      [mkAsset a1 (api_post_image.params_userid request1)
         (api_post_image.body_local_filename request1) key1;
       mkAsset a2 (api_post_image.params_userid request2)
         (api_post_image.body_local_filename request2) key2].
Proof.
  intros H1 H2 Hi.
  destruct (@upload_success _ _ _ _ H1) as (_ & _ & key1 & c1 & A1 & _).
  destruct (@upload_success _ _ _ _ H2) as (_ & F2 & key2 & c2 & A2 & _).
  split.
  - assert (Hb : a1 < auto_increment w1).
    { world w. cbv beta delta [api_post_image.post_image] in H1. exec H1.
      { discriminate H1. }
      destruct (api_post_image.try_block _ _) as [settled v1] eqn:E.
      injection H1 as _ <-.
      apply try_block_ids in E; [|reflexivity|exact Hi].
      destruct (dbConn_end_spec v1) as (_ & Ea & _ & _ & Ei & _).
      cbv zeta in *. rewrite Ei. rewrite Ea in A1. destruct E as (Ha & _).
      apply (Ha (mkAsset a1 (api_post_image.params_userid request1)
                   (api_post_image.body_local_filename request1) key1)).
      rewrite A1. apply in_or_app. right. left. reflexivity. }
    lia.
  - exists key1, key2. rewrite A2, A1, <- app_assoc. reflexivity.
Qed.

Lemma later_upload_gets_greater_id_witness :
  1001 < 1002 /\
  exists key1 key2,
    assets (snd (api_post_image.post_image
                   (api_post_image.mkRequest 80001 "dog.jpg" "REVG")
                   (snd (api_post_image.post_image sample_upload
                           (set_uuids ["u1"; "u2"] sample_world)))))
    = assets (set_uuids ["u1"; "u2"] sample_world) ++
      [mkAsset 1001 80001 "cat.jpg" key1; mkAsset 1002 80001 "dog.jpg" key2].
Proof.
  apply (@later_upload_gets_greater_id sample_upload
           (api_post_image.mkRequest 80001 "dog.jpg" "REVG")
           (set_uuids ["u1"; "u2"] sample_world) 1001
           (snd (api_post_image.post_image sample_upload
                   (set_uuids ["u1"; "u2"] sample_world)))
           1002
           (snd (api_post_image.post_image
                   (api_post_image.mkRequest 80001 "dog.jpg" "REVG")
                   (snd (api_post_image.post_image sample_upload
                           (set_uuids ["u1"; "u2"] sample_world)))))).
  - vm_compute. reflexivity.
  - vm_compute. reflexivity.
  - split; intros ? [].
Defined.


(** ** Bulk Clear and the bucket *)

Lemma get_keys_value w r w' :
  api_delete_images.get_keys w = (r, w') -> txn w = None ->
  match r with Ok keys => keys = map bucketkey (assets w) | Throw _ => True end.
Proof.
  intros H Ht. world w. cbn in Ht. subst tx.
  cbv beta delta [api_delete_images.get_keys] in H. unfold_control H.
  exec H.
  all: finish H; auto.
Qed.

Lemma get_keys_phase_value w keys w' :
  pRetry 2 api_delete_images.get_keys w = (Ok keys, w') -> txn w = None ->
  keys = map bucketkey (assets w).
Proof.
  intros H Ht.
  pose (Keep := fun v : World => txn v = None /\ assets v = assets w).
  assert (Hstep : forall v r1 v', api_delete_images.get_keys v = (r1, v') ->
            Keep v ->
            match r1 with
            | Ok ks => ks = map bucketkey (assets w)
            | Throw _ => Keep v' /\ True
            end).
  { intros v r1 v' E (Kt & Ka).
    pose proof (@get_keys_value _ _ _ E Kt) as V.
    destruct (@get_keys_spec _ _ _ E Kt) as (d & (_ & A & _ & _ & _ & T & _) & _).
    rewrite app_nil_r in A.
    destruct r1 as [ks|e]; [congruence|]. repeat split; congruence. }
  exact (@pRetry_inv _ _ Keep (fun ks _ => ks = map bucketkey (assets w))
           (fun _ _ => True) Hstep 2 _ _ _ H (conj Ht eq_refl)).
Qed.

Lemma clear_bkt_value keydict w r w' :
  api_delete_images.clear_bkt keydict w = (r, w') ->
  match r with
  | Ok _ => bucket w' = without_keys keydict (bucket w)
  | Throw _ => bucket w' = bucket w
  end.
Proof.
  intros H. world w.
  cbv beta delta [api_delete_images.clear_bkt] in H. unfold_control H.
  exec H.
  all: finish H; reflexivity.
Qed.

(** X23: Bulk Clear touches the bucket last and once: either no deletion was
    sent and the bucket is what it was; or one deletion was sent, for a
    gallery that had assets and after the tables were emptied and the id
    counter reset, and a deletion that succeeded has removed the objects of
    the asset rows and nothing else. *)
Theorem bulk_clear_touches_bucket_last w response w' d :
  api_delete_images.delete_images w = (response, w') ->
  log w' = log w ++ d ->
  (deletions d = [] /\ bucket w' = bucket w) \/
  (exists outcome,
     deletions d = [outcome] /\ assets w <> [] /\
     assets w' = [] /\ labels w' = [] /\ auto_increment w' = 1001 /\
     bucket w' = match outcome with
                 | None => without_keys (map bucketkey (assets w)) (bucket w)
                 | Some _ => bucket w
                 end).
Proof.
  intros H Hlog. world w. cbn [log bucket assets] in *.
  cbv beta delta [api_delete_images.delete_images] in H. exec H.
  { injection H as _ <-. cbn [log bucket] in *. apply app_inv_head in Hlog.
    subst d. left. auto. }
  destruct (api_delete_images.try_block _) as [settled w3] eqn:E.
  injection H as _ <-.
  destruct (dbConn_end_spec w3) as (_ & Ea & El & Eb & Ei & _ & t & Ht & Hc & _).
  cbv zeta in *. apply commands_nil_quiet in Hc. destruct Hc as (_ & _ & _ & Tde).
  rewrite Ea, El, Eb, Ei. rewrite Ht in Hlog. clear Ea El Eb Ei Ht.
  cbv beta delta [api_delete_images.try_block bind ret] in E.
  destruct (pRetry 2 _ _) as [[keys|e1] w1] eqn:E1.
  all: pose proof E1 as V1.
  all: apply get_keys_phase_spec in E1; try reflexivity;
       destruct E1 as (dA & (LA & AA & _ & UA & KA & TA & _) & DA);
       cbn [log bucket assets] in *.
  2:{ injection E as _ <-. rewrite LA, <- !app_assoc in Hlog.
      apply app_inv_head in Hlog. subst d. left.
      change (deletions ([mkEvent CConnect None] ++ dA ++ t) = [] /\ bucket w1 = bk).
      rewrite !deletions_app, DA, Tde. auto. }
  apply get_keys_phase_value in V1; [|reflexivity]. cbn [assets] in V1.
  destruct (api_delete_images.clear_db w1) as [[[]|e2] w2] eqn:E2;
    apply clear_db_spec in E2; auto;
    destruct E2 as (dB & LB & DB & UB & KB & RB).
  2:{ injection E as _ <-. rewrite LB, LA, <- !app_assoc in Hlog.
      apply app_inv_head in Hlog. subst d. left.
      change (deletions ([mkEvent CConnect None] ++ dA ++ dB ++ t) = [] /\ bucket w2 = bk).
      rewrite !deletions_app, DA, DB, Tde. split; [reflexivity | congruence]. }
  destruct RB as (AB & BB & IB).
  destruct keys as [|k keys].
  { injection E as _ <-. rewrite LB, LA, <- !app_assoc in Hlog.
    apply app_inv_head in Hlog. subst d. left.
    change (deletions ([mkEvent CConnect None] ++ dA ++ dB ++ t) = [] /\ bucket w2 = bk).
    rewrite !deletions_app, DA, DB, Tde. split; [reflexivity | congruence]. }
  pose proof (@clear_bkt_value _ _ _ _ E) as VC.
  apply clear_bkt_spec in E.
  destruct E as (dC & LC & UC & AC & BC & IC & RC).
  rewrite LC, LB, LA, <- !app_assoc in Hlog.
  apply app_inv_head in Hlog. subst d. right.
  exists (match settled with Ok _ => None | Throw e => Some (message e) end).
  assert (Hd : deletions ((mkEvent CConnect None :: dA) ++ dB ++ dC ++ t)
               = deletions dC).
  { change (mkEvent CConnect None :: dA) with ([mkEvent CConnect None] ++ dA).
    rewrite !deletions_app, DA, DB, Tde. cbn. apply app_nil_r. }
  cbn [app] in Hd |- *. rewrite Hd.
  split; [destruct settled as [[]|e3]; [exact RC | exact (proj1 RC)]|].
  split; [intros Hnil; rewrite Hnil in V1; discriminate V1|].
  split; [congruence|]. split; [congruence|]. split; [congruence|].
  destruct settled as [[]|e3]; rewrite VC, KB, KA; [rewrite V1|]; reflexivity.
Qed.

Lemma bulk_clear_touches_bucket_last_witness :
  (deletions (log (snd (api_delete_images.delete_images sample_bucket))) = [] /\
   bucket (snd (api_delete_images.delete_images sample_bucket))
   = bucket sample_bucket) \/
  (exists outcome,
     deletions (log (snd (api_delete_images.delete_images sample_bucket)))
     = [outcome] /\
     assets sample_bucket <> [] /\
     assets (snd (api_delete_images.delete_images sample_bucket)) = [] /\
     labels (snd (api_delete_images.delete_images sample_bucket)) = [] /\
     auto_increment (snd (api_delete_images.delete_images sample_bucket)) = 1001 /\
     bucket (snd (api_delete_images.delete_images sample_bucket))
     = match outcome with
       | None => without_keys (map bucketkey (assets sample_bucket))
                   (bucket sample_bucket)
       | Some _ => bucket sample_bucket
       end).
Proof.
  apply (@bulk_clear_touches_bucket_last sample_bucket
           (fst (api_delete_images.delete_images sample_bucket))
           (snd (api_delete_images.delete_images sample_bucket))
           (log (snd (api_delete_images.delete_images sample_bucket)))).
  - vm_compute. reflexivity.
  - vm_compute. reflexivity.
Defined.

(** X24: the transaction of [clear_db] does not make the clearing atomic: when
    [TRUNCATE TABLE assets] fails after [TRUNCATE TABLE labels] was served,
    the roll-back is sent and served, the handler answers with status 500,
    and the labels are gone all the same while the assets and the bucket
    are what they were. *)
Theorem failed_clear_is_not_undone w msg rest :
  db_faults w = None :: None :: None :: None :: None :: Some msg :: None :: rest ->
  fst (api_delete_images.delete_images w)
  = Some (500, JObj [("message", JStr msg)]) /\
  labels (snd (api_delete_images.delete_images w)) = [] /\
  assets (snd (api_delete_images.delete_images w)) = assets w /\
  bucket (snd (api_delete_images.delete_images w)) = bucket w /\
  log (snd (api_delete_images.delete_images w))
  = log w ++
    [mkEvent CConnect None;
     mkEvent (CExecute SelectBucketKeys) None;
     mkEvent CBegin None;
     mkEvent (CExecute (SetForeignKeyChecks false)) None;
     mkEvent (CExecute TruncateLabels) None;
     mkEvent (CExecute TruncateAssets) (Some msg);
     mkEvent CRollback None;
     mkEvent CEnd None].
Proof.
  intros Hf. world w. cbn [db_faults labels assets bucket log] in *.
  assert (S1 : hd None df = None) by (rewrite Hf; reflexivity).
  assert (S2 : hd None (tl df) = None) by (rewrite Hf; reflexivity).
  assert (S3 : hd None (tl (tl df)) = None) by (rewrite Hf; reflexivity).
  assert (S4 : hd None (tl (tl (tl df))) = None) by (rewrite Hf; reflexivity).
  assert (S5 : hd None (tl (tl (tl (tl df)))) = None) by (rewrite Hf; reflexivity).
  assert (S6 : hd None (tl (tl (tl (tl (tl df))))) = Some msg)
    by (rewrite Hf; reflexivity).
  assert (S7 : hd None (tl (tl (tl (tl (tl (tl df)))))) = None)
    by (rewrite Hf; reflexivity).
  clear Hf.
  destruct (api_delete_images.delete_images _) as [response v'] eqn:H.
  cbv beta zeta delta [api_delete_images.delete_images] in H. exec H.
  cbv beta zeta delta [api_delete_images.try_block api_delete_images.get_keys
                       api_delete_images.clear_db api_delete_images.delete_sql] in H.
  cbn [pRetry for_of] in H. unfold_control H.
  repeat exec H. reduce_end H. injection H as <- <-. cbn [fst snd labels assets bucket log].
  rewrite ?app_nil_r.
  split; [reflexivity|]. split; [reflexivity|]. split; [reflexivity|].
  split; [reflexivity|]. rewrite <- !app_assoc. reflexivity.
Qed.

Lemma failed_clear_is_not_undone_witness :
  labels (snd (api_delete_images.delete_images
                 (set_db_faults [None; None; None; None; None;
                                 Some "Lock wait timeout exceeded"; None]
                    sample_gallery))) = [] /\
  assets (snd (api_delete_images.delete_images
                 (set_db_faults [None; None; None; None; None;
                                 Some "Lock wait timeout exceeded"; None]
                    sample_gallery)))
  = assets (set_db_faults [None; None; None; None; None;
                           Some "Lock wait timeout exceeded"; None]
              sample_gallery).
Proof.
  pose proof (@failed_clear_is_not_undone
                (set_db_faults [None; None; None; None; None;
                                Some "Lock wait timeout exceeded"; None]
                   sample_gallery)
                "Lock wait timeout exceeded" [] eq_refl) as T.
  split; [exact (proj1 (proj2 T)) | exact (proj1 (proj2 (proj2 T)))].
Defined.


(** ** After a Bulk Clear *)

Lemma bulk_clear_success w w' :
  api_delete_images.delete_images w
  = (Some (200, JObj [("message", JStr "success")]), w') ->
  assets w' = [] /\ labels w' = [] /\ auto_increment w' = 1001.
Proof.
  intros H. world w.
  cbv beta delta [api_delete_images.delete_images] in H. exec H.
  { discriminate H. }
  destruct (api_delete_images.try_block _) as [settled w3] eqn:E.
  destruct (dbConn_end_spec w3) as (_ & Ea & El & _ & Ei & _).
  cbv zeta in *.
  assert (Hok : settled = Ok tt).
  { destruct settled as [[]|e]; [reflexivity | discriminate H]. }
  subst settled. injection H as <-. rewrite Ea, El, Ei.
  cbv beta delta [api_delete_images.try_block bind ret] in E.
  destruct (pRetry 2 _ _) as [[keys|e1] w1] eqn:E1; cbv beta iota zeta in E.
  2:{ discriminate E. }
  apply get_keys_phase_spec in E1; [|reflexivity].
  destruct E1 as (dA & (_ & _ & _ & _ & _ & TA & _) & _).
  destruct (api_delete_images.clear_db w1) as [[[]|e2] w2] eqn:E2;
    cbv beta iota in E.
  2:{ discriminate E. }
  apply clear_db_spec in E2; auto.
  destruct E2 as (dB & _ & _ & _ & _ & AB & BB & IB).
  destruct keys as [|k keys].
  - injection E as <-. auto.
  - apply clear_bkt_spec in E. destruct E as (dC & _ & _ & AC & BC & IC & _).
    repeat split; congruence.
Qed.

(** A detection that fails makes the fan-out fail, whatever becomes of the
    registration. *)
Lemma fan_out_detect_failed uid lf key img w msg k :
  hd (Detected []) (rkg_script w) = DetectFailed msg k ->
  exists e w', api_post_image.fan_out uid lf key img w = (Throw e, w').
Proof.
  intros Hrk.
  unfold api_post_image.fan_out, api_post_image.detect_labels, try_catch, rethrow,
    throw, rkg_send.
  rewrite Hrk.
  destruct (pRetry 2 _ _) as [settled w2].
  destruct (dbConn w2), settled; eauto.
Qed.

(** An upload that the database serves registers its asset at the first
    attempt, under the id that the counter shows. *)
Lemma upload_first_try request w a w' :
  api_post_image.post_image request w
  = (Some (200, JObj [("message", JStr "success"); ("assetid", JNum a)]), w') ->
  serves 5 (db_faults w) ->
  a = auto_increment w.
Proof.
  intros H (S1 & S2 & S3 & S4 & S5 & _). world w.
  cbn [db_faults auto_increment] in *.
  cbv beta delta [api_post_image.post_image] in H. exec H.
  destruct (api_post_image.try_block _ _) as [settled w1] eqn:E.
  assert (Hok : settled = Ok a).
  { destruct settled as [a0|e]; [congruence|].
    destruct (instanceof_ValueError e); discriminate H. }
  subst settled. clear H.
  cbv beta zeta delta [api_post_image.try_block api_post_image.lookup_user
                       api_post_image.upload_to_bucket] in E.
  cbn [pRetry] in E. unfold_control E.
  exec E.
  destruct (filter _ us) as [|row [|row' rows]] eqn:Hrows; cbv beta iota in E.
  1,3: repeat (exec E; try rewrite Hrows in E; cbv beta iota in E); discriminate E.
  repeat exec E; try discriminate E.
  destruct (hd (Detected []) rk) as [candidates|msg k] eqn:Hrk.
  2:{ match type of E with
      | context [api_post_image.fan_out ?u ?l ?k ?i ?v] =>
          destruct (@fan_out_detect_failed u l k i v _ _ Hrk) as (e & w3 & F);
          rewrite F in E
      end.
      discriminate E. }
  cbv beta zeta delta [api_post_image.fan_out api_post_image.detect_labels
                       api_post_image.update_db] in E.
  cbn [pRetry] in E. unfold_control E.
  repeat exec E.
  repeat (match type of E with
          | context [api_post_image.update_labels ?x ?y ?z] =>
              destruct (api_post_image.update_labels x y z) as [[[]|?] ?]
          end; cbv beta iota in E).
  all: first [discriminate E | injection E as <- _; reflexivity].
Qed.

(** X25: the first upload after a Bulk Clear: its row is the only one in
    [assets], every label row belongs to it, and its id is at least 1001;
    when the database serves the upload, the id is 1001. *)
Theorem first_upload_after_clear request w w1 a w2 :
  api_delete_images.delete_images w
  = (Some (200, JObj [("message", JStr "success")]), w1) ->
  api_post_image.post_image request w1
  = (Some (200, JObj [("message", JStr "success"); ("assetid", JNum a)]), w2) ->
  1001 <= a /\
  (exists key,
     assets w2 = [mkAsset a (api_post_image.params_userid request)
                    (api_post_image.body_local_filename request) key]) /\
  (forall l, In l (labels w2) -> l_assetid l = a) /\
  (serves 5 (db_faults w1) -> a = 1001).
Proof.
  intros H1 H2.
  destruct (@bulk_clear_success _ _ H1) as (A1 & L1 & I1).
  destruct (@upload_success _ _ _ _ H2) as (_ & F & key & cands & A2 & _ & _ & L2).
  rewrite A1 in A2. rewrite L1 in L2. rewrite I1 in F. cbn [app] in A2, L2.
  split; [exact F|]. split; [exists key; exact A2|]. split.
  - intros l Hin. rewrite L2 in Hin. apply in_map_iff in Hin.
    destruct Hin as (x & <- & _). reflexivity.
  - intros Hs. rewrite (@upload_first_try _ _ _ _ H2 Hs). exact I1.
Qed.

Lemma first_upload_after_clear_witness :
  1001 <= 1001 /\
  (exists key,
     assets (snd (api_post_image.post_image sample_upload
                    (snd (api_delete_images.delete_images
                            (set_uuids ["u2"] sample_gallery)))))
     = [mkAsset 1001 80001 "cat.jpg" key]) /\
  (forall l,
     In l (labels (snd (api_post_image.post_image sample_upload
                          (snd (api_delete_images.delete_images
                                  (set_uuids ["u2"] sample_gallery))))))
     -> l_assetid l = 1001) /\
  (serves 5 (db_faults (snd (api_delete_images.delete_images
                               (set_uuids ["u2"] sample_gallery))))
   -> 1001 = 1001).
Proof.
  apply (@first_upload_after_clear sample_upload (set_uuids ["u2"] sample_gallery)
           (snd (api_delete_images.delete_images (set_uuids ["u2"] sample_gallery)))
           1001
           (snd (api_post_image.post_image sample_upload
                   (snd (api_delete_images.delete_images
                           (set_uuids ["u2"] sample_gallery)))))).
  - vm_compute. reflexivity.
  - vm_compute. reflexivity.
Defined.
